(** * Cross-layer correlation engine: a shallow embedding and its properties

    The development follows the Python sources of the correlation tool:
    - [common/deduplication.py]  (module [Deduplicator]),
    - [common/timestamp_validator.py] (module [TimestampValidator]),
    - [aws_correlator.py]        (module [AWSCorrelator]),
    - [azure_correlator.py]      (module [AzureCorrelator]).

    A pandas [DataFrame] is a list of rows in table order.  Instants are
    pandas [Timestamp]s, i.e. signed 64-bit counts of nanoseconds since the
    epoch; they are integers of [Z] and the arithmetic that can leave the
    64-bit range raises, as pandas does.  A Python exception is a value of
    [exn] carried by the [result] monad. *)

From Stdlib Require Import ZArith Ascii String Uint63 Floats.PrimFloat Floats.SpecFloat Floats.FloatOps.
From stdpp Require Import base option list strings gmap sorting pretty.

Open Scope string_scope.
Open Scope list_scope.
Open Scope Z_scope.

(** A decimal float literal stands for the nearest [binary64] value, as it
    does in Python. *)
Set Warnings "-inexact-float".

(** ** Python exceptions and the error monad *)

Inductive exn : Type :=
| ValueError (msg : string)
| KeyError (key : string)
| TypeError (msg : string)
| OverflowError.

Inductive result (A : Type) : Type :=
| Ok (a : A)
| Raise (e : exn).
Arguments Ok {A} a.
Arguments Raise {A} e.

Global Instance result_ret : MRet result := fun A a => Ok a.

Global Instance result_bind : MBind result := fun A B k m =>
  match m with
  | Ok a => k a
  | Raise e => Raise e
  end.

Fixpoint mapM_result {A B} (f : A -> result B) (l : list A) : result (list B) :=
  match l with
  | [] => Ok []
  | x :: l' => y ← f x; ys ← mapM_result f l'; Ok (y :: ys)
  end.

(** ** Table cells *)

(** A cell of an untyped column: a number, a string, or a missing value
    ([NaN]/[None]). *)
Inductive cell : Type :=
| CInt (z : Z)
| CStr (s : string)
| CNaN.

Global Instance cell_eq_dec : EqDecision cell.
Proof. solve_decision. Defined.

(** ** Strings as Python uses them *)

(** [s1 in s2] on Python strings. *)
Fixpoint contains (s1 s2 : string) : bool :=
  String.prefix s1 s2 ||
  match s2 with
  | EmptyString => false
  | String _ s2' => contains s1 s2'
  end.

(** [str.lower] on the ASCII range. *)
Definition lower_ascii (c : Ascii.ascii) : Ascii.ascii :=
  let n := Ascii.N_of_ascii c in
  if ((65 <=? n) && (n <=? 90))%N then Ascii.ascii_of_N (n + 32) else c.

Fixpoint lower (s : string) : string :=
  match s with
  | EmptyString => EmptyString
  | String c s' => String (lower_ascii c) (lower s')
  end.

(** [str.strip()] on the ASCII range: the characters Python counts as
    white space there are the tab, the line feed, the vertical tab, the
    form feed, the carriage return, the four separators [0x1c]-[0x1f] and
    the space. *)
Definition is_space (c : Ascii.ascii) : bool :=
  let n := Ascii.N_of_ascii c in
  ((9 <=? n) && (n <=? 13) || (28 <=? n) && (n <=? 32))%N.

Fixpoint lstrip (s : string) : string :=
  match s with
  | EmptyString => EmptyString
  | String c s' => if is_space c then lstrip s' else s
  end.

Fixpoint rstrip (s : string) : string :=
  match s with
  | EmptyString => EmptyString
  | String c s' =>
      match rstrip s' with
      | EmptyString => if is_space c then EmptyString else String c EmptyString
      | r => String c r
      end
  end.

Definition strip (s : string) : string := rstrip (lstrip s).

(** [Series.str.contains(pat, case=False)] interprets [pat] as a regular
    expression.  Every pattern of the sources is built from literal
    characters and the dot, which stands for any character but a newline. *)
Definition re_char (p c : Ascii.ascii) : bool :=
  if decide (p = "."%char) then negb (bool_decide (c = "010"%char))
  else bool_decide (lower_ascii p = lower_ascii c).

Fixpoint re_match_here (pat s : string) : bool :=
  match pat, s with
  | EmptyString, _ => true
  | String _ _, EmptyString => false
  | String p pat', String c s' => re_char p c && re_match_here pat' s'
  end.

Fixpoint re_search (pat s : string) : bool :=
  re_match_here pat s ||
  match s with
  | EmptyString => false
  | String _ s' => re_search pat s'
  end.

(** [str.contains(pat, case=False, na=False)] on a cell that may be missing. *)
Definition str_contains (pat : string) (v : option string) : bool :=
  match v with
  | Some s => re_search pat s
  | None => false
  end.

(** [', '.join(l)]. *)
Fixpoint join (sep : string) (l : list string) : string :=
  match l with
  | [] => ""
  | [x] => x
  | x :: l' => x +:+ sep +:+ join sep l'
  end.

(** The order of Python strings (by code point, lexicographic).  Strings
    are sequences of bytes here; on UTF-8 text the order of the bytes is
    the order of the code points. *)
Definition str_le (s1 s2 : string) : Prop := String.leb s1 s2 = true.

Global Instance str_le_dec : RelDecision str_le.
Proof. intros s1 s2. unfold str_le. apply _. Defined.

(** [sorted(l)] on strings. *)
Definition sorted (l : list string) : list string := merge_sort str_le l.

(** ** pandas primitives on lists of rows *)

(** [duplicated(keep='first')] by a key: a row is dropped when an earlier
    row has its key; [seen] holds the keys met so far. *)
Fixpoint drop_first {A K} `{EqDecision K} (key : A -> K) (seen : list K)
    (l : list A) : list A :=
  match l with
  | [] => []
  | x :: l' =>
      if decide (key x ∈ seen) then drop_first key seen l'
      else x :: drop_first key (key x :: seen) l'
  end.

(** The [keep] argument of [drop_duplicates]: ['first'], ['last'], [False]. *)
Inductive Keep : Type := KeepFirst | KeepLast | KeepFalse.

Definition drop_duplicates {A K} `{EqDecision K} (keep : Keep) (key : A -> K)
    (l : list A) : list A :=
  match keep with
  | KeepFirst => drop_first key [] l
  | KeepLast => reverse (drop_first key [] (reverse l))
  | KeepFalse =>
      filter (fun x => length (filter (fun y => key y = key x) l) = 1%nat) l
  end.

(** [Series.unique()] and [Series.drop_duplicates()]: first occurrences, in
    table order. *)
Definition unique {K} `{EqDecision K} (l : list K) : list K :=
  drop_first id [] l.

(** [df.groupby(col)] with a string key: one group per distinct key, the
    keys ascending, the rows of a group in table order. *)
Definition groupby {A} (key : A -> string) (l : list A) : list (string * list A) :=
  map (fun k => (k, filter (fun r => key r = k) l)) (sorted (unique (map key l))).

(** [groupby] on a column that may hold missing values: those rows are
    dropped ([dropna=True]). *)
Definition groupby_opt {A} (key : A -> option string) (l : list A)
  : list (string * list A) :=
  map (fun k => (k, filter (fun r => key r = Some k) l))
      (sorted (unique (omap key l))).

(** The bounds of [pd.Timestamp]: [-2^63] is [NaT]. *)
Definition Timestamp_min : Z := - 2 ^ 63 + 1.
Definition Timestamp_max : Z := 2 ^ 63 - 1.

(** [ts + pd.Timedelta(...)]: raises when the sum leaves the 64-bit range. *)
Definition Timestamp_add (t d : Z) : result Z :=
  if decide (Timestamp_min <= t + d <= Timestamp_max) then Ok (t + d)
  else Raise OverflowError.

Definition nanos_per_second : Z := 1000000000.
Definition hours (n : Z) : Z := n * 3600 * nanos_per_second.
Definition minutes (n : Z) : Z := n * 60 * nanos_per_second.

(** [Series.min()] and [Series.max()] on a non-empty column of instants. *)
Definition list_min (x : Z) (l : list Z) : Z := foldl Z.min x l.
Definition list_max (x : Z) (l : list Z) : Z := foldl Z.max x l.
Global Arguments list_min : simpl never.
Global Arguments list_max : simpl never.

(** The conversion of an integer column to [float64]. *)
Definition float_of_Z (z : Z) : float :=
  match z with
  | Z0 => 0%float
  | Zpos p => of_uint63 (Uint63.of_Z (Zpos p))
  | Zneg p => (- of_uint63 (Uint63.of_Z (Zpos p)))%float
  end.

(** A fold whose step may raise. *)
Fixpoint foldlM {A S} (f : S -> A -> result S) (s : S) (l : list A) : result S :=
  match l with
  | [] => Ok s
  | x :: l' => s' ← f s x; foldlM f s' l'
  end.

(** ** Library behaviour the sources rely on *)

(** [DataFrame.sort_values(col)] and [Series.sort_values()] are called with
    the default [kind='quicksort'] everywhere in the sources.  pandas
    documents that kind as returning the rows ordered by the column, and as
    not stable; an implementation is any function meeting that contract. *)
Class PandasSort : Type := {
  sort_values : forall {A : Type}, (A -> Z) -> list A -> list A;
  sort_values_Permutation :
    forall {A : Type} (key : A -> Z) (l : list A), sort_values key l ≡ₚ l;
  sort_values_Sorted :
    forall {A : Type} (key : A -> Z) (l : list A),
      Sorted (fun x y => key x <= key y) (sort_values key l)
}.

(** Insertion into a list ordered by [key]: before ([before_ties]) or after
    the rows that carry the same key. *)
Fixpoint insert_by {A} (before_ties : bool) (key : A -> Z) (x : A)
    (l : list A) : list A :=
  match l with
  | [] => [x]
  | y :: l' =>
      if (if before_ties then bool_decide (key x <= key y)
          else bool_decide (key x < key y))
      then x :: y :: l'
      else y :: insert_by before_ties key x l'
  end.

(** The stable sort: rows with equal keys keep their table order. *)
Definition stable_sort {A} (key : A -> Z) (l : list A) : list A :=
  foldr (insert_by true key) [] l.

(** The numeric reductions of pandas on [float64] columns and the float
    formatting of Python.  Their rounding depends on the summation order
    of the installed numpy; the sources rely on [std] being the sample
    standard deviation ([ddof=1]), which is [NaN] below two values. *)
Class PandasStats : Type := {
  total_seconds : Z -> float;
  mean : list float -> float;
  std : list float -> float;
  std_ddof : forall l : list float, (length l <= 1)%nat -> std l = nan;
  round2 : float -> float;
  format_mb : Z -> string;
  format_int : float -> string
}.

(** ** common/deduplication.py *)

Module Deduplicator.

(** A row: its index label and its values, one per column. *)
Record Row : Type := { label : Z; cells : list cell }.

Record DataFrame : Type := { columns : list string; rows : list Row }.

Global Instance Row_eq_dec : EqDecision Row.
Proof. solve_decision. Defined.

Definition empty : DataFrame := {| columns := []; rows := [] |}.

(** The position of a column; [df[c]] raises [KeyError] on an unknown one. *)
Fixpoint column_position (cols : list string) (c : string) : option nat :=
  match cols with
  | [] => None
  | c' :: cols' =>
      if decide (c' = c) then Some 0%nat else S <$> column_position cols' c
  end.

Definition column_lookup (cols : list string) (c : string) : result nat :=
  match column_position cols c with
  | Some i => Ok i
  | None => Raise (KeyError c)
  end.

(** The values of a row at the columns of [subset]. *)
Definition subset_key (ixs : list nat) (r : Row) : list cell :=
  map (fun i => default CNaN (cells r !! i)) ixs.

(** [Deduplicator.remove_duplicates(df, subset, keep)].  [if subset:] is
    false for [None] and for the empty list.  The count the function
    prints is [removed_count]. *)
Definition remove_duplicates (df : DataFrame) (subset : option (list string))
    (keep : Keep) : result DataFrame :=
  match subset with
  | Some (c :: cs) =>
      ixs ← mapM_result (column_lookup (columns df)) (c :: cs);
      Ok {| columns := columns df;
            rows := drop_duplicates keep (subset_key ixs) (rows df) |}
  | _ =>
      Ok {| columns := columns df;
            rows := drop_duplicates keep cells (rows df) |}
  end.

Definition removed_count (df df' : DataFrame) : nat :=
  (length (rows df) - length (rows df'))%nat.

(** [Series.str.strip().str.lower()] on a cell of a column of dtype
    [object]: a value that is no string becomes missing. *)
Definition normalize_cell (c : cell) : cell :=
  match c with
  | CStr s => CStr (lower (strip s))
  | _ => CNaN
  end.

(** [Deduplicator.normalize_user_identifiers(df, user_col)].  The [.str]
    accessor is defined on a column that holds a string, which is what a
    column of identifiers read from a file is; the other values of such a
    column become missing. *)
Definition normalize_user_identifiers (df : DataFrame) (user_col : string)
  : result DataFrame :=
  i ← column_lookup (columns df) user_col;
  Ok {| columns := columns df;
        rows := map (fun r => {| label := label r;
                                 cells := alter normalize_cell i (cells r) |})
                    (rows df) |}.

(** [pd.concat([a, b], ignore_index=True)]: the union of the columns in
    order of appearance, missing values where a table lacks a column, and
    a fresh index. *)
Definition realign (from to : list string) (r : Row) : list cell :=
  map (fun c => match column_position from c with
                | Some i => default CNaN (cells r !! i)
                | None => CNaN
                end) to.

Definition reset_index (body : list (list cell)) : list Row :=
  imap (fun i cs => {| label := Z.of_nat i; cells := cs |}) body.

Definition concat (a b : DataFrame) : DataFrame :=
  let cols := columns a ++ filter (fun c => c ∉ columns a) (columns b) in
  {| columns := cols;
     rows := reset_index (map (realign (columns a) cols) (rows a) ++
                          map (realign (columns b) cols) (rows b)) |}.

(** The [how] argument of [pd.merge]. *)
Inductive How : Type := HowInner | HowOuter | HowLeft | HowRight.

Section Merge.

(** [pd.merge(left, right, on=keys, how=how)], the relational join of
    pandas. *)
Variable pd_merge : DataFrame -> DataFrame -> list string -> How -> result DataFrame.

Fixpoint merge_all (merge_on : option (list string)) (how : How)
    (acc : DataFrame) (dfs : list DataFrame) : result DataFrame :=
  match dfs with
  | [] => Ok acc
  | df :: dfs' =>
      acc' ← match merge_on with
             | Some (k :: ks) => pd_merge acc df (k :: ks) how
             | _ => Ok (concat acc df)
             end;
      merge_all merge_on how acc' dfs'
  end.

(** [Deduplicator.merge_and_deduplicate(dfs, merge_on, how)]. *)
Definition merge_and_deduplicate (dfs : list DataFrame)
    (merge_on : option (list string)) (how : How) : result DataFrame :=
  match dfs with
  | [] => Ok empty
  | [df] => Ok df
  | df0 :: rest =>
      merged ← merge_all merge_on how df0 rest;
      remove_duplicates merged None KeepFirst
  end.

End Merge.

End Deduplicator.

(** ** common/timestamp_validator.py *)

Module TimestampValidator.
Import Deduplicator.

(** An entry of the list [detect_inconsistencies] returns. *)
Record Inconsistency : Type := {
  index : nat;
  timestamp : Z;
  status : string
}.

(** [ts1 - ts2], a [Timedelta]: raises when the difference leaves the
    64-bit range. *)
Definition Timestamp_sub (t1 t2 : Z) : result Z :=
  if decide (Timestamp_min <= t1 - t2 <= Timestamp_max) then Ok (t1 - t2)
  else Raise OverflowError.

(** The inner loop of [detect_inconsistencies]: it stops at the first
    instant of [timestamps2] within the tolerance.  The tolerance is an
    [int]; Python compares it with the float exactly, as the comparison
    with its [float64] value does for a tolerance below [2^53]. *)
Fixpoint matched `{PandasStats} (tolerance_seconds : Z) (ts1 : Z)
    (timestamps2 : list Z) : result bool :=
  match timestamps2 with
  | [] => Ok false
  | ts2 :: rest =>
      delta ← Timestamp_sub ts1 ts2;
      let diff := abs (total_seconds delta) in
      if (diff <=? float_of_Z tolerance_seconds)%float then Ok true
      else matched tolerance_seconds ts1 rest
  end.

(** The outer loop, from position [i] of [timestamps1] on. *)
Fixpoint inconsistencies_from `{PandasStats} (tolerance_seconds : Z) (i : nat)
    (timestamps1 timestamps2 : list Z) : result (list Inconsistency) :=
  match timestamps1 with
  | [] => Ok []
  | ts1 :: rest =>
      m ← matched tolerance_seconds ts1 timestamps2;
      found ← inconsistencies_from tolerance_seconds (S i) rest timestamps2;
      Ok (if (m : bool) then found
          else {| index := i;
                  timestamp := ts1;
                  status := "No matching timestamp found within tolerance" |}
               :: found)
  end.

(** [TimestampValidator.detect_inconsistencies(timestamps1, timestamps2,
    tolerance_seconds)]; the default tolerance is 5. *)
Definition detect_inconsistencies `{PandasStats} (timestamps1 timestamps2 : list Z)
    (tolerance_seconds : Z) : result (list Inconsistency) :=
  inconsistencies_from tolerance_seconds 0 timestamps1 timestamps2.

Definition default_tolerance_seconds : Z := 5.

(** A cell of a column of instants: [CInt t] is the [Timestamp] [t]
    nanoseconds after the epoch and [CNaN] is [NaT]; the comparison of a
    string with a [Timestamp] raises. *)
Definition instant_cell (c : cell) : result (option Z) :=
  match c with
  | CInt t => Ok (Some t)
  | CNaN => Ok None
  | CStr _ => Raise (TypeError "comparison of a str with a Timestamp")
  end.

(** [df[df[timestamp_col] >= start_time]] and its mirror: the rows whose
    instant passes [test], with their index labels; a comparison with
    [NaT] is false. *)
Fixpoint mask_rows (i : nat) (test : Z -> bool) (l : list Row)
  : result (list Row) :=
  match l with
  | [] => Ok []
  | r :: rest =>
      t ← instant_cell (default CNaN (cells r !! i));
      kept ← mask_rows i test rest;
      Ok (if from_option test false t then r :: kept else kept)
  end.

Definition keep_rows (df : DataFrame) (timestamp_col : string)
    (test : Z -> bool) : result DataFrame :=
  i ← column_lookup (columns df) timestamp_col;
  kept ← mask_rows i test (rows df);
  Ok {| columns := columns df; rows := kept |}.

(** [TimestampValidator.validate_temporal_boundaries(df, timestamp_col,
    start_time, end_time)]; a bound is [None] when it is not given. *)
Definition validate_temporal_boundaries (df : DataFrame) (timestamp_col : string)
    (start_time end_time : option Z) : result DataFrame :=
  df1 ← match start_time with
        | Some s => keep_rows df timestamp_col (fun t => bool_decide (s <= t))
        | None => Ok df
        end;
  match end_time with
  | Some e => keep_rows df1 timestamp_col (fun t => bool_decide (t <= e))
  | None => Ok df1
  end.

End TimestampValidator.

(** ** aws_correlator.py *)

Module AWSCorrelator.

(** A row of [eventbridge_df].  An optional field is [None] when the export
    carries no such field, which is when [event.get(field, 'N/A')] takes
    its default. *)
Record LoginEvent : Type := {
  time : Z;
  workspaceId : string;
  clientIpAddress : option string;
  actionType : option string;
  loginTime : option string;
  clientPlatform : option string;
  workspacesClientProductName : option string
}.

(** A row of [query_logs_df]; [q_user_label] is its [user_label] column.
    [query_name] and [instance_id] are [None] where the cell is missing; a
    table without the [instance_id] column is one whose rows all carry
    [None] there. *)
Record QueryLog : Type := {
  q_user_label : string;
  query_name : option string;
  query_timestamp : Z;
  instance_id : option string
}.

(** A row of [vpc_logs_df]; [v_user_label] is its [user_label] column and
    [bytes] the value of [pd.to_numeric(bytes, errors='coerce')], [None]
    where that is [NaN]. *)
Record Flow : Type := {
  v_user_label : string;
  srcaddr : string;
  dstport : cell;
  bytes : option Z;
  timestamp : Z
}.

(** An entry of [workspace_user_mapping]. *)
Record MappingInfo : Type := {
  username : string;
  display_name : string;
  info_user_label : string
}.

(** A row of the session mapping. *)
Record Session : Type := {
  User : string;
  Username : string;
  Display_Name : string;
  Workspace_ID : string;
  Client_IP : string;
  Action : string;
  Login_Time : string + Z;
  Platform : string;
  Product : string;
  Session_Start : Z;
  Session_End : Z
}.

Inductive ActivityType : Type :=
| Domain_Access_Timeline
| Port_Access_Pattern
| Periodic_Domain_Query.

Definition activity_type_name (k : ActivityType) : string :=
  match k with
  | Domain_Access_Timeline => "Domain Access Timeline"
  | Port_Access_Pattern => "Port Access Pattern"
  | Periodic_Domain_Query => "Periodic Domain Query"
  end.

(** The interval statistics of a beaconing row: the string ['N/A'] or a
    number of seconds. *)
Inductive IntervalStat : Type := NA | Seconds (f : float).

(** A row of an activity table.  The three detectors fill different
    columns; a column a detector does not fill is missing ([None]) in the
    concatenated table. *)
Record Activity : Type := {
  activity_type : ActivityType;
  a_user : string;
  domain : option string;
  query_count : option nat;
  start_time : Z;
  end_time : Z;
  total_bytes : option Z;
  port : option Z;
  attempts : option nat;
  source_ips : option string;
  avg_interval : option IntervalStat;
  std_interval : option IntervalStat;
  details : option string
}.

Record TimelineEntry : Type := {
  Timestamp : Z;
  t_User : string;
  Event_Type : string;
  Event_Name : string;
  t_Details : option string;
  Source : string
}.

(** The correlator object: a table is [None] until its loader has run. *)
Record t : Type := {
  eventbridge_df : option (list LoginEvent);
  query_logs_df : option (list QueryLog);
  vpc_logs_df : option (list Flow);
  user_vm_mapping : option (list Session);
  activity_timeline : option (list Activity);
  workspace_user_mapping : gmap string MappingInfo
}.

(** [AWSCorrelator()] *)
Definition init : t :=
  {| eventbridge_df := None; query_logs_df := None; vpc_logs_df := None;
     user_vm_mapping := None; activity_timeline := None;
     workspace_user_mapping := ∅ |}.

Definition set_user_vm_mapping (self : t) (m : list Session) : t :=
  {| eventbridge_df := eventbridge_df self;
     query_logs_df := query_logs_df self;
     vpc_logs_df := vpc_logs_df self;
     user_vm_mapping := Some m;
     activity_timeline := activity_timeline self;
     workspace_user_mapping := workspace_user_mapping self |}.

Definition set_activity_timeline (self : t) (a : list Activity) : t :=
  {| eventbridge_df := eventbridge_df self;
     query_logs_df := query_logs_df self;
     vpc_logs_df := vpc_logs_df self;
     user_vm_mapping := user_vm_mapping self;
     activity_timeline := Some a;
     workspace_user_mapping := workspace_user_mapping self |}.

(** *** Identity resolution *)

(** Method 1: a workspace is linked to a user when one of the user's
    instance identifiers contains the workspace identifier or is contained
    in it; the first such workspace is taken ([break]). *)
Definition link_instance (workspace_ids : list string) (user_label : string)
    (m : gmap string string) (instance_id : string) : gmap string string :=
  match List.find (fun ws_id => contains instance_id ws_id || contains ws_id instance_id)
                  workspace_ids with
  | Some ws_id => <[ws_id := user_label]> m
  | None => m
  end.

Definition link_user (q : list QueryLog) (workspace_ids : list string)
    (m : gmap string string) (user_label : string) : gmap string string :=
  let user_queries := filter (fun r => q_user_label r = user_label) q in
  let instance_ids := unique (omap instance_id user_queries) in
  foldl (link_instance workspace_ids user_label) m instance_ids.

Definition link_by_instance (q : list QueryLog)
    (user_labels workspace_ids : list string) : gmap string string :=
  foldl (link_user q workspace_ids) ∅ user_labels.

(** Method 2: the [i]-th workspace gets the [i]-th user label, as long as
    there is one. *)
Fixpoint map_by_order (i : nat) (workspace_ids user_labels : list string)
    (m : gmap string string) : gmap string string :=
  match workspace_ids with
  | [] => m
  | ws_id :: rest =>
      map_by_order (S i) rest user_labels
        (match user_labels !! i with
         | Some user_label => <[ws_id := user_label]> m
         | None => m
         end)
  end.

Definition build_workspace_user_map (e : list LoginEvent) (q : list QueryLog)
  : gmap string string :=
  let user_labels := sorted (unique (map q_user_label q)) in
  let workspace_ids := sorted (unique (map workspaceId e)) in
  let m := link_by_instance q user_labels workspace_ids in
  if decide (m = ∅) then map_by_order 0 workspace_ids user_labels ∅ else m.

(** *** generate_user_vm_mapping *)

Definition session_of (user_label username display_name workspace_id : string)
    (event : LoginEvent) : result Session :=
  session_end ← Timestamp_add (time event) (hours 1);
  Ok {| User := user_label;
        Username := username;
        Display_Name := display_name;
        Workspace_ID := workspace_id;
        Client_IP := default "N/A" (clientIpAddress event);
        Action := default "N/A" (actionType event);
        Login_Time := match loginTime event with
                      | Some s => inl s
                      | None => inr (time event)
                      end;
        Platform := default "N/A" (clientPlatform event);
        Product := default "N/A" (workspacesClientProductName event);
        Session_Start := time event;
        Session_End := session_end |}.

Definition group_sessions `{PandasSort} (self : t)
    (workspace_user_map : gmap string string)
    (g : string * list LoginEvent) : result (list Session) :=
  let workspace_id := g.1 in
  let group := sort_values time g.2 in
  let user_label := default "Unknown" (workspace_user_map !! workspace_id) in
  let username :=
    match workspace_user_mapping self !! workspace_id with
    | Some info => if decide (username info = "") then user_label else username info
    | None => user_label
    end in
  let display_name :=
    match workspace_user_mapping self !! workspace_id with
    | Some info =>
        if decide (display_name info = "") then user_label else display_name info
    | None => user_label
    end in
  mapM_result (session_of user_label username display_name workspace_id) group.

Definition generate_user_vm_mapping `{PandasSort} (self : t)
  : result (t * list Session) :=
  match eventbridge_df self with
  | None => Raise (ValueError "Event Bridge logs not loaded")
  | Some e =>
      let workspace_user_map :=
        match query_logs_df self with
        | Some q => build_workspace_user_map e q
        | None => ∅
        end in
      per_group ← mapM_result (group_sessions self workspace_user_map)
                              (groupby workspaceId e);
      let sessions := List.concat per_group in
      Ok (set_user_vm_mapping self sessions, sessions)
  end.

(** *** detect_data_exfiltration *)

Definition cloud_storage_domains : list string :=
  ["drive.google.com"; "dropbox.com"; "onedrive.live.com"; "box.com"; "drive.com"].

(** The rows of a user with destination port [p], as a number or as the
    string of its digits. *)
Definition port_traffic (p : Z) (v : list Flow) : list Flow :=
  filter (fun f => dstport f = CInt p \/ dstport f = CStr (pretty p)) v.

Definition user_flows (user_label : string) (v : list Flow) : list Flow :=
  filter (fun f => v_user_label f = user_label) v.

(** [pd.to_numeric(https_traffic['bytes'], errors='coerce').sum()]: missing
    values are skipped. *)
Definition sum_bytes (flows : list Flow) : Z :=
  foldr Z.add 0 (omap bytes flows).

Definition exfil_activity `{PandasStats} (user_label : string) (total : Z)
    (query : QueryLog) : Activity :=
  {| activity_type := Domain_Access_Timeline;
     a_user := user_label;
     domain := query_name query;
     query_count := Some 1%nat;
     start_time := query_timestamp query;
     end_time := query_timestamp query;
     total_bytes := Some total;
     port := Some 443;
     attempts := None;
     source_ips := None;
     avg_interval := None;
     std_interval := None;
     details := Some (format_mb total +:+ " MB transferred to " +:+
                      default "nan" (query_name query)) |}.

(** The body of the loop over [domain_queries]. *)
Definition exfil_query `{PandasStats} (vpc : option (list Flow))
    (user_label : string) (query : QueryLog) : list Activity :=
  match vpc with
  | None => []
  | Some v =>
      let https_traffic := port_traffic 443 (user_flows user_label v) in
      if decide (0 < length https_traffic)%nat then
        let total := sum_bytes https_traffic in
        if decide (100000 < total) then [exfil_activity user_label total query]
        else []
      else []
  end.

(** The body of the loop over [cloud_storage_domains], for one user. *)
Definition exfil_domain `{PandasStats} (vpc : option (list Flow))
    (user_label : string) (group : list QueryLog) (domain : string)
  : list Activity :=
  let domain_queries :=
    filter (fun r => str_contains domain (query_name r)) group in
  if decide (0 < length domain_queries)%nat
  then flat_map (exfil_query vpc user_label) domain_queries
  else [].

Definition detect_data_exfiltration `{PandasStats} (self : t) : list Activity :=
  match query_logs_df self with
  | None => []
  | Some q =>
      flat_map (fun g => flat_map (exfil_domain (vpc_logs_df self) g.1 g.2)
                                  cloud_storage_domains)
               (groupby q_user_label q)
  end.

(** *** detect_rdp_bruteforce *)

Definition rdp_activity (user_label : string) (group : list Flow)
  : list Activity :=
  let connection_attempts := length group in
  match map timestamp group with
  | [] => []
  | ts :: tss =>
      if decide (1 <= connection_attempts)%nat then
        [ {| activity_type := Port_Access_Pattern;
             a_user := user_label;
             domain := None;
             query_count := None;
             start_time := list_min ts tss;
             end_time := list_max ts tss;
             total_bytes := None;
             port := None;
             attempts := Some connection_attempts;
             source_ips := Some (join ", " (take 5 (unique (map srcaddr group))));
             avg_interval := None;
             std_interval := None;
             details := Some (pretty connection_attempts +:+
                              " RDP port (3389) connection attempts") |} ]
      else []
  end.

Definition detect_rdp_bruteforce (self : t) : list Activity :=
  match vpc_logs_df self with
  | None => []
  | Some v =>
      let rdp_logs := port_traffic 3389 v in
      flat_map (fun g => rdp_activity g.1 g.2) (groupby v_user_label rdp_logs)
  end.

(** *** detect_c2_beaconing *)

Definition exclude_domains : list string :=
  ["microsoft.com"; "windows.com"; "amazon.com"; "amazonaws.com"].

Definition is_excluded (query_name : string) : bool :=
  existsb (fun exc => contains exc query_name) exclude_domains.

Definition is_suspicious_pattern (query_name : string) : bool :=
  contains "c2-server" (lower query_name) || contains "c2server" (lower query_name).

(** [Series.diff()] without its leading missing value. *)
Fixpoint diff (l : list Z) : list Z :=
  match l with
  | x :: (y :: _) as l' => (y - x) :: diff l'
  | _ => []
  end.

(** [query_group['query_timestamp'].sort_values()] *)
Definition sorted_timestamps `{PandasSort} (query_group : list QueryLog) : list Z :=
  sort_values id (map query_timestamp query_group).

(** [timestamps.diff().dt.total_seconds().dropna()] *)
Definition intervals `{PandasSort} `{PandasStats} (query_group : list QueryLog)
  : list float :=
  filter (fun x => is_nan x = false)
         (map total_seconds (diff (sorted_timestamps query_group))).

Definition beacon_activity (user_label query_name : string) (count : nat)
    (first_ts last_ts : Z) (avg sd : IntervalStat) : Activity :=
  {| activity_type := Periodic_Domain_Query;
     a_user := user_label;
     domain := Some query_name;
     query_count := Some count;
     start_time := first_ts;
     end_time := last_ts;
     total_bytes := None;
     port := None;
     attempts := None;
     source_ips := None;
     avg_interval := Some avg;
     std_interval := Some sd;
     details := None |}.

(** The test on the interval statistics. *)
Definition is_periodic (avg_interval std_interval interval_threshold : float)
  : bool :=
  (avg_interval <=? interval_threshold)%float && (std_interval <? 10)%float.

(** The body of the loop over the [(user_label, query_name)] groups.  A
    group of [groupby] is never empty, so [iloc[0]] and [iloc[-1]] exist. *)
Definition beacon_group `{PandasSort} `{PandasStats}
    (interval_threshold : float) (min_occurrences : Z)
    (user_label query_name : string) (query_group : list QueryLog)
  : list Activity :=
  if is_excluded query_name then []
  else if is_suspicious_pattern query_name then
    let timestamps := sorted_timestamps query_group in
    match timestamps with
    | [] => []
    | first_ts :: _ =>
        [beacon_activity user_label query_name (length query_group)
                         first_ts (List.last timestamps first_ts) NA NA]
    end
  else if decide (Z.of_nat (length query_group) < min_occurrences) then []
  else
    let timestamps := sorted_timestamps query_group in
    let intervals := intervals query_group in
    if decide (0 < length intervals)%nat then
      let avg_interval := mean intervals in
      let std_interval := std intervals in
      if is_periodic avg_interval std_interval interval_threshold then
        [beacon_activity user_label query_name (length query_group)
                         (List.hd 0 timestamps) (List.last timestamps 0)
                         (Seconds (round2 avg_interval))
                         (Seconds (round2 std_interval))]
      else []
    else [].

Definition detect_c2_beaconing `{PandasSort} `{PandasStats} (self : t)
    (interval_threshold : float) (min_occurrences : Z) : list Activity :=
  match query_logs_df self with
  | None => []
  | Some q =>
      flat_map
        (fun ug =>
           flat_map (fun qg => beacon_group interval_threshold min_occurrences
                                            ug.1 qg.1 qg.2)
                    (groupby_opt query_name ug.2))
        (groupby q_user_label q)
  end.

(** The defaults of [detect_c2_beaconing]. *)
Definition default_interval_threshold : float := 100%float.
Definition default_min_occurrences : Z := 1.

(** *** detect_all_activities *)

Definition detect_all_activities `{PandasSort} `{PandasStats} (self : t)
  : t * list Activity :=
  let c2_activities :=
    detect_c2_beaconing self default_interval_threshold default_min_occurrences in
  let exfil_activities := detect_data_exfiltration self in
  let rdp_activities := detect_rdp_bruteforce self in
  let combined := c2_activities ++ exfil_activities ++ rdp_activities in
  (set_activity_timeline self combined, combined).

(** *** generate_timeline *)

Definition login_entry (workspace_user_map : gmap string string)
    (event : LoginEvent) : TimelineEntry :=
  let workspace_id := workspaceId event in
  {| Timestamp := time event;
     t_User := default "Unknown" (workspace_user_map !! workspace_id);
     Event_Type := "Login";
     Event_Name := default "N/A" (actionType event);
     t_Details := Some ("Workspace: " +:+ workspace_id +:+ ", IP: " +:+
                        default "N/A" (clientIpAddress event));
     Source := "Event Bridge" |}.

(** [threat.get('Details', '')]: the empty string when the activity table
    has no [Details] column, the cell (possibly missing) when it has. *)
Definition threat_entry (has_details : bool) (threat : Activity) : TimelineEntry :=
  {| Timestamp := start_time threat;
     t_User := a_user threat;
     Event_Type := "Threat Detected";
     Event_Name := activity_type_name (activity_type threat);
     t_Details := if has_details then details threat else Some "";
     Source := "Threat Detection" |}.

(** The rows of the timeline before they are sorted. *)
Definition timeline_rows (self : t) : list TimelineEntry :=
  let workspace_user_map :=
    match query_logs_df self, eventbridge_df self with
    | Some q, Some e => build_workspace_user_map e q
    | _, _ => ∅
    end in
  let logins :=
    match eventbridge_df self with
    | Some e => map (login_entry workspace_user_map) e
    | None => []
    end in
  let threats :=
    match activity_timeline self with
    | Some acts =>
        map (threat_entry (existsb (fun a => bool_decide (is_Some (details a))) acts))
            acts
    | None => []
    end in
  logins ++ threats.

Definition generate_timeline `{PandasSort} (self : t) : list TimelineEntry :=
  let timeline := timeline_rows self in
  if decide (0 < length timeline)%nat then sort_values Timestamp timeline
  else timeline.

(** *** load_workspace_user_mapping *)

(** An entry of the list [workspace_mappings] of the mapping file; a field
    is [None] when the entry has no such key. *)
Record MappingEntry : Type := {
  e_workspace_id : option string;
  e_username : option string;
  e_display_name : option string;
  e_user_label : option string
}.

(** What [open] and [json.load] give on a path: [FileNotFoundError] or
    [JSONDecodeError], or the object of the file, whose key
    [workspace_mappings] is absent or bound to a list of entries. *)
Inductive MappingFile : Type :=
| Unreadable
| Parsed (workspace_mappings : option (list MappingEntry)).

Definition set_workspace_user_mapping (self : t)
    (mapping : gmap string MappingInfo) : t :=
  {| eventbridge_df := eventbridge_df self;
     query_logs_df := query_logs_df self;
     vpc_logs_df := vpc_logs_df self;
     user_vm_mapping := user_vm_mapping self;
     activity_timeline := activity_timeline self;
     workspace_user_mapping := mapping |}.

(** The body of the loop over the entries: an entry without a workspace
    identifier, or with the empty one, is skipped. *)
Definition add_entry (mapping : gmap string MappingInfo) (entry : MappingEntry)
  : gmap string MappingInfo :=
  match e_workspace_id entry with
  | Some workspace_id =>
      if decide (workspace_id = "") then mapping
      else <[workspace_id := {| username := default "" (e_username entry);
                                display_name := default "" (e_display_name entry);
                                info_user_label := default "" (e_user_label entry) |}]>
             mapping
  | None => mapping
  end.

(** [load_workspace_user_mapping(mapping_file)] on a file system [fs];
    [mapping_file] is [None] when the argument is not given. *)
Definition load_workspace_user_mapping (fs : string -> MappingFile) (self : t)
    (mapping_file : option string) : t * gmap string MappingInfo :=
  match mapping_file with
  | None => (self, ∅)
  | Some path =>
      if decide (path = "") then (self, ∅)
      else
        match fs path with
        | Unreadable => (self, ∅)
        | Parsed data =>
            let mapping := foldl add_entry ∅ (default [] data) in
            (set_workspace_user_mapping self mapping, mapping)
        end
  end.

(** *** get_summary_statistics *)

(** The dictionary of statistics: a key the function does not set is
    [None]. *)
Record Summary : Type := {
  total_login_events : option nat;
  unique_workspaces : option nat;
  total_dns_queries : option nat;
  unique_domains : option nat;
  unique_users : option nat;
  total_network_flows : option nat;
  activities_detected : nat;
  activity_types : list string;
  total_sessions : option nat
}.

(** [Series.nunique()] leaves the missing values out. *)
Definition get_summary_statistics (self : t) : Summary :=
  let detected :=
    match activity_timeline self with
    | Some (a :: acts) =>
        (length (a :: acts),
         unique (map (fun x => activity_type_name (activity_type x)) (a :: acts)))
    | _ => (0%nat, [])
    end in
  {| total_login_events := length <$> eventbridge_df self;
     unique_workspaces :=
       (fun e => length (unique (map workspaceId e))) <$> eventbridge_df self;
     total_dns_queries := length <$> query_logs_df self;
     unique_domains :=
       (fun q => length (unique (omap query_name q))) <$> query_logs_df self;
     unique_users :=
       (fun q => length (unique (map q_user_label q))) <$> query_logs_df self;
     total_network_flows := length <$> vpc_logs_df self;
     activities_detected := detected.1;
     activity_types := detected.2;
     total_sessions := length <$> user_vm_mapping self |}.

End AWSCorrelator.

(** ** azure_correlator.py *)

Module AzureCorrelator.

(** A row of a sign-in table: the canonical [Date] and [User] columns and
    the other columns by name; a name bound to nothing is a missing cell. *)
Record SignIn : Type := {
  Date : Z;
  User : string;
  attrs : gmap string string
}.

Record SignInTable : Type := {
  columns : list string;
  events : list SignIn
}.

(** A row of the session mapping.  The grouped path fills [Event_Count] and
    [Request_IDs], the fallback path [Request_ID]. *)
Record Session : Type := {
  s_User : string;
  VM_Identifier : string;
  VM_Name : string;
  Session_Start : Z;
  Session_End : Z;
  IP_Address : option string;
  Application : option string;
  Event_Count : option nat;
  Request_IDs : option string;
  Request_ID : option string
}.

Inductive ActivityType : Type :=
| Failed_Login_Attempt
| Rapid_VM_Switching
| Multiple_IP_Access.

Record Activity : Type := {
  activity_type : ActivityType;
  a_user : string;
  attempts : option nat;
  vm_count : option nat;
  switch_count : option nat;
  ip_count : option nat;
  start_time : Z;
  end_time : Z;
  ips : option string;
  vm_list : option string;
  details : string
}.

Record ConcurrentSession : Type := {
  VM : string;
  User1 : string;
  User2 : string;
  Overlap_Start : Z;
  Overlap_End : Z
}.

Record Analysis : Type := {
  vm_per_user : gmap string nat;
  users_per_vm : gmap string nat;
  allocation_strategy : string;
  concurrent_sessions : list ConcurrentSession;
  concurrent_access_count : nat
}.

Record Fragmentation : Type := {
  f_User : string;
  Total_Sessions : nat;
  Unique_VMs : nat;
  VM_List : string;
  First_Session : Z;
  Last_Session : Z;
  Total_Duration : Z
}.

Record TimelineEntry : Type := {
  Timestamp : Z;
  t_User : string;
  Event_Type : string;
  Event_Name : string;
  t_Details : string;
  Source : string
}.

Record t : Type := {
  interactive_signin_df : option SignInTable;
  noninteractive_signin_df : option SignInTable;
  user_vm_mapping : option (list Session);
  activity_timeline : option (list Activity);
  vm_name_mapping : gmap string string
}.

(** [AzureCorrelator()] *)
Definition init : t :=
  {| interactive_signin_df := None; noninteractive_signin_df := None;
     user_vm_mapping := None; activity_timeline := None;
     vm_name_mapping := ∅ |}.

(** *** _generate_vm_name *)

(** [s.split(c)] *)
Fixpoint split_on (c : Ascii.ascii) (s : string) : list string :=
  match s with
  | EmptyString => [EmptyString]
  | String a s' =>
      if decide (a = c) then EmptyString :: split_on c s'
      else match split_on c s' with
           | [] => [String a EmptyString]
           | p :: ps => String a p :: ps
           end
  end.

Definition generate_vm_name (cache : gmap string string) (device_id : string)
  : string * gmap string string :=
  if decide (device_id = "" \/ device_id = "Unknown") then ("Unknown", cache)
  else
    match cache !! device_id with
    | Some vm_name => (vm_name, cache)
    | None =>
        let parts := split_on "-"%char device_id in
        let short_id :=
          if decide (1 < length parts)%nat then List.last parts ""
          else String.substring 0 12 device_id in
        let vm_name := "VM-" +:+ short_id in
        (vm_name, <[device_id := vm_name]> cache)
    end.

(** *** generate_user_vm_mapping *)

(** [row.get(c, default)] on the columns of the table. *)
Definition get_col (cols : list string) (c : string) (event : SignIn)
  : option (option string) :=
  if decide (c ∈ cols) then Some (attrs event !! c) else None.

(** [event.get('IP address', event.get('ipAddress', 'N/A'))] *)
Definition ip_address (cols : list string) (event : SignIn) : option string :=
  match get_col cols "IP address" event with
  | Some v => v
  | None => default (Some "N/A") (get_col cols "ipAddress" event)
  end.

Definition get_or_na (cols : list string) (c : string) (event : SignIn)
  : option string :=
  default (Some "N/A") (get_col cols c event).

(** The device column: the first candidate the table has. *)
Definition device_column (cols : list string) : option string :=
  List.find (fun c => bool_decide (c ∈ cols))
            ["Device ID"; "deviceId"; "IP address"; "ipAddress"].

(** The state the loops thread: the name cache and the sessions so far. *)
Definition Acc : Type := gmap string string * list Session.

(** The fallback: one session per event. *)
Definition event_session (cols : list string) (user : string) (acc : Acc)
    (event : SignIn) : result Acc :=
  let device_id := "Unknown" in
  let '(vm_name, cache) := generate_vm_name acc.1 device_id in
  session_end ← Timestamp_add (Date event) (minutes 30);
  Ok (cache,
      acc.2 ++ [ {| s_User := user;
                    VM_Identifier := device_id;
                    VM_Name := vm_name;
                    Session_Start := Date event;
                    Session_End := session_end;
                    IP_Address := ip_address cols event;
                    Application := get_or_na cols "Application" event;
                    Event_Count := None;
                    Request_IDs := None;
                    Request_ID := get_or_na cols "Request ID" event |} ]).

(** [.astype(str)] on a cell. *)
Definition astype_str (v : option string) : string := default "nan" v.

(** [device_group.get(c, pd.Series(['N/A']))]: the column [c] of the group,
    or the one-row default when the table has no such column. *)
Definition column_or_na (cols : list string) (c : string)
    (device_group : list SignIn) : list (option string) :=
  if decide (c ∈ cols) then map (fun e => attrs e !! c) device_group
  else [Some "N/A"].

(** One session per [(user, device)] group. *)
Definition device_session `{PandasSort} (cols : list string) (user : string)
    (acc : Acc) (g : string * list SignIn) : result Acc :=
  let device_group := sort_values Date g.2 in
  match device_group with
  | [] => Ok acc
  | first_event :: _ =>
      let device_id_str := g.1 in
      let '(vm_name, cache) := generate_vm_name acc.1 device_id_str in
      let dates := map Date device_group in
      session_end ← Timestamp_add (list_max (Date first_event) dates) (minutes 30);
      Ok (cache,
          acc.2 ++ [ {| s_User := user;
                        VM_Identifier := device_id_str;
                        VM_Name := vm_name;
                        Session_Start := list_min (Date first_event) dates;
                        Session_End := session_end;
                        IP_Address := ip_address cols first_event;
                        Application := get_or_na cols "Application" first_event;
                        Event_Count := Some (length device_group);
                        Request_IDs :=
                          Some (join ", "
                                  (take 3 (map astype_str
                                             (column_or_na cols "Request ID"
                                                           device_group))));
                        Request_ID := None |} ])
  end.

Definition user_sessions `{PandasSort} (df : SignInTable) (acc : Acc)
    (user : string) : result Acc :=
  let user_events := filter (fun e => User e = user) (events df) in
  match device_column (columns df) with
  | None => foldlM (event_session (columns df) user) acc user_events
  | Some device_col =>
      foldlM (device_session (columns df) user) acc
             (groupby_opt (fun e => attrs e !! device_col) user_events)
  end.

Definition set_mapping (self : t) (cache : gmap string string)
    (m : list Session) : t :=
  {| interactive_signin_df := interactive_signin_df self;
     noninteractive_signin_df := noninteractive_signin_df self;
     user_vm_mapping := Some m;
     activity_timeline := activity_timeline self;
     vm_name_mapping := cache |}.

(** The sessions in the order the loops append them. *)
Definition build_sessions `{PandasSort} (self : t) (df : SignInTable)
  : result Acc :=
  let unique_users := unique (map User (events df)) in
  foldlM (user_sessions df) (vm_name_mapping self, []) unique_users.

Definition generate_user_vm_mapping `{PandasSort} (self : t)
  : result (t * list Session) :=
  match noninteractive_signin_df self with
  | None => Raise (ValueError "Non-Interactive Sign-in logs not loaded.")
  | Some df =>
      '(cache, sessions) ← build_sessions self df;
      match sessions with
      | [] => Raise (KeyError "Session Start")
      | _ =>
          let mapping_df := sort_values Session_Start sessions in
          Ok (set_mapping self cache mapping_df, mapping_df)
      end
  end.

(** *** analyze_vm_allocation_pattern *)

(** [groupby(by_col)[col].nunique().to_dict()] *)
Definition nunique_per (by_col col : Session -> string) (m : list Session)
  : gmap string nat :=
  list_to_map
    (map (fun g => (g.1, length (unique (map col g.2)))) (groupby by_col m)).

(** [groupby(by_col)[col].nunique().mean()] *)
Definition mean_nunique `{PandasStats} (by_col col : Session -> string)
    (m : list Session) : float :=
  mean (map (fun g => float_of_Z (Z.of_nat (length (unique (map col g.2)))))
            (groupby by_col m)).

(** The table with its index: after [reset_index(drop=True)] the label of
    a row is its position. *)
Definition indexed (m : list Session) : list (nat * Session) := imap pair m.

(** The rows of [vm_sessions] that overlap [session1], are not [session1]
    itself and belong to another user. *)
Definition overlaps (i : nat) (session1 : Session)
    (vm_sessions : list (nat * Session)) : list (nat * Session) :=
  filter (fun js => Session_Start js.2 <= Session_End session1 /\
                    Session_End js.2 >= Session_Start session1 /\
                    js.1 <> i /\
                    s_User js.2 <> s_User session1)
         vm_sessions.

Definition concurrent_entry (vm_id : string) (vm_sessions : list (nat * Session))
    (is1 : nat * Session) : list ConcurrentSession :=
  let session1 := is1.2 in
  match overlaps is1.1 session1 vm_sessions with
  | [] => []
  | other :: _ =>
      [ {| VM := vm_id;
           User1 := s_User session1;
           User2 := s_User other.2;
           Overlap_Start := Z.max (Session_Start session1) (Session_Start other.2);
           Overlap_End := Z.min (Session_End session1) (Session_End other.2) |} ]
  end.

Definition concurrent_on_vm (mapping : list (nat * Session)) (vm_id : string)
  : list ConcurrentSession :=
  let vm_sessions := filter (fun js => VM_Identifier js.2 = vm_id) mapping in
  flat_map (concurrent_entry vm_id vm_sessions) vm_sessions.

(** The concurrent-access part of the analysis. *)
Definition find_concurrent_sessions (m : list Session) : list ConcurrentSession :=
  let unique_vms := unique (map VM_Identifier m) in
  flat_map (concurrent_on_vm (indexed m)) unique_vms.

Definition analyze_vm_allocation_pattern `{PandasStats} (self : t)
  : result Analysis :=
  match user_vm_mapping self with
  | None => Raise (ValueError "User-VM mapping not generated.")
  | Some m =>
      let avg_vms_per_user := mean_nunique s_User VM_Identifier m in
      let found := find_concurrent_sessions m in
      Ok {| vm_per_user := nunique_per s_User VM_Identifier m;
            users_per_vm := nunique_per VM_Identifier s_User m;
            allocation_strategy :=
              if (1.5 <? avg_vms_per_user)%float
              then "Breadth-First (users spread across multiple VMs)"
              else "Depth-First (users concentrated on fewer VMs)";
            concurrent_sessions := found;
            concurrent_access_count := length found |}
  end.

(** *** generate_timeline *)

Definition signin_entry (cols : list string) (event : SignIn) : TimelineEntry :=
  {| Timestamp := Date event;
     t_User := User event;
     Event_Type := "Sign-in";
     Event_Name := "Non-Interactive Sign-in";
     t_Details := "App: " +:+ astype_str (get_or_na cols "Application" event) +:+
                  ", IP: " +:+ astype_str (ip_address cols event);
     Source := "Azure Sign-in Logs" |}.

Definition timeline_rows (self : t) : list TimelineEntry :=
  match noninteractive_signin_df self with
  | Some df => map (signin_entry (columns df)) (events df)
  | None => []
  end.

Definition generate_timeline `{PandasSort} (self : t) : list TimelineEntry :=
  let timeline := timeline_rows self in
  if decide (0 < length timeline)%nat then sort_values Timestamp timeline
  else timeline.

(** *** detect_failed_logins *)

(** [', '.join(values)]: raises on a value that is no string. *)
Definition join_cells (vs : list (option string)) : result string :=
  strs ← mapM_result (fun v => match v with
                               | Some s => Ok s
                               | None => Raise (TypeError "sequence item: expected str instance")
                               end) vs;
  Ok (join ", " strs).

(** [Status.str.contains('Failure|failure|Failed|failed', case=False, na=False)] *)
Definition is_failure (status : option string) : bool :=
  existsb (fun alt => str_contains alt status)
          ["Failure"; "failure"; "Failed"; "failed"].

Definition failed_login_activity (cols : list string) (g : string * list SignIn)
  : result (list Activity) :=
  let group := g.2 in
  match map Date group with
  | [] => Ok []
  | d :: ds =>
      if decide (1 <= length group)%nat then
        ips ← (if decide ("IP address" ∈ cols)
               then join_cells (take 5 (unique (map (fun e => attrs e !! "IP address") group)))
               else if decide ("ipAddress" ∈ cols)
               then join_cells (take 5 (unique (map (fun e => attrs e !! "ipAddress") group)))
               else Ok "N/A");
        Ok [ {| activity_type := Failed_Login_Attempt;
                a_user := g.1;
                attempts := Some (length group);
                vm_count := None;
                switch_count := None;
                ip_count := None;
                start_time := list_min d ds;
                end_time := list_max d ds;
                ips := Some ips;
                vm_list := None;
                details := pretty (length group) +:+
                           " failed login attempts detected" |} ]
      else Ok []
  end.

Definition detect_failed_logins (self : t) : result (list Activity) :=
  match interactive_signin_df self with
  | None => Ok []
  | Some df =>
      if decide ("Status" ∈ columns df) then
        let failed_logins :=
          filter (fun e => is_failure (attrs e !! "Status")) (events df) in
        per_user ← mapM_result (failed_login_activity (columns df))
                               (groupby User failed_logins);
        Ok (List.concat per_user)
      else Ok []
  end.

(** *** detect_rapid_vm_switching *)

(** The gaps, in seconds, between adjacent sessions on different VMs. *)
Fixpoint vm_switches `{PandasStats} (l : list Session) : list float :=
  match l with
  | current :: (next :: _) as l' =>
      if decide (VM_Identifier current <> VM_Identifier next)
      then total_seconds (Session_Start next - Session_End current) :: vm_switches l'
      else vm_switches l'
  | _ => []
  end.

(** [min(l)] on Python floats. *)
Definition float_min (x : float) (l : list float) : float :=
  foldl (fun acc y => if (y <? acc)%float then y else acc) x l.

Definition rapid_switching_activity `{PandasSort} `{PandasStats}
    (m : list Session) (user : string) : list Activity :=
  let user_sessions :=
    sort_values Session_Start (filter (fun s => s_User s = user) m) in
  let unique_vms := unique (map VM_Identifier user_sessions) in
  if decide (1 < length unique_vms)%nat then
    match vm_switches user_sessions, user_sessions with
    | sw :: sws, s :: ss =>
        let shortest := float_min sw sws in
        if (shortest <? 3600)%float then
          [ {| activity_type := Rapid_VM_Switching;
               a_user := user;
               attempts := None;
               vm_count := Some (length unique_vms);
               switch_count := Some (length (sw :: sws));
               ip_count := None;
               start_time := list_min (Session_Start s) (map Session_Start ss);
               end_time := list_max (Session_End s) (map Session_End ss);
               ips := None;
               vm_list := Some (join ", " (take 5 unique_vms));
               details := "User switched between " +:+ pretty (length unique_vms) +:+
                          " VMs with minimum interval of " +:+
                          format_int shortest +:+ "s" |} ]
        else []
    | _, _ => []
    end
  else [].

Definition detect_rapid_vm_switching `{PandasSort} `{PandasStats} (self : t)
  : list Activity :=
  match user_vm_mapping self with
  | None => []
  | Some m => flat_map (rapid_switching_activity m) (unique (map s_User m))
  end.

(** *** detect_multiple_ip_access *)

Definition multiple_ip_activity (m : list Session) (user : string)
  : result (list Activity) :=
  let user_sessions := filter (fun s => s_User s = user) m in
  let unique_ips := unique (map IP_Address user_sessions) in
  match user_sessions with
  | s :: ss =>
      if decide (1 < length unique_ips)%nat then
        ips ← join_cells (take 5 unique_ips);
        Ok [ {| activity_type := Multiple_IP_Access;
                a_user := user;
                attempts := None;
                vm_count := None;
                switch_count := None;
                ip_count := Some (length unique_ips);
                start_time := list_min (Session_Start s) (map Session_Start ss);
                end_time := list_max (Session_End s) (map Session_End ss);
                ips := Some ips;
                vm_list := None;
                details := "User accessed from " +:+ pretty (length unique_ips) +:+
                           " different IP addresses" |} ]
      else Ok []
  | [] => Ok []
  end.

Definition detect_multiple_ip_access (self : t) : result (list Activity) :=
  match user_vm_mapping self with
  | None => Ok []
  | Some m =>
      per_user ← mapM_result (multiple_ip_activity m) (unique (map s_User m));
      Ok (List.concat per_user)
  end.

(** *** detect_all_activities *)

Definition set_activity_timeline (self : t) (a : list Activity) : t :=
  {| interactive_signin_df := interactive_signin_df self;
     noninteractive_signin_df := noninteractive_signin_df self;
     user_vm_mapping := user_vm_mapping self;
     activity_timeline := Some a;
     vm_name_mapping := vm_name_mapping self |}.

Definition detect_all_activities `{PandasSort} `{PandasStats} (self : t)
  : result (t * list Activity) :=
  failed_logins ← detect_failed_logins self;
  let vm_switching := detect_rapid_vm_switching self in
  ip_access ← detect_multiple_ip_access self;
  let combined := failed_logins ++ vm_switching ++ ip_access in
  Ok (set_activity_timeline self combined, combined).

(** *** detect_evidence_fragmentation *)

Definition fragmentation_row (m : list Session) (user : string)
  : list Fragmentation :=
  let user_sessions := filter (fun s => s_User s = user) m in
  match user_sessions with
  | s :: ss =>
      let vm_list := unique (map VM_Identifier user_sessions) in
      let first_session := list_min (Session_Start s) (map Session_Start ss) in
      let last_session := list_max (Session_End s) (map Session_End ss) in
      [ {| f_User := user;
           Total_Sessions := length user_sessions;
           Unique_VMs := length vm_list;
           VM_List := join ", " vm_list;
           First_Session := first_session;
           Last_Session := last_session;
           Total_Duration := last_session - first_session |} ]
  | [] => []
  end.

Definition detect_evidence_fragmentation (self : t) : result (list Fragmentation) :=
  match user_vm_mapping self with
  | None => Raise (ValueError "User-VM mapping not generated.")
  | Some m => Ok (flat_map (fragmentation_row m) (unique (map s_User m)))
  end.

(** *** get_summary_statistics *)

Definition activity_type_name (k : ActivityType) : string :=
  match k with
  | Failed_Login_Attempt => "Failed Login Attempt"
  | Rapid_VM_Switching => "Rapid VM Switching"
  | Multiple_IP_Access => "Multiple IP Access"
  end.

(** The dictionary of statistics: a key the function does not set is
    [None]. *)
Record Summary : Type := {
  total_interactive_signins : option nat;
  total_noninteractive_signins : option nat;
  unique_users : option nat;
  total_sessions : option nat;
  unique_vms : option nat;
  activities_detected : nat;
  activity_types : list string
}.

Definition get_summary_statistics (self : t) : Summary :=
  let detected :=
    match activity_timeline self with
    | Some (a :: acts) =>
        (length (a :: acts),
         unique (map (fun x => activity_type_name (activity_type x)) (a :: acts)))
    | _ => (0%nat, [])
    end in
  {| total_interactive_signins :=
       (fun df => length (events df)) <$> interactive_signin_df self;
     total_noninteractive_signins :=
       (fun df => length (events df)) <$> noninteractive_signin_df self;
     unique_users :=
       (fun df => length (unique (map User (events df))))
         <$> noninteractive_signin_df self;
     total_sessions := length <$> user_vm_mapping self;
     unique_vms :=
       (fun m => length (unique (map VM_Identifier m))) <$> user_vm_mapping self;
     activities_detected := detected.1;
     activity_types := detected.2 |}.

End AzureCorrelator.

(** * The vocabulary of the properties *)

(** [x] is the greatest value of the column [l]. *)
Definition is_maximum (x : Z) (l : list Z) : Prop :=
  x ∈ l /\ forall y, y ∈ l -> y <= x.

(** 2025-01-01T00:00:00Z *)
Definition new_year_2025 : Z := 1735689600 * nanos_per_second.

(** ** Azure: sessions and concurrent sessions *)

Section AzureVocabulary.
Import AzureCorrelator.

(** Session [o], at position [j] of the mapping, is on the VM of session
    [s] (at position [i]), its window overlaps the window of [s], and it
    belongs to another user. *)
Definition concurrent_with (m : list Session) (i : nat) (s : Session)
    (j : nat) (o : Session) : Prop :=
  m !! j = Some o /\ j <> i /\
  VM_Identifier o = VM_Identifier s /\
  Session_Start o <= Session_End s /\ Session_End o >= Session_Start s /\
  s_User o <> s_User s.

(** The sessions of the VM of [is], as the loop sees them. *)
Definition same_vm (m : list Session) (is1 : nat * Session) : list (nat * Session) :=
  filter (fun js => VM_Identifier js.2 = VM_Identifier is1.2) (indexed m).

(** The test [len(overlaps) > 0] for the session [is1] of the mapping. *)
Definition has_overlap (m : list Session) (is1 : nat * Session) : Prop :=
  (0 < length (overlaps is1.1 is1.2 (same_vm m is1)))%nat.

Global Instance has_overlap_dec m is1 : Decision (has_overlap m is1).
Proof. unfold has_overlap. apply _. Defined.

(** The row the loop appends for [a] when [b] is the first session that
    overlaps it. *)
Definition pair_entry (a b : Session) : ConcurrentSession :=
  {| VM := VM_Identifier a;
     User1 := s_User a;
     User2 := s_User b;
     Overlap_Start := Z.max (Session_Start a) (Session_Start b);
     Overlap_End := Z.min (Session_End a) (Session_End b) |}.

(** The events of one [(user, device)] group. *)
Definition device_group (df : SignInTable) (device_col user device : string)
  : list SignIn :=
  filter (fun e => attrs e !! device_col = Some device)
         (filter (fun e => User e = user) (events df)).

(** What the builder promises about a session: with a device column, its
    window runs from the first event of its group to the last one plus 30
    minutes; without one, it is the 30 minutes after a single event. *)
Definition session_estimate (df : SignInTable) (s : Session) : Prop :=
  match device_column (columns df) with
  | Some device_col =>
      let dates := map Date (device_group df device_col (s_User s) (VM_Identifier s)) in
      exists latest,
        is_maximum latest dates /\
        Session_End s = latest + minutes 30 /\
        Session_Start s ∈ dates /\ (forall d, d ∈ dates -> Session_Start s <= d)
  | None =>
      exists event,
        event ∈ events df /\ User event = s_User s /\
        Session_Start s = Date event /\
        Session_End s = Date event + minutes 30
  end.

End AzureVocabulary.

(** ** AWS: identity resolution and exfiltration *)

Section AWSVocabulary.
Import AWSCorrelator.

(** The identity map [generate_user_vm_mapping] resolves users with. *)
Definition resolved_users (self : t) (e : list LoginEvent) : gmap string string :=
  match query_logs_df self with
  | Some q => build_workspace_user_map e q
  | None => ∅
  end.

(** The substring test of method 1. *)
Definition linked (instance_id ws_id : string) : bool :=
  contains instance_id ws_id || contains ws_id instance_id.

(** No instance identifier of a query of one of the [user_labels] is linked
    to a workspace. *)
Definition no_linkage (q : list QueryLog) (user_labels workspace_ids : list string)
  : Prop :=
  forall r iid, r ∈ q -> q_user_label r ∈ user_labels ->
                instance_id r = Some iid ->
                List.find (linked iid) workspace_ids = None.

(** The bytes of all flows of a user to port 443, in the whole flow table;
    nothing when the table was not loaded. *)
Definition https_total (vpc : option (list Flow)) (user_label : string) : Z :=
  match vpc with
  | Some v => sum_bytes (port_traffic 443 (user_flows user_label v))
  | None => 0
  end.

(** The query rows of a user that match a cloud-storage domain. *)
Definition matching_queries (q : list QueryLog) (user_label domain : string)
  : list QueryLog :=
  filter (fun r => str_contains domain (query_name r))
         (filter (fun r => q_user_label r = user_label) q).

(** The flow [f] moved to the instant [t]. *)
Definition at_time (f : Flow) (t : Z) : Flow :=
  {| v_user_label := v_user_label f; srcaddr := srcaddr f; dstport := dstport f;
     bytes := bytes f; timestamp := t |}.

(** The flows of a user to port 443 that lie within [w] nanoseconds of the
    instant [t]. *)
Definition flows_within (w : Z) (v : list Flow) (user_label : string) (t : Z)
  : list Flow :=
  filter (fun f => t - w <= timestamp f <= t + w)
         (port_traffic 443 (user_flows user_label v)).

End AWSVocabulary.

(** ** Deduplication *)

Section DeduplicatorVocabulary.
Import Deduplicator.

(** A table with the same row twice. *)
Definition twice : DataFrame :=
  {| columns := ["Request ID"; "User"];
     rows := [ {| label := 0; cells := [CStr "r-1"; CStr "alice"] |};
               {| label := 1; cells := [CStr "r-1"; CStr "alice"] |};
               {| label := 2; cells := [CStr "r-2"; CStr "alice"] |} ] |}.

End DeduplicatorVocabulary.

(** The key [remove_duplicates] compares the rows of [df] by: the values at
    the columns of [subset], or the whole row without a subset. *)
Definition duplicate_key (df : Deduplicator.DataFrame)
    (subset : option (list string)) : Deduplicator.Row -> list cell :=
  match subset with
  | Some (c :: cs) =>
      Deduplicator.subset_key
        (omap (Deduplicator.column_position (Deduplicator.columns df)) (c :: cs))
  | _ => Deduplicator.cells
  end.

(** The columns a call of [remove_duplicates] looks up. *)
Definition key_columns (subset : option (list string)) : list string :=
  default [] subset.

(** A table with a repeated request identifier, for [keep]. *)
Definition repeated_request : Deduplicator.DataFrame :=
  {| Deduplicator.columns := ["Request ID"; "User"];
     Deduplicator.rows :=
       [ {| Deduplicator.label := 0; Deduplicator.cells := [CStr "r-1"; CStr "alice"] |};
         {| Deduplicator.label := 1; Deduplicator.cells := [CStr "r-2"; CStr "bob"] |};
         {| Deduplicator.label := 2; Deduplicator.cells := [CStr "r-1"; CStr "carol"] |} ] |}.

(** ** An implementation of the numeric reductions *)

(** Two-pass mean and sample standard deviation with left-to-right sums,
    as [pandas.core.nanops] computes them on short columns. *)
Definition float_sum (l : list float) : float := foldl PrimFloat.add 0%float l.

Definition two_pass_mean (l : list float) : float :=
  (float_sum l / float_of_Z (Z.of_nat (length l)))%float.

Definition two_pass_std (l : list float) : float :=
  if decide (length l <= 1)%nat then nan
  else
    let avg := two_pass_mean l in
    sqrt (float_sum (map (fun x => ((avg - x) * (avg - x))%float) l)
          / float_of_Z (Z.of_nat (length l) - 1))%float.

(** [int(x)] on a float. *)
Definition float_trunc (x : float) : Z :=
  match Prim2SF x with
  | S754_finite s m e =>
      let v := if (0 <=? e)%Z then Zpos m * 2 ^ e else Zpos m / 2 ^ (- e) in
      if s then - v else v
  | _ => 0
  end.

(** Rounding to two decimals through the scaled value. *)
Definition scaled_round2 (x : float) : float :=
  (((x * 100 + 4503599627370496) - 4503599627370496) / 100)%float.

(** [f'{total/1024/1024:.2f}'] through integer arithmetic. *)
Definition megabytes_2f (total : Z) : string :=
  let hundredths := (total * 100 + 524288) / 1048576 in
  pretty (hundredths / 100) +:+ "." +:+
  pretty (hundredths `mod` 100 / 10) +:+ pretty (hundredths `mod` 10).

(** ** The end-to-end scenarios *)

Module Scenario.

(** AWS: one login event for [ws-1], one query of [USER_A] for
    [drive.google.com] at the same instant, one flow of [USER_A] to port
    443 with 500000 bytes. *)
Definition aws_login : AWSCorrelator.LoginEvent :=
  {| AWSCorrelator.time := new_year_2025;
     AWSCorrelator.workspaceId := "ws-1";
     AWSCorrelator.clientIpAddress := Some "203.0.113.7";
     AWSCorrelator.actionType := Some "successfulLogin";
     AWSCorrelator.loginTime := None;
     AWSCorrelator.clientPlatform := Some "Windows";
     AWSCorrelator.workspacesClientProductName := None |}.

Definition aws_query : AWSCorrelator.QueryLog :=
  {| AWSCorrelator.q_user_label := "USER_A";
     AWSCorrelator.query_name := Some "drive.google.com";
     AWSCorrelator.query_timestamp := new_year_2025;
     AWSCorrelator.instance_id := None |}.

Definition aws_flow : AWSCorrelator.Flow :=
  {| AWSCorrelator.v_user_label := "USER_A";
     AWSCorrelator.srcaddr := "10.0.0.5";
     AWSCorrelator.dstport := CInt 443;
     AWSCorrelator.bytes := Some 500000;
     AWSCorrelator.timestamp := new_year_2025 |}.

Definition aws : AWSCorrelator.t :=
  {| AWSCorrelator.eventbridge_df := Some [aws_login];
     AWSCorrelator.query_logs_df := Some [aws_query];
     AWSCorrelator.vpc_logs_df := Some [aws_flow];
     AWSCorrelator.user_vm_mapping := None;
     AWSCorrelator.activity_timeline := None;
     AWSCorrelator.workspace_user_mapping := ∅ |}.

Definition aws_session : AWSCorrelator.Session :=
  {| AWSCorrelator.User := "USER_A";
     AWSCorrelator.Username := "USER_A";
     AWSCorrelator.Display_Name := "USER_A";
     AWSCorrelator.Workspace_ID := "ws-1";
     AWSCorrelator.Client_IP := "203.0.113.7";
     AWSCorrelator.Action := "successfulLogin";
     AWSCorrelator.Login_Time := inr new_year_2025;
     AWSCorrelator.Platform := "Windows";
     AWSCorrelator.Product := "N/A";
     AWSCorrelator.Session_Start := new_year_2025;
     AWSCorrelator.Session_End := new_year_2025 + hours 1 |}.

(** Azure: three sign-ins of [user@corp.com] on [dev-1] at 09:00, 09:10 and
    09:20. *)
Definition signin (minute : Z) (request : string) : AzureCorrelator.SignIn :=
  {| AzureCorrelator.Date := new_year_2025 + hours 9 + minutes minute;
     AzureCorrelator.User := "user@corp.com";
     AzureCorrelator.attrs :=
       {[ "Device ID" := "dev-1"; "IP address" := "198.51.100.4";
          "Application" := "Windows Sign In"; "Request ID" := request ]} |}.

Definition azure_df : AzureCorrelator.SignInTable :=
  {| AzureCorrelator.columns :=
       ["Date"; "User"; "Device ID"; "IP address"; "Application"; "Request ID"];
     AzureCorrelator.events := [signin 0 "r-1"; signin 10 "r-2"; signin 20 "r-3"] |}.

Definition azure : AzureCorrelator.t :=
  {| AzureCorrelator.interactive_signin_df := None;
     AzureCorrelator.noninteractive_signin_df := Some azure_df;
     AzureCorrelator.user_vm_mapping := None;
     AzureCorrelator.activity_timeline := None;
     AzureCorrelator.vm_name_mapping := ∅ |}.

Definition azure_session : AzureCorrelator.Session :=
  {| AzureCorrelator.s_User := "user@corp.com";
     AzureCorrelator.VM_Identifier := "dev-1";
     AzureCorrelator.VM_Name := "VM-1";
     AzureCorrelator.Session_Start := new_year_2025 + hours 9;
     AzureCorrelator.Session_End := new_year_2025 + hours 9 + minutes 50;
     AzureCorrelator.IP_Address := Some "198.51.100.4";
     AzureCorrelator.Application := Some "Windows Sign In";
     AzureCorrelator.Event_Count := Some 3%nat;
     AzureCorrelator.Request_IDs := Some "r-1, r-2, r-3";
     AzureCorrelator.Request_ID := None |}.

End Scenario.

(** ** Example tables *)

Section AzureExamples.
Import AzureCorrelator.

(** The mapping of the scenario: two users whose windows overlap on one VM. *)
Definition alice_session : Session :=
  {| s_User := "alice@corp.com"; VM_Identifier := "dev-1"; VM_Name := "VM-1";
     Session_Start := 0; Session_End := minutes 50;
     IP_Address := Some "10.0.0.1"; Application := Some "Windows Sign In";
     Event_Count := Some 3%nat; Request_IDs := Some "r-1, r-2, r-3";
     Request_ID := None |}.

Definition bob_session : Session :=
  {| s_User := "bob@corp.com"; VM_Identifier := "dev-1"; VM_Name := "VM-1";
     Session_Start := minutes 20; Session_End := minutes 70;
     IP_Address := Some "10.0.0.2"; Application := Some "Windows Sign In";
     Event_Count := Some 2%nat; Request_IDs := Some "r-4, r-5";
     Request_ID := None |}.

Definition shared_vm : list Session := [alice_session; bob_session].

(** A third user joins: the window of alice overlaps those of bob and of
    carol, in this order of the table. *)
Definition carol_session : Session :=
  {| s_User := "carol@corp.com"; VM_Identifier := "dev-1"; VM_Name := "VM-1";
     Session_Start := minutes 40; Session_End := minutes 90;
     IP_Address := Some "10.0.0.3"; Application := Some "Windows Sign In";
     Event_Count := Some 1%nat; Request_IDs := Some "r-6";
     Request_ID := None |}.

Definition crowded_vm : list Session :=
  [alice_session; bob_session; carol_session].

End AzureExamples.

Section AWSExamples.
Import AWSCorrelator.

(** Two users and two workspaces, the rows of either table in two orders. *)
Definition login_at (ws_id : string) (t : Z) : LoginEvent :=
  {| time := t; workspaceId := ws_id; clientIpAddress := None;
     actionType := Some "successfulLogin"; loginTime := None;
     clientPlatform := None; workspacesClientProductName := None |}.

Definition query_by (user_label name : string) (t : Z) : QueryLog :=
  {| q_user_label := user_label; query_name := Some name;
     query_timestamp := t; instance_id := None |}.

Definition two_logins : list LoginEvent :=
  [login_at "ws-b" new_year_2025; login_at "ws-a" (new_year_2025 + minutes 5);
   login_at "ws-b" (new_year_2025 + minutes 9)].

Definition two_users : list QueryLog :=
  [query_by "USER_B" "example.org" new_year_2025;
   query_by "USER_A" "example.com" (new_year_2025 + minutes 1)].

(** The scenario with its flow thirty days after the query. *)
Definition late_flow_run : t :=
  {| eventbridge_df := Some [Scenario.aws_login];
     query_logs_df := Some [Scenario.aws_query];
     vpc_logs_df := Some [at_time Scenario.aws_flow (new_year_2025 + hours 720)];
     user_vm_mapping := None;
     activity_timeline := None;
     workspace_user_mapping := ∅ |}.

End AWSExamples.

(** Four queries whose three intervals (90.01000018 s, 109.99000018 s and
    99.99999964 s) have, in [binary64] arithmetic, mean 100.0 and sample
    standard deviation 9.99. *)
Definition paced_queries : list AWSCorrelator.QueryLog :=
  map (query_by "USER_A" "tracker.example.net")
      [new_year_2025; new_year_2025 + 90010000180;
       new_year_2025 + 200000000360; new_year_2025 + 300000000000].

(** Four queries 90 s, 100 s and 110 s apart: mean 100.0, deviation 10.0. *)
Definition loose_queries : list AWSCorrelator.QueryLog :=
  map (query_by "USER_A" "tracker.example.net")
      [new_year_2025; new_year_2025 + 90 * nanos_per_second;
       new_year_2025 + 190 * nanos_per_second;
       new_year_2025 + 300 * nanos_per_second].

(** Two queries 100.01 s apart. *)
Definition slow_queries : list AWSCorrelator.QueryLog :=
  map (query_by "USER_A" "tracker.example.net")
      [new_year_2025; new_year_2025 + 100010000000].

(** Three queries, each 100.01 s after the one before: the two intervals
    have mean 100.01 and deviation 0. *)
Definition late_queries : list AWSCorrelator.QueryLog :=
  map (query_by "USER_A" "tracker.example.net")
      [new_year_2025; new_year_2025 + 100010000000;
       new_year_2025 + 200020000000].

(** A correlator whose query log holds the queries [group] among those of
    another user and those for another domain. *)
Definition watched (group : list AWSCorrelator.QueryLog) : AWSCorrelator.t :=
  {| AWSCorrelator.eventbridge_df := None;
     AWSCorrelator.query_logs_df :=
       Some (query_by "USER_B" "tracker.example.net" new_year_2025
             :: group
             ++ [query_by "USER_A" "cdn.example.org" (new_year_2025 + minutes 1)]);
     AWSCorrelator.vpc_logs_df := None;
     AWSCorrelator.user_vm_mapping := None;
     AWSCorrelator.activity_timeline := None;
     AWSCorrelator.workspace_user_mapping := ∅ |}.

(** A string of white space only. *)
Fixpoint blank (s : string) : bool :=
  match s with
  | EmptyString => true
  | String c s' => is_space c && blank s'
  end.

(** The column [user_col] of [df] holds a string: it is a column of dtype
    [object], on which [Series.str] is defined. *)
Definition string_column (df : Deduplicator.DataFrame) (user_col : string) : Prop :=
  exists i r s,
    Deduplicator.column_position (Deduplicator.columns df) user_col = Some i /\
    r ∈ Deduplicator.rows df /\ Deduplicator.cells r !! i = Some (CStr s).

(** The value of row [k] of [df] in the column [col]. *)
Definition cell_at (df : Deduplicator.DataFrame) (col : string) (k : nat)
  : option cell :=
  i ← Deduplicator.column_position (Deduplicator.columns df) col;
  r ← Deduplicator.rows df !! k;
  Deduplicator.cells r !! i.

(** Two spellings of one account. *)
Definition spellings : Deduplicator.DataFrame :=
  {| Deduplicator.columns := ["User"; "Request ID"];
     Deduplicator.rows :=
       [ {| Deduplicator.label := 0;
            Deduplicator.cells := [CStr "  Alice@Corp.com "; CStr "r-1"] |};
         {| Deduplicator.label := 1;
            Deduplicator.cells := [CStr "alice@corp.COM"; CStr "r-2"] |} ] |}.

(** ** Timestamp validation *)

(** The instants [ts1] and [ts2] are within the tolerance of each other. *)
Definition within_tolerance `{PandasStats} (tolerance_seconds : Z) (ts1 ts2 : Z)
  : bool :=
  (abs (total_seconds (ts1 - ts2)) <=? float_of_Z tolerance_seconds)%float.

(** The entry [detect_inconsistencies] makes for position [i]. *)
Definition unmatched (i : nat) (ts : Z) : TimestampValidator.Inconsistency :=
  {| TimestampValidator.index := i;
     TimestampValidator.timestamp := ts;
     TimestampValidator.status := "No matching timestamp found within tolerance" |}.

(** The instant of row [r] at position [i]: [None] for [NaT] and for a
    value that is no instant. *)
Definition instant_in (i : nat) (r : Deduplicator.Row) : option Z :=
  match Deduplicator.cells r !! i with
  | Some (CInt t) => Some t
  | _ => None
  end.

(** The instant of row [r] in the column [col] of [df]; [None] also for a
    column the table lacks. *)
Definition instant_at (df : Deduplicator.DataFrame) (col : string)
    (r : Deduplicator.Row) : option Z :=
  i ← Deduplicator.column_position (Deduplicator.columns df) col;
  instant_in i r.

(** Row [r] holds a string at position [i]. *)
Definition string_in (i : nat) (r : Deduplicator.Row) : bool :=
  match Deduplicator.cells r !! i with
  | Some (CStr _) => true
  | _ => false
  end.

(** The window test of [validate_temporal_boundaries]: without bounds
    every row passes; with a bound a row passes when it has an instant and
    the instant is within the bounds given, the bounds included. *)
Definition in_window (start_time end_time : option Z) (t : option Z) : bool :=
  match start_time, end_time with
  | None, None => true
  | _, _ =>
      match t with
      | Some n =>
          from_option (fun s => bool_decide (s <= n)) true start_time &&
          from_option (fun e => bool_decide (n <= e)) true end_time
      | None => false
      end
  end.

(** The later of two optional lower bounds, the earlier of two optional
    upper bounds. *)
Definition later (a b : option Z) : option Z :=
  match a, b with
  | Some x, Some y => Some (Z.max x y)
  | Some x, None => Some x
  | None, _ => b
  end.

Definition earlier (a b : option Z) : option Z :=
  match a, b with
  | Some x, Some y => Some (Z.min x y)
  | Some x, None => Some x
  | None, _ => b
  end.

(** A table of three events, one of them without an instant. *)
Definition three_events : Deduplicator.DataFrame :=
  {| Deduplicator.columns := ["Date"; "User"];
     Deduplicator.rows :=
       [ {| Deduplicator.label := 0;
            Deduplicator.cells := [CInt new_year_2025; CStr "alice"] |};
         {| Deduplicator.label := 1;
            Deduplicator.cells := [CNaN; CStr "bob"] |};
         {| Deduplicator.label := 2;
            Deduplicator.cells := [CInt (new_year_2025 + hours 2); CStr "carol"] |} ] |}.

(** ** AWS: sessions, names and the workspace mapping file *)

Section AWSMappingVocabulary.
Import AWSCorrelator.

(** What identifies a login event and the session made of it. *)
Definition login_key (event : LoginEvent) : string * Z :=
  (workspaceId event, time event).

Definition session_key (s : Session) : string * Z :=
  (Workspace_ID s, Session_Start s).

(** The name a session carries for a field of the mapping file: the value
    of the file when the workspace has an entry with a non-empty value,
    the user label otherwise. *)
Definition enriched (self : t) (field : MappingInfo -> string) (s : Session)
  : string :=
  match workspace_user_mapping self !! Workspace_ID s with
  | Some info => if decide (field info = "") then User s else field info
  | None => User s
  end.

(** The value [load_workspace_user_mapping] stores for an entry. *)
Definition info_of_entry (entry : MappingEntry) : MappingInfo :=
  {| username := default "" (e_username entry);
     display_name := default "" (e_display_name entry);
     info_user_label := default "" (e_user_label entry) |}.

(** The entries of the file for the workspace [ws_id], in file order. *)
Definition entries_for (ws_id : string) (entries : list MappingEntry)
  : list MappingEntry :=
  filter (fun entry => e_workspace_id entry = Some ws_id) entries.

(** A mapping file that names [ws-1] twice and holds an entry without a
    workspace identifier. *)
Definition mapping_entries : list MappingEntry :=
  [ {| e_workspace_id := Some "ws-1"; e_username := Some "old.name";
       e_display_name := None; e_user_label := Some "USER_A" |};
    {| e_workspace_id := None; e_username := Some "nobody";
       e_display_name := None; e_user_label := None |};
    {| e_workspace_id := Some "ws-1"; e_username := Some "alice";
       e_display_name := Some ""; e_user_label := Some "USER_A" |} ].

Definition mapping_fs (path : string) : MappingFile :=
  if decide (path = "workspace_user_mapping.json") then Parsed (Some mapping_entries)
  else Unreadable.

End AWSMappingVocabulary.

(** ** AWS: the detectors *)

(** [x] is the least value of the column [l]. *)
Definition is_minimum (x : Z) (l : list Z) : Prop :=
  x ∈ l /\ forall y, y ∈ l -> x <= y.

Section AWSDetectorVocabulary.
Import AWSCorrelator.

(** The flows to the RDP port. *)
Definition rdp_flows (v : list Flow) : list Flow := port_traffic 3389 v.

(** The queries of [user_label] for the name [name]. *)
Definition queries_for (q : list QueryLog) (user_label name : string)
  : list QueryLog :=
  filter (fun r => query_name r = Some name)
         (filter (fun r => q_user_label r = user_label) q).

(** The login events and the activities a correlator holds. *)
Definition login_events (self : t) : list LoginEvent :=
  default [] (eventbridge_df self).

Definition activities (self : t) : list Activity :=
  default [] (activity_timeline self).

(** One query for a Dropbox host, with enough traffic to port 443. *)
Definition dropbox_run : t :=
  {| eventbridge_df := None;
     query_logs_df := Some [ {| q_user_label := "USER_A";
                                query_name := Some "www.dropbox.com";
                                query_timestamp := new_year_2025;
                                instance_id := None |} ];
     vpc_logs_df := Some [Scenario.aws_flow];
     user_vm_mapping := None;
     activity_timeline := None;
     workspace_user_mapping := ∅ |}.

(** One query for a c2-server name, and one for such a name under an
    allow-listed domain. *)
Definition c2_run : t :=
  {| eventbridge_df := None;
     query_logs_df := Some [ {| q_user_label := "USER_A";
                                query_name := Some "C2-Server-7.example.com";
                                query_timestamp := new_year_2025;
                                instance_id := None |};
                             {| q_user_label := "USER_A";
                                query_name := Some "c2-server.amazonaws.com";
                                query_timestamp := new_year_2025 + minutes 1;
                                instance_id := None |} ];
     vpc_logs_df := None;
     user_vm_mapping := None;
     activity_timeline := None;
     workspace_user_mapping := ∅ |}.

(** Two flows of one user to port 3389. *)
Definition rdp_run : t :=
  {| eventbridge_df := None;
     query_logs_df := None;
     vpc_logs_df := Some [ {| v_user_label := "USER_A"; srcaddr := "10.0.0.5";
                              dstport := CInt 3389; bytes := Some 60;
                              timestamp := new_year_2025 + minutes 2 |};
                           {| v_user_label := "USER_A"; srcaddr := "10.0.0.5";
                              dstport := CStr "3389"; bytes := None;
                              timestamp := new_year_2025 |} ];
     user_vm_mapping := None;
     activity_timeline := None;
     workspace_user_mapping := ∅ |}.

End AWSDetectorVocabulary.

(** ** Azure: VM names and the coverage of the sign-ins *)

(** The character [c] occurs in [s]. *)
Fixpoint occurs (c : Ascii.ascii) (s : string) : bool :=
  match s with
  | EmptyString => false
  | String a s' => bool_decide (a = c) || occurs c s'
  end.

Section AzureCoverageVocabulary.
Import AzureCorrelator.

(** The sign-in [event] has a value in the device column of the table; a
    table without a device column takes every sign-in. *)
Definition has_device (df : SignInTable) (event : SignIn) : Prop :=
  match device_column (columns df) with
  | Some device_col => is_Some (attrs event !! device_col)
  | None => True
  end.

Global Instance has_device_dec df event : Decision (has_device df event).
Proof. unfold has_device. destruct (device_column (columns df)); apply _. Defined.

(** The number of sign-ins a session stands for: its [Event Count], or one
    for a session of the fallback path. *)
Definition events_of (s : Session) : nat := default 1%nat (Event_Count s).

Definition events_covered (sessions : list Session) : nat :=
  sum_list (map events_of sessions).

(** Three sign-ins of one user: two on [dev-1], one without a device. *)
Definition partly_known : SignInTable :=
  {| columns := ["Date"; "User"; "Device ID"];
     events := [ {| Date := new_year_2025; User := "alice@corp.com";
                    attrs := {[ "Device ID" := "dev-1" ]} |};
                 {| Date := new_year_2025 + minutes 5; User := "alice@corp.com";
                    attrs := ∅ |};
                 {| Date := new_year_2025 + minutes 9; User := "alice@corp.com";
                    attrs := {[ "Device ID" := "dev-1" ]} |} ] |}.

Definition partly_known_run : t :=
  {| interactive_signin_df := None;
     noninteractive_signin_df := Some partly_known;
     user_vm_mapping := None;
     activity_timeline := None;
     vm_name_mapping := ∅ |}.

End AzureCoverageVocabulary.

(** ** Azure: the detectors and the fragmentation report *)

Section AzureDetectorVocabulary.
Import AzureCorrelator.

(** The sessions of [user] in the mapping [m]. *)
Definition sessions_of (m : list Session) (user : string) : list Session :=
  filter (fun s => s_User s = user) m.

(** The distinct VMs and the distinct IP addresses of a user; a missing
    address is a value of its own. *)
Definition vms_of (m : list Session) (user : string) : list string :=
  unique (map VM_Identifier (sessions_of m user)).

Definition ips_of (m : list Session) (user : string) : list (option string) :=
  unique (map IP_Address (sessions_of m user)).

(** The sign-ins of the interactive table whose status tells a failure. *)
Definition failed_signins (df : SignInTable) : list SignIn :=
  filter (fun e => is_failure (attrs e !! "Status")) (events df).

(** The non-interactive sign-ins a correlator holds. *)
Definition signin_events (self : t) : list SignIn :=
  match noninteractive_signin_df self with
  | Some df => events df
  | None => []
  end.

(** A session of [user] on [vm] from the address [ip]. *)
Definition session_on (user vm ip : string) (start : Z) : Session :=
  {| s_User := user; VM_Identifier := vm; VM_Name := "VM-" +:+ vm;
     Session_Start := start; Session_End := start + minutes 30;
     IP_Address := Some ip; Application := None;
     Event_Count := Some 1%nat; Request_IDs := None; Request_ID := None |}.

(** A mapping in which [alice] uses two VMs from two addresses and [bob]
    one VM from one address. *)
Definition roaming : t :=
  {| interactive_signin_df := None;
     noninteractive_signin_df := None;
     user_vm_mapping :=
       Some [ session_on "alice" "dev-1" "198.51.100.1" new_year_2025;
              session_on "bob" "dev-1" "198.51.100.7" (new_year_2025 + minutes 5);
              session_on "alice" "dev-2" "198.51.100.2" (new_year_2025 + minutes 40) ];
     activity_timeline := None;
     vm_name_mapping := ∅ |}.

(** An interactive table with two failed sign-ins of one user. *)
Definition failures : t :=
  {| interactive_signin_df :=
       Some {| columns := ["Date"; "User"; "Status"];
               events := [ {| Date := new_year_2025; User := "alice";
                              attrs := {[ "Status" := "Failure" ]} |};
                           {| Date := new_year_2025 + minutes 1; User := "alice";
                              attrs := {[ "Status" := "Success" ]} |};
                           {| Date := new_year_2025 + minutes 2; User := "alice";
                              attrs := {[ "Status" := "FAILED" ]} |} ] |};
     noninteractive_signin_df := None;
     user_vm_mapping := None;
     activity_timeline := None;
     vm_name_mapping := ∅ |}.

End AzureDetectorVocabulary.

(** The name the cache [cache] gives the VM of the session [s]: ['Unknown']
    for the two identifiers that are not cached, the entry of the cache
    for any other. *)
Definition named_by (cache : gmap string string) (s : AzureCorrelator.Session)
  : Prop :=
  if decide (AzureCorrelator.VM_Identifier s = ""
             \/ AzureCorrelator.VM_Identifier s = "Unknown")
  then AzureCorrelator.VM_Name s = "Unknown"
  else cache !! AzureCorrelator.VM_Identifier s = Some (AzureCorrelator.VM_Name s).

(** The invariant of the loops of the Azure builder, from the cache
    [cache0] they start with: the cache only grows, and it names the VM of
    every session made so far. *)
Definition names_kept (cache0 : gmap string string) (acc : AzureCorrelator.Acc)
  : Prop :=
  (forall k v, cache0 !! k = Some v -> acc.1 !! k = Some v)
  /\ forall s, s ∈ acc.2 -> named_by acc.1 s.

(** * Properties *)

(** ** The error monad *)

Lemma mapM_result_Ok_Forall2 {A B} (f : A -> result B) l ys :
  mapM_result f l = Ok ys -> Forall2 (fun x y => f x = Ok y) l ys.
Proof.
  revert ys. induction l as [|x l IH]; intros ys Hm; simpl in Hm.
  - injection Hm as <-. constructor.
  - destruct (f x) as [y|e] eqn:Hfx; simpl in Hm; [|discriminate].
    destruct (mapM_result f l) as [ys'|e] eqn:Hl; simpl in Hm; [|discriminate].
    injection Hm as <-. constructor; [assumption|]. by apply IH.
Qed.

Lemma mapM_result_total {A B} (f : A -> result B) l :
  Forall (fun x => exists y, f x = Ok y) l -> exists ys, mapM_result f l = Ok ys.
Proof.
  induction 1 as [|x l [y Hy] _ [ys Hys]]; simpl.
  - by eexists.
  - rewrite Hy. simpl. rewrite Hys. simpl. by eexists.
Qed.

Lemma foldlM_invariant {A S} (f : S -> A -> result S) (I : S -> Prop) l :
  (forall s x s', x ∈ l -> I s -> f s x = Ok s' -> I s') ->
  forall s s', I s -> foldlM f s l = Ok s' -> I s'.
Proof.
  induction l as [|x l IH]; intros Hstep s s' Hs Hfold; simpl in Hfold.
  - by injection Hfold as <-.
  - destruct (f s x) as [s1|e] eqn:Hfx; simpl in Hfold; [|discriminate].
    eapply IH; [| |exact Hfold].
    + intros s2 y s3 Hy. apply Hstep. by right.
    + eapply Hstep; [by left|exact Hs|exact Hfx].
Qed.

Lemma foldlM_total {A S} (f : S -> A -> result S) l :
  (forall s x, x ∈ l -> exists s', f s x = Ok s') ->
  forall s, exists s', foldlM f s l = Ok s'.
Proof.
  induction l as [|x l IH]; intros Hstep s; simpl; [by eexists|].
  destruct (Hstep s x) as [s1 ->]; [by left|]. simpl.
  apply IH. intros s2 y Hy. apply Hstep. by right.
Qed.

(** ** Sorting *)

Section SortFacts.
Context {A : Type} (key : A -> Z).

Let by_key : relation A := fun x y => key x <= key y.

Lemma insert_by_Permutation b x l : insert_by b key x l ≡ₚ x :: l.
Proof.
  induction l as [|y l IH]; simpl; [done|].
  destruct (if b then _ else _); [done|].
  rewrite IH. apply Permutation_swap.
Qed.

Lemma insert_by_HdRel b a x l :
  by_key a x -> HdRel by_key a l -> HdRel by_key a (insert_by b key x l).
Proof.
  intros Hax Hl. destruct l as [|y l]; simpl; [by constructor|].
  destruct (if b then _ else _); constructor; [done|]. by inversion Hl.
Qed.

Lemma insert_by_Sorted b x l :
  Sorted by_key l -> Sorted by_key (insert_by b key x l).
Proof.
  induction 1 as [|y l Hl IH Hhd]; simpl; [by repeat constructor|].
  destruct (if b then _ else _) eqn:Hc.
  - constructor; [by constructor|]. constructor. unfold by_key.
    destruct b; case_bool_decide; try done; lia.
  - constructor; [done|]. apply insert_by_HdRel; [|done]. unfold by_key.
    destruct b; case_bool_decide; try done; lia.
Qed.

Lemma foldr_insert_Permutation b l : foldr (insert_by b key) [] l ≡ₚ l.
Proof.
  induction l as [|x l IH]; simpl; [done|].
  by rewrite insert_by_Permutation, IH.
Qed.

Lemma foldr_insert_Sorted b l : Sorted by_key (foldr (insert_by b key) [] l).
Proof.
  induction l as [|x l IH]; simpl; [constructor|]. by apply insert_by_Sorted.
Qed.

(** Two orderings of the same rows agree when no two rows share a key. *)
Lemma Sorted_by_key_unique l1 l2 :
  NoDup (map key l1) -> l1 ≡ₚ l2 ->
  Sorted by_key l1 -> Sorted by_key l2 -> l1 = l2.
Proof.
  intros Hnd Hperm Hs1 Hs2.
  assert (Htrans : Transitive by_key) by (intros x y z; unfold by_key; lia).
  apply (StronglySorted_unique_strong by_key); [|by apply Sorted_StronglySorted..|done].
  intros x1 x2 Hx1 Hx2 H12 H21.
  assert (Hk : key x1 = key x2) by (unfold by_key in *; lia).
  rewrite <- Hperm in Hx2.
  clear -Hnd Hx1 Hx2 Hk. induction l1 as [|y l IH]; [by apply elem_of_nil in Hx1|].
  simpl in Hnd. apply NoDup_cons in Hnd as [Hy Hnd].
  apply elem_of_cons in Hx1 as [->|Hx1], Hx2 as [->|Hx2]; try done.
  - exfalso. apply Hy. rewrite Hk. by apply list_elem_of_fmap_2.
  - exfalso. apply Hy. rewrite <- Hk. by apply list_elem_of_fmap_2.
  - by apply IH.
Qed.

End SortFacts.

(** The stable sort is an implementation of [sort_values]. *)
Definition stable_PandasSort : PandasSort :=
  {| sort_values := fun A key l => stable_sort key l;
     sort_values_Permutation := fun A key l => foldr_insert_Permutation key true l;
     sort_values_Sorted := fun A key l => foldr_insert_Sorted key true l |}.

(** Whatever the implementation, rows with pairwise distinct keys come out
    in the order of the stable sort. *)
Lemma sort_values_distinct_keys `{PandasSort} {A} (key : A -> Z) (l : list A) :
  NoDup (map key l) -> sort_values key l = stable_sort key l.
Proof.
  intros Hnd. apply (Sorted_by_key_unique key).
  - pose proof (sort_values_Permutation key l) as Hp.
    by rewrite (fmap_Permutation key _ _ Hp).
  - rewrite sort_values_Permutation. symmetry. apply foldr_insert_Permutation.
  - apply sort_values_Sorted.
  - apply foldr_insert_Sorted.
Qed.

(** ** Deduplication *)

Section DropDuplicates.
Context {A K : Type} `{EqDecision K} (key : A -> K).

Lemma drop_first_elem_of seen l x :
  x ∈ drop_first key seen l -> x ∈ l /\ key x ∉ seen.
Proof.
  revert seen. induction l as [|y l IH]; intros seen Hx; simpl in Hx.
  - by apply elem_of_nil in Hx.
  - destruct (decide (key y ∈ seen)) as [Hin|Hout].
    + apply IH in Hx as [? ?]. split; [by right|done].
    + apply elem_of_cons in Hx as [->|Hx]; [split; [by left|done]|].
      apply IH in Hx as [? Hns]. split; [by right|].
      intros Hs. apply Hns. by right.
Qed.

Lemma drop_first_complete seen l x :
  x ∈ l -> key x ∉ seen -> exists y, y ∈ drop_first key seen l /\ key y = key x.
Proof.
  revert seen. induction l as [|z l IH]; intros seen Hx Hns.
  - by apply elem_of_nil in Hx.
  - simpl. destruct (decide (key z ∈ seen)) as [Hin|Hout].
    + apply elem_of_cons in Hx as [->|Hx]; [done|]. by apply IH.
    + destruct (decide (key z = key x)) as [Heq|Hne].
      * exists z. split; [by left|done].
      * apply elem_of_cons in Hx as [->|Hx]; [done|].
        destruct (IH (key z :: seen) Hx) as (y & Hy & Hk).
        { intros [Heq|?]%elem_of_cons; [congruence|done]. }
        exists y. split; [by right|done].
Qed.

Lemma drop_first_NoDup seen l : NoDup (map key (drop_first key seen l)).
Proof.
  revert seen. induction l as [|y l IH]; intros seen; simpl; [constructor|].
  destruct (decide (key y ∈ seen)); [apply IH|].
  simpl. apply NoDup_cons. split; [|apply IH].
  intros (z & Hk & Hz)%list_elem_of_fmap.
  apply drop_first_elem_of in Hz as [_ Hns]. apply Hns. rewrite Hk. by left.
Qed.

Lemma drop_first_fixed seen l :
  NoDup (map key l) -> (forall x, x ∈ l -> key x ∉ seen) ->
  drop_first key seen l = l.
Proof.
  revert seen. induction l as [|y l IH]; intros seen Hnd Hseen; simpl; [done|].
  simpl in Hnd. apply NoDup_cons in Hnd as [Hy Hnd].
  rewrite decide_False by (apply Hseen; by left).
  f_equal. apply IH; [done|].
  intros x Hx [Hk|Hs]%elem_of_cons.
  - apply Hy. rewrite <- Hk. by apply list_elem_of_fmap_2.
  - by apply (Hseen x); [right|].
Qed.

Lemma drop_first_idempotent l :
  drop_first key [] (drop_first key [] l) = drop_first key [] l.
Proof.
  apply drop_first_fixed; [apply drop_first_NoDup|].
  intros x _. apply not_elem_of_nil.
Qed.

Lemma drop_duplicates_idempotent keep l :
  drop_duplicates keep key (drop_duplicates keep key l) = drop_duplicates keep key l.
Proof.
  destruct keep; simpl.
  - apply drop_first_idempotent.
  - by rewrite reverse_involutive, drop_first_idempotent.
  - apply list_filter_filter_r. intros x Hx.
    rewrite list_filter_filter. etrans; [|exact Hx]. f_equal.
    apply list_filter_iff. intros y. split; [by intros [? _]|].
    intros Hk. split; [done|]. etrans; [|exact Hx]. f_equal.
    apply list_filter_iff. intros z. by rewrite Hk.
Qed.

End DropDuplicates.

Section DeduplicatorFacts.
Import Deduplicator.

(** C9.  Deduplication is idempotent: removing the duplicates of a table
    that [remove_duplicates] returned, under the same key columns and the
    same [keep] (['first'] in particular), returns that table again; when
    the first call raises ([KeyError] on an unknown key column) there is
    no table to go on with.  Without key columns (full-row deduplication)
    the call never raises and its result is a fixed point. *)
Theorem remove_duplicates_idempotent (df : DataFrame)
    (subset : option (list string)) (keep : Keep) :
  (df' ← remove_duplicates df subset keep; remove_duplicates df' subset keep)
    = remove_duplicates df subset keep
  /\ (exists df', remove_duplicates df None keep = Ok df' /\
                  remove_duplicates df' None keep = Ok df')
  /\ (exists df', remove_duplicates df None KeepFirst = Ok df' /\
                  NoDup (map cells (rows df'))).
Proof.
  split_and!.
  - destruct subset as [[|c cs]|]; unfold remove_duplicates.
    + simpl. by rewrite drop_duplicates_idempotent.
    + destruct (mapM_result (column_lookup (columns df)) (c :: cs))
        as [ixs|e] eqn:Hixs; [|done].
      unfold mbind, result_bind. cbn [columns rows]. rewrite Hixs.
      by rewrite drop_duplicates_idempotent.
    + simpl. by rewrite drop_duplicates_idempotent.
  - eexists. split; [reflexivity|]. simpl. by rewrite drop_duplicates_idempotent.
  - eexists. split; [reflexivity|]. simpl. apply drop_first_NoDup.
Qed.

Example remove_duplicates_twice :
  remove_duplicates twice None KeepFirst
    = Ok {| columns := ["Request ID"; "User"];
            rows := [ {| label := 0; cells := [CStr "r-1"; CStr "alice"] |};
                      {| label := 2; cells := [CStr "r-2"; CStr "alice"] |} ] |}
  /\ remove_duplicates twice (Some ["User"]) KeepLast
    = Ok {| columns := ["Request ID"; "User"];
            rows := [ {| label := 2; cells := [CStr "r-2"; CStr "alice"] |} ] |}
  /\ remove_duplicates twice (Some ["Request ID"]) KeepFalse
    = Ok {| columns := ["Request ID"; "User"];
            rows := [ {| label := 2; cells := [CStr "r-2"; CStr "alice"] |} ] |}
  /\ remove_duplicates twice (Some ["Device"]) KeepFirst = Raise (KeyError "Device").
Proof. repeat split. Qed.

Section MergeFacts.
Variable pd_merge : DataFrame -> DataFrame -> list string -> How -> result DataFrame.

(** With two tables or more the result went through the final full-row
    pass: it holds no row twice. *)
Lemma merge_and_deduplicate_many_NoDup df0 df1 rest merge_on how out :
  merge_and_deduplicate pd_merge (df0 :: df1 :: rest) merge_on how = Ok out ->
  NoDup (map cells (rows out)).
Proof.
  unfold merge_and_deduplicate.
  destruct (merge_all _ _ _ _ _) as [merged|e]; simpl; [|done].
  intros [= <-]. simpl. apply drop_first_NoDup.
Qed.

(** C8.  The claim fails for a list of exactly one table: the function
    returns that table as it is, before the final pass, so both copies of
    a repeated row are in the result. *)
Theorem merge_and_deduplicate_single_table merge_on how :
  merge_and_deduplicate pd_merge [twice] merge_on how = Ok twice
  /\ ~ NoDup (map cells (rows twice)).
Proof.
  split; [reflexivity|].
  intros Hnd. simpl in Hnd. apply NoDup_cons in Hnd as [Hin _].
  apply Hin. by left.
Qed.

End MergeFacts.

Example merge_and_deduplicate_concat :
  merge_and_deduplicate (fun _ _ _ _ => Raise (ValueError "unused"))
                        [twice; twice] None HowOuter
  = Ok {| columns := ["Request ID"; "User"];
          rows := [ {| label := 0; cells := [CStr "r-1"; CStr "alice"] |};
                    {| label := 2; cells := [CStr "r-2"; CStr "alice"] |} ] |}.
Proof. reflexivity. Qed.

End DeduplicatorFacts.

(** ** Grouping *)

Section UniqueFacts.
Context {K : Type} `{EqDecision K}.

Lemma elem_of_unique (l : list K) x : x ∈ unique l <-> x ∈ l.
Proof.
  unfold unique. split.
  - intros Hx. by apply (drop_first_elem_of id) in Hx as [? _].
  - intros Hx. destruct (drop_first_complete id [] l x Hx) as (y & Hy & Heq).
    + apply not_elem_of_nil.
    + unfold id in Heq. by subst.
Qed.

Lemma NoDup_unique (l : list K) : NoDup (unique l).
Proof.
  unfold unique. rewrite <- (list_fmap_id (drop_first id [] l)).
  apply (drop_first_NoDup id).
Qed.

(** Every row falls into the group of exactly one key. *)
Lemma length_groups {A} (k : A -> K) (vs : list K) (l : list A) :
  NoDup vs -> (forall x, x ∈ l -> k x ∈ vs) ->
  sum_list (map (fun v => length (filter (fun x => k x = v) l)) vs) = length l.
Proof.
  intros Hnd. induction l as [|x l IH]; intros Hin.
  - clear. induction vs as [|v vs IHvs]; [done|]. exact IHvs.
  - simpl. rewrite <- IH by (intros y Hy; apply Hin; by right).
    assert (Hx : k x ∈ vs) by (apply Hin; by left).
    clear IH Hin. induction vs as [|v vs IHvs]; [by apply elem_of_nil in Hx|].
    apply NoDup_cons in Hnd as [Hv Hnd]. simpl. rewrite filter_cons.
    destruct (decide (k x = v)) as [Heq|Hne].
    + simpl. f_equal. f_equal. subst v.
      clear -Hv. induction vs as [|w vs IHw]; [done|].
      simpl. rewrite filter_cons, decide_False.
      * f_equal. apply IHw. intros ?. apply Hv. by right.
      * intros Heq. apply Hv. rewrite Heq. by left.
    + apply elem_of_cons in Hx as [?|Hx]; [done|].
      rewrite <- Nat.add_succ_r. f_equal. by apply IHvs.
Qed.

End UniqueFacts.

Lemma length_flat_map_sum {A B} (f : A -> list B) (l : list A) :
  length (flat_map f l) = sum_list (map (fun x => length (f x)) l).
Proof.
  induction l as [|x l IH]; simpl; [done|]. by rewrite length_app, IH.
Qed.

(** A loop that appends one row for the rows satisfying [P], and none for
    the others, appends as many rows as there are rows satisfying [P]. *)
Lemma length_flat_map_filter {A B} (P : A -> Prop) `{!forall x, Decision (P x)}
    (f : A -> list B) (l : list A) :
  (forall x, x ∈ l -> length (f x) = if decide (P x) then 1%nat else 0%nat) ->
  length (flat_map f l) = length (filter P l).
Proof.
  induction l as [|x l IH]; intros Hf; simpl; [done|].
  rewrite length_app, filter_cons, (Hf x) by (by left).
  rewrite IH by (intros y Hy; apply Hf; by right).
  by destruct (decide (P x)).
Qed.

(** ** Azure: concurrent sessions *)

Section AzureConcurrency.
Import AzureCorrelator.

Lemma elem_of_indexed (m : list Session) i s :
  (i, s) ∈ indexed m <-> m !! i = Some s.
Proof.
  unfold indexed. rewrite elem_of_lookup_imap. split.
  - by intros (j & y & [= -> ->] & Hl).
  - intros Hl. by exists i, s.
Qed.

Lemma has_overlap_iff (m : list Session) i s :
  has_overlap m (i, s) <-> exists j o, concurrent_with m i s j o.
Proof.
  unfold has_overlap, overlaps, same_vm, concurrent_with. simpl. split.
  - intros Hlen.
    destruct (filter _ (filter _ (indexed m))) as [|[j o] rest] eqn:Hf;
      [simpl in Hlen; lia|].
    assert (Hin : (j, o) ∈ filter
              (fun js : nat * Session =>
                 Session_Start js.2 <= Session_End s /\
                 Session_End js.2 >= Session_Start s /\
                 js.1 <> i /\ s_User js.2 <> s_User s)
              (filter (fun js : nat * Session => VM_Identifier js.2 = VM_Identifier s)
                      (indexed m))) by (rewrite Hf; by left).
    apply list_elem_of_filter in Hin as [(H1 & H2 & H3 & H4) Hin].
    apply list_elem_of_filter in Hin as [H5 Hin].
    apply elem_of_indexed in Hin. simpl in *. by exists j, o.
  - intros (j & o & Hl & Hne & Hvm & H1 & H2 & Hu).
    assert (Hin : (j, o) ∈ filter
              (fun js : nat * Session =>
                 Session_Start js.2 <= Session_End s /\
                 Session_End js.2 >= Session_Start s /\
                 js.1 <> i /\ s_User js.2 <> s_User s)
              (filter (fun js : nat * Session => VM_Identifier js.2 = VM_Identifier s)
                      (indexed m))).
    { apply list_elem_of_filter. split; [done|].
      apply list_elem_of_filter. split; [done|]. by apply elem_of_indexed. }
    destruct (filter _ (filter _ (indexed m))); [by apply elem_of_nil in Hin|].
    simpl. lia.
Qed.

Lemma concurrent_entry_users vm_id vm_sessions is1 e :
  e ∈ concurrent_entry vm_id vm_sessions is1 -> User1 e <> User2 e.
Proof.
  unfold concurrent_entry.
  destruct (overlaps is1.1 is1.2 vm_sessions) as [|other rest] eqn:Hov;
    [by intros ?%elem_of_nil|].
  intros ->%list_elem_of_singleton. simpl.
  assert (Hin : other ∈ overlaps is1.1 is1.2 vm_sessions) by (rewrite Hov; by left).
  apply list_elem_of_filter in Hin as [(_ & _ & _ & Hu) _]. congruence.
Qed.

Lemma length_concurrent_on_vm (m : list Session) vm_id :
  length (concurrent_on_vm (indexed m) vm_id)
  = length (filter (fun js => VM_Identifier js.2 = vm_id)
                   (filter (has_overlap m) (indexed m))).
Proof.
  unfold concurrent_on_vm.
  trans (length (filter (has_overlap m)
                        (filter (fun js : nat * Session => VM_Identifier js.2 = vm_id)
                                (indexed m))));
    [|f_equal; rewrite !list_filter_filter; apply list_filter_iff; intros; tauto].
  apply length_flat_map_filter.
  intros is1 [Hvm _]%list_elem_of_filter. subst vm_id.
  case_decide as Hov; unfold has_overlap, same_vm in Hov; unfold concurrent_entry;
    destruct (overlaps _ _ _); simpl in *; (done || lia).
Qed.

Lemma length_find_concurrent_sessions (m : list Session) :
  length (find_concurrent_sessions m) = length (filter (has_overlap m) (indexed m)).
Proof.
  unfold find_concurrent_sessions. rewrite length_flat_map_sum.
  rewrite (list_fmap_ext _ (fun v => length (filter (fun js : nat * Session =>
             VM_Identifier js.2 = v) (filter (has_overlap m) (indexed m)))) _
             (fun _ v _ => length_concurrent_on_vm m v)).
  apply (length_groups (fun js : nat * Session => VM_Identifier js.2)).
  - apply NoDup_unique.
  - intros [i s] [_ Hin]%list_elem_of_filter. apply elem_of_unique.
    apply elem_of_indexed in Hin. simpl.
    apply list_elem_of_fmap_2. by eapply list_elem_of_lookup_2.
Qed.

Lemma find_concurrent_sessions_two (s1 s2 : Session) :
  VM_Identifier s1 = VM_Identifier s2 ->
  s_User s1 <> s_User s2 ->
  Session_Start s1 <= Session_End s2 ->
  Session_End s1 >= Session_Start s2 ->
  find_concurrent_sessions [s1; s2] = [pair_entry s1 s2; pair_entry s2 s1].
Proof.
  intros Hvm Hu H1 H2.
  unfold find_concurrent_sessions, unique, pair_entry. simpl. unfold id.
  rewrite <- Hvm.
  rewrite decide_True by (by left).
  unfold concurrent_on_vm, indexed. simpl.
  rewrite !filter_cons. simpl. rewrite Hvm at 1.
  rewrite !decide_True by congruence. rewrite filter_nil. simpl.
  unfold concurrent_entry, overlaps. simpl. rewrite !filter_cons. simpl.
  rewrite filter_nil.
  rewrite (decide_False (P := _ /\ _ /\ 0%nat <> 0%nat /\ _)) by (intros (_ & _ & ? & _); done).
  rewrite (decide_True (P := Session_Start s2 <= _ /\ _)) by (split_and!; (lia || done)).
  rewrite (decide_True (P := Session_Start s1 <= _ /\ _)) by (split_and!; (lia || done)).
  simpl. by rewrite Hvm.
Qed.

(** The first row of a filtered table is the row of least position that
    passes the filter. *)
Lemma filter_head_least {A} (P : A -> Prop) `{!forall x, Decision (P x)}
    (l : list A) x rest :
  filter P l = x :: rest ->
  exists k, l !! k = Some x /\ P x /\
            forall k' y, l !! k' = Some y -> P y -> (k <= k')%nat.
Proof.
  induction l as [|a l IH]; [done|]. rewrite filter_cons.
  destruct (decide (P a)) as [Ha|Ha].
  - intros [= -> _]. exists 0%nat. split_and!; [done|done|intros; lia].
  - intros (k & Hk & Hx & Hmin)%IH. exists (S k). split_and!; [done|done|].
    intros [|k'] y Hy HPy; simpl in Hy; [congruence|].
    specialize (Hmin k' y Hy HPy). lia.
Qed.

Lemma lookup_indexed (m : list Session) k js :
  indexed m !! k = Some js <-> js.1 = k /\ m !! k = Some js.2.
Proof.
  unfold indexed. rewrite list_lookup_imap. destruct (m !! k) as [x|]; simpl.
  - destruct js as [j s]. simpl. split.
    + by intros [= -> ->].
    + by intros [-> [= ->]].
  - split; [done|]. by intros [_ ?].
Qed.

(** The first overlap the loop finds for the session at position [i] is
    the concurrent session of least position. *)
Lemma overlaps_head (m : list Session) i s other rest :
  overlaps i s (same_vm m (i, s)) = other :: rest ->
  concurrent_with m i s other.1 other.2 /\
  forall j' o', concurrent_with m i s j' o' -> (other.1 <= j')%nat.
Proof.
  unfold overlaps, same_vm. simpl. rewrite list_filter_filter.
  intros Hf. apply filter_head_least in Hf as (k & Hk & HP & Hmin).
  destruct HP as [(H1 & H2 & H3 & H4) H5].
  apply lookup_indexed in Hk as [Hk1 Hk2]. subst k. split.
  - by unfold concurrent_with.
  - intros j' o' (Hl & Hne & Hvm & Ha & Hb & Hu).
    apply (Hmin j' (j', o')); [by apply lookup_indexed|done].
Qed.

(** The rows of the analysis, for a mapping of any length. *)
Lemma elem_of_find_concurrent_sessions (m : list Session) e :
  e ∈ find_concurrent_sessions m <->
  exists i s j o,
    m !! i = Some s /\ concurrent_with m i s j o /\
    (forall j' o', concurrent_with m i s j' o' -> (j <= j')%nat) /\
    e = pair_entry s o.
Proof.
  unfold find_concurrent_sessions. split.
  - intros He. apply list_elem_of_In, in_flat_map in He as (vm_id & _ & He).
    unfold concurrent_on_vm in He. apply in_flat_map in He as ([i s] & His & He).
    apply list_elem_of_In, list_elem_of_filter in His as [Hvm His].
    apply elem_of_indexed in His. simpl in Hvm. subst vm_id.
    apply list_elem_of_In in He. unfold concurrent_entry in He. simpl in He.
    change (filter _ (indexed m)) with (same_vm m (i, s)) in He.
    destruct (overlaps i s (same_vm m (i, s))) as [|[j o] rest] eqn:Hov;
      [by apply elem_of_nil in He|].
    apply list_elem_of_singleton in He.
    apply overlaps_head in Hov as [Hc Hmin]. simpl in *.
    by exists i, s, j, o.
  - intros (i & s & j & o & Hi & Hc & Hmin & ->).
    apply list_elem_of_In, in_flat_map. exists (VM_Identifier s). split.
    { apply list_elem_of_In, elem_of_unique, list_elem_of_fmap_2.
      by eapply list_elem_of_lookup_2. }
    unfold concurrent_on_vm. apply in_flat_map. exists (i, s). split.
    { apply list_elem_of_In, list_elem_of_filter. split; [done|].
      by apply elem_of_indexed. }
    apply list_elem_of_In. unfold concurrent_entry. simpl.
    change (filter _ (indexed m)) with (same_vm m (i, s)).
    destruct (overlaps i s (same_vm m (i, s))) as [|[k other] rest] eqn:Hov.
    + assert (Hov' : has_overlap m (i, s)) by (apply has_overlap_iff; eauto).
      unfold has_overlap in Hov'. simpl in Hov'. rewrite Hov in Hov'.
      simpl in Hov'. lia.
    + apply overlaps_head in Hov as [Hc' Hmin']. simpl in *.
      assert (k = j) as ->.
      { specialize (Hmin k other Hc'). specialize (Hmin' j o Hc). lia. }
      destruct Hc as [Hj _], Hc' as [Hj' _].
      assert (other = o) as -> by congruence.
      apply list_elem_of_singleton. reflexivity.
Qed.

(** C1, as stated, fails: the overlapping pair of [shared_vm] is reported
    twice, once from either session, not exactly once. *)
Lemma overlapping_pair_reported_twice :
  find_concurrent_sessions shared_vm
  = [ {| VM := "dev-1"; User1 := "alice@corp.com"; User2 := "bob@corp.com";
         Overlap_Start := minutes 20; Overlap_End := minutes 50 |};
      {| VM := "dev-1"; User1 := "bob@corp.com"; User2 := "alice@corp.com";
         Overlap_Start := minutes 20; Overlap_End := minutes 50 |} ]
  /\ length (find_concurrent_sessions shared_vm) <> 1%nat.
Proof. split; [reflexivity|]. vm_compute. discriminate. Qed.

(** C1, amended.  The analysis reports per session, not per pair: it adds
    one row for every session of the mapping that some other session on
    the same VM, of another user, overlaps ([start1 <= end2] and
    [end1 >= start2]), naming that session's user as [User1] and the user
    of the first overlapping session as [User2].  So the number of rows is
    the number of such sessions; for a mapping of any length the rows are
    exactly the [pair_entry s o] of a session [s] of the mapping and the
    session [o] of least position among those concurrent with [s]; two
    sessions of distinct users that overlap on a VM they have to
    themselves give two rows (one from either side); and no row names the
    same user twice. *)
Theorem concurrent_sessions_per_session (m : list Session) :
  (forall e, e ∈ find_concurrent_sessions m -> User1 e <> User2 e)
  /\ length (find_concurrent_sessions m) = length (filter (has_overlap m) (indexed m))
  /\ (forall i s, has_overlap m (i, s) <-> exists j o, concurrent_with m i s j o)
  /\ (forall e, e ∈ find_concurrent_sessions m <->
        exists i s j o,
          m !! i = Some s /\ concurrent_with m i s j o /\
          (forall j' o', concurrent_with m i s j' o' -> (j <= j')%nat) /\
          e = pair_entry s o)
  /\ (forall s1 s2, m = [s1; s2] ->
        VM_Identifier s1 = VM_Identifier s2 -> s_User s1 <> s_User s2 ->
        Session_Start s1 <= Session_End s2 -> Session_End s1 >= Session_Start s2 ->
        find_concurrent_sessions m = [pair_entry s1 s2; pair_entry s2 s1])
  /\ (forall (P : PandasStats) self, user_vm_mapping self = Some m ->
        exists a, analyze_vm_allocation_pattern self = Ok a /\
                  concurrent_sessions a = find_concurrent_sessions m /\
                  concurrent_access_count a = length (find_concurrent_sessions m)).
Proof.
  split_and!.
  - intros e He. unfold find_concurrent_sessions in He.
    apply list_elem_of_In, in_flat_map in He as (vm_id & _ & He).
    unfold concurrent_on_vm in He. apply in_flat_map in He as (is1 & _ & He).
    apply list_elem_of_In in He. by eapply concurrent_entry_users.
  - apply length_find_concurrent_sessions.
  - apply has_overlap_iff.
  - apply elem_of_find_concurrent_sessions.
  - intros s1 s2 ->. apply find_concurrent_sessions_two.
  - intros P self Hm. unfold analyze_vm_allocation_pattern. rewrite Hm.
    by eexists.
Qed.

Lemma concurrent_sessions_per_session_witness :
  length (find_concurrent_sessions shared_vm) = 2%nat
  /\ find_concurrent_sessions shared_vm
     = [ pair_entry alice_session bob_session;
         pair_entry bob_session alice_session ]
  /\ pair_entry alice_session bob_session ∈ find_concurrent_sessions crowded_vm
  /\ pair_entry alice_session carol_session ∉ find_concurrent_sessions crowded_vm.
Proof.
  destruct (concurrent_sessions_per_session shared_vm) as (_ & Hlen & _ & _ & Htwo & _).
  destruct (concurrent_sessions_per_session crowded_vm) as (_ & _ & _ & Hrows & _).
  split_and!.
  - rewrite Hlen. reflexivity.
  - apply Htwo; [reflexivity|reflexivity|discriminate|vm_compute; discriminate..].
  - apply Hrows. exists 0%nat, alice_session, 1%nat, bob_session.
    split_and!; [reflexivity| |intros j' o' (_ & Hne & _); lia|reflexivity].
    split_and!; [reflexivity|lia|reflexivity|vm_compute; discriminate..|discriminate].
  - intros (i & s & j & o & Hi & Hc & Hmin & He)%Hrows.
    assert (Hs : s_User s = "alice@corp.com") by (by inversion He).
    assert (Ho : s_User o = "carol@corp.com") by (by inversion He).
    destruct Hc as (Hj & Hne & _).
    destruct i as [|[|[|i]]]; simpl in Hi; inversion Hi; subst s; try discriminate Hs.
    destruct j as [|[|[|j]]]; simpl in Hj; inversion Hj; subst o; try discriminate Ho.
    assert (2 <= 1)%nat; [|lia].
    apply (Hmin 1%nat bob_session).
    split_and!; [reflexivity|lia|reflexivity|vm_compute; discriminate..|discriminate].
Defined.

End AzureConcurrency.

(** ** An implementation of the numeric reductions *)

Lemma two_pass_std_ddof (l : list float) : (length l <= 1)%nat -> two_pass_std l = nan.
Proof. intros Hl. unfold two_pass_std. by rewrite decide_True. Qed.

Definition two_pass_PandasStats : PandasStats :=
  {| total_seconds := fun ns => (float_of_Z ns / 1000000000)%float;
     mean := two_pass_mean;
     std := two_pass_std;
     std_ddof := two_pass_std_ddof;
     round2 := scaled_round2;
     format_mb := megabytes_2f;
     format_int := fun x => pretty (float_trunc x) |}.

(** ** Stage guards *)

(** C7, as stated, fails: on a correlator that has loaded nothing the
    detectors return an empty activity table and raise nothing. *)
Lemma detectors_return_empty_when_unloaded :
  AzureCorrelator.detect_failed_logins AzureCorrelator.init = Ok []
  /\ AzureCorrelator.detect_multiple_ip_access AzureCorrelator.init = Ok []
  /\ AWSCorrelator.detect_rdp_bruteforce AWSCorrelator.init = [].
Proof. repeat split. Qed.

(** C7, amended.  The session-mapping builders raise [ValueError] when the
    login events (AWS) or the non-interactive sign-in logs (Azure) were
    never loaded, and the allocation-pattern analysis and the
    fragmentation report raise [ValueError] when the session mapping was
    never built.  The activity detectors do not raise: each returns an
    empty activity table when the table it reads was never loaded or
    built. *)
Theorem stage_guards `{PandasSort} `{PandasStats} :
  (forall self, AWSCorrelator.eventbridge_df self = None ->
     AWSCorrelator.generate_user_vm_mapping self
     = Raise (ValueError "Event Bridge logs not loaded"))
  /\ (forall self, AzureCorrelator.noninteractive_signin_df self = None ->
     AzureCorrelator.generate_user_vm_mapping self
     = Raise (ValueError "Non-Interactive Sign-in logs not loaded."))
  /\ (forall self, AzureCorrelator.user_vm_mapping self = None ->
     AzureCorrelator.analyze_vm_allocation_pattern self
     = Raise (ValueError "User-VM mapping not generated.")
     /\ AzureCorrelator.detect_evidence_fragmentation self
        = Raise (ValueError "User-VM mapping not generated."))
  /\ (forall self, AWSCorrelator.query_logs_df self = None ->
     AWSCorrelator.detect_data_exfiltration self = []
     /\ forall interval_threshold min_occurrences,
          AWSCorrelator.detect_c2_beaconing self interval_threshold min_occurrences = [])
  /\ (forall self, AWSCorrelator.vpc_logs_df self = None ->
     AWSCorrelator.detect_rdp_bruteforce self = [])
  /\ (forall self, AzureCorrelator.interactive_signin_df self = None ->
     AzureCorrelator.detect_failed_logins self = Ok [])
  /\ (forall self, AzureCorrelator.user_vm_mapping self = None ->
     AzureCorrelator.detect_rapid_vm_switching self = []
     /\ AzureCorrelator.detect_multiple_ip_access self = Ok []).
Proof.
  split_and!.
  - intros self He. unfold AWSCorrelator.generate_user_vm_mapping. by rewrite He.
  - intros self He. unfold AzureCorrelator.generate_user_vm_mapping. by rewrite He.
  - intros self Hm.
    unfold AzureCorrelator.analyze_vm_allocation_pattern,
      AzureCorrelator.detect_evidence_fragmentation. by rewrite Hm.
  - intros self Hq.
    unfold AWSCorrelator.detect_data_exfiltration, AWSCorrelator.detect_c2_beaconing.
    by rewrite Hq.
  - intros self Hv. unfold AWSCorrelator.detect_rdp_bruteforce. by rewrite Hv.
  - intros self Hi. unfold AzureCorrelator.detect_failed_logins. by rewrite Hi.
  - intros self Hm.
    unfold AzureCorrelator.detect_rapid_vm_switching,
      AzureCorrelator.detect_multiple_ip_access. by rewrite Hm.
Qed.

Lemma stage_guards_witness :
  AWSCorrelator.generate_user_vm_mapping (H := stable_PandasSort) AWSCorrelator.init
  = Raise (ValueError "Event Bridge logs not loaded")
  /\ AzureCorrelator.analyze_vm_allocation_pattern (H := two_pass_PandasStats)
       AzureCorrelator.init
     = Raise (ValueError "User-VM mapping not generated.")
  /\ AWSCorrelator.detect_data_exfiltration (H := two_pass_PandasStats)
       AWSCorrelator.init = []
  /\ AzureCorrelator.detect_rapid_vm_switching (H := stable_PandasSort)
       (H0 := two_pass_PandasStats) AzureCorrelator.init = [].
Proof.
  destruct (@stage_guards stable_PandasSort two_pass_PandasStats)
    as (Haws & _ & Han & Hex & _ & _ & Hsw).
  split_and!.
  - by apply Haws.
  - by apply Han.
  - by apply Hex.
  - by apply Hsw.
Defined.

(** ** Session mappings *)

Lemma Forall2_elem_of_r {A B} (R : A -> B -> Prop) l ys y :
  Forall2 R l ys -> y ∈ ys -> exists x, x ∈ l /\ R x y.
Proof.
  induction 1 as [|x y' l ys HR _ IH]; intros Hy.
  - by apply elem_of_nil in Hy.
  - apply elem_of_cons in Hy as [->|Hy].
    + exists x. split; [by left|done].
    + destruct (IH Hy) as (x' & Hx' & HR'). exists x'. split; [by right|done].
Qed.

Lemma mapM_result_elem_of {A B} (f : A -> result B) l ys y :
  mapM_result f l = Ok ys -> y ∈ ys -> exists x, x ∈ l /\ f x = Ok y.
Proof.
  intros Hm Hy.
  apply (Forall2_elem_of_r (fun x y => f x = Ok y) l ys y); [|exact Hy].
  by apply mapM_result_Ok_Forall2.
Qed.

Lemma Timestamp_add_Ok t d r : Timestamp_add t d = Ok r -> r = t + d.
Proof. unfold Timestamp_add. case_decide; [by intros [= <-]|done]. Qed.

Lemma list_max_ge x l : x <= list_max x l /\ forall y, y ∈ l -> y <= list_max x l.
Proof.
  unfold list_max. revert x. induction l as [|z l IH]; intros x; simpl.
  - split; [lia|]. by intros y ?%elem_of_nil.
  - destruct (IH (Z.max x z)) as [H1 H2]. split; [lia|].
    intros y [->|Hy]%elem_of_cons; [lia|by apply H2].
Qed.

Lemma list_max_elem_of x l : list_max x l ∈ x :: l.
Proof.
  unfold list_max. revert x. induction l as [|z l IH]; intros x; simpl; [by left|].
  specialize (IH (Z.max x z)). apply elem_of_cons in IH as [->|IH].
  - destruct (Z.max_spec x z) as [[_ ->]|[_ ->]]; [right; by left|by left].
  - right. by right.
Qed.

Lemma list_min_le x l : list_min x l <= x /\ forall y, y ∈ l -> list_min x l <= y.
Proof.
  unfold list_min. revert x. induction l as [|z l IH]; intros x; simpl.
  - split; [lia|]. by intros y ?%elem_of_nil.
  - destruct (IH (Z.min x z)) as [H1 H2]. split; [lia|].
    intros y [->|Hy]%elem_of_cons; [lia|by apply H2].
Qed.

Lemma list_min_elem_of x l : list_min x l ∈ x :: l.
Proof.
  unfold list_min. revert x. induction l as [|z l IH]; intros x; simpl; [by left|].
  specialize (IH (Z.min x z)). apply elem_of_cons in IH as [->|IH].
  - destruct (Z.min_spec x z) as [[_ ->]|[_ ->]]; [by left|right; by left].
  - right. by right.
Qed.

Section AWSSessions.
Import AWSCorrelator.
Context `{PandasSort}.

Lemma session_of_fields user_label username display_name workspace_id event s :
  session_of user_label username display_name workspace_id event = Ok s ->
  User s = user_label /\ Workspace_ID s = workspace_id /\
  Session_Start s = time event /\ Session_End s = time event + hours 1.
Proof.
  unfold session_of.
  destruct (Timestamp_add (time event) (hours 1)) as [r|e] eqn:Hadd; [|done].
  apply Timestamp_add_Ok in Hadd. simpl. by intros [= <-].
Qed.

Lemma elem_of_groupby {A} (key : A -> string) (l : list A) g :
  g ∈ groupby key l -> g.2 = filter (fun r => key r = g.1) l.
Proof.
  unfold groupby. by intros (k & -> & _)%list_elem_of_fmap.
Qed.

(** Every session of the mapping comes from one login event. *)
Lemma generate_user_vm_mapping_sessions self self' sessions s :
  generate_user_vm_mapping self = Ok (self', sessions) -> s ∈ sessions ->
  exists e event,
    eventbridge_df self = Some e /\ event ∈ e /\
    Workspace_ID s = workspaceId event /\
    User s = default "Unknown" (resolved_users self e !! workspaceId event) /\
    Session_Start s = time event /\
    Session_End s = time event + hours 1.
Proof.
  unfold generate_user_vm_mapping.
  destruct (eventbridge_df self) as [e|] eqn:He; [|done].
  fold (resolved_users self e).
  destruct (mapM_result _ (groupby workspaceId e)) as [per_group|err] eqn:Hg; [|done].
  simpl. intros [= _ <-] Hs.
  apply list_elem_of_In, in_concat in Hs as (l & Hl & Hs).
  apply list_elem_of_In in Hl, Hs.
  destruct (mapM_result_elem_of _ _ _ _ Hg Hl) as (g & Hgin & Hgs).
  unfold group_sessions in Hgs.
  destruct (mapM_result_elem_of _ _ _ _ Hgs Hs) as (event & Hev & Hso).
  rewrite sort_values_Permutation, (elem_of_groupby _ _ _ Hgin) in Hev.
  apply list_elem_of_filter in Hev as [Hk Hev].
  apply session_of_fields in Hso as (Hu & Hw & Hst & Hen).
  exists e, event. rewrite Hk. by split_and!.
Qed.

(** The builder returns a mapping whenever every window fits the range of
    [pd.Timestamp]. *)
Lemma generate_user_vm_mapping_total self e :
  eventbridge_df self = Some e ->
  Forall (fun event => Timestamp_min <= time event + hours 1 <= Timestamp_max) e ->
  exists self' sessions, generate_user_vm_mapping self = Ok (self', sessions).
Proof.
  intros He Hb. unfold generate_user_vm_mapping. rewrite He.
  fold (resolved_users self e).
  destruct (mapM_result_total (group_sessions self (resolved_users self e))
              (groupby workspaceId e)) as [per_group ->]; [|simpl; by eauto].
  apply Forall_forall. intros g Hg. unfold group_sessions.
  apply mapM_result_total, Forall_forall. intros event Hev.
  rewrite sort_values_Permutation, (elem_of_groupby _ _ _ Hg) in Hev.
  apply list_elem_of_filter in Hev as [_ Hev].
  rewrite Forall_forall in Hb. specialize (Hb _ Hev).
  unfold session_of, Timestamp_add. rewrite decide_True by done. simpl. by eexists.
Qed.

End AWSSessions.

Section AzureSessions.
Import AzureCorrelator.
Context `{PandasSort}.

Lemma elem_of_groupby_opt {A} (key : A -> option string) (l : list A) g :
  g ∈ groupby_opt key l -> g.2 = filter (fun r => key r = Some g.1) l.
Proof.
  unfold groupby_opt. by intros (k & -> & _)%list_elem_of_fmap.
Qed.

Lemma event_session_estimate df user acc acc' event :
  device_column (columns df) = None ->
  event ∈ filter (fun e => User e = user) (events df) ->
  (forall s, s ∈ acc.2 -> session_estimate df s) ->
  event_session (columns df) user acc event = Ok acc' ->
  forall s, s ∈ acc'.2 -> session_estimate df s.
Proof.
  intros Hcol [Hu Hev]%list_elem_of_filter Hacc. unfold event_session.
  destruct (generate_vm_name acc.1 "Unknown") as [vm_name cache].
  destruct (Timestamp_add (Date event) (minutes 30)) as [r|e] eqn:Hadd; [|done].
  apply Timestamp_add_Ok in Hadd. simpl. intros [= <-] s. simpl.
  intros [Hs|Hs]%elem_of_app; [by apply Hacc|].
  apply list_elem_of_singleton in Hs as ->.
  unfold session_estimate. rewrite Hcol. simpl. by exists event.
Qed.

Lemma device_session_estimate df device_col user acc acc' g :
  device_column (columns df) = Some device_col ->
  g ∈ groupby_opt (fun e => attrs e !! device_col)
                  (filter (fun e => User e = user) (events df)) ->
  (forall s, s ∈ acc.2 -> session_estimate df s) ->
  device_session (columns df) user acc g = Ok acc' ->
  forall s, s ∈ acc'.2 -> session_estimate df s.
Proof.
  intros Hcol Hg Hacc. unfold device_session.
  pose proof (sort_values_Permutation Date g.2) as Hperm.
  destruct (sort_values Date g.2) as [|first_event rest] eqn:Hsorted;
    [by intros [= <-]|].
  destruct (generate_vm_name acc.1 g.1) as [vm_name cache].
  destruct (Timestamp_add _ (minutes 30)) as [r|e] eqn:Hadd; [|done].
  apply Timestamp_add_Ok in Hadd. simpl. intros [= <-] s. simpl.
  intros [Hs|Hs]%elem_of_app; [by apply Hacc|].
  apply list_elem_of_singleton in Hs as ->.
  unfold session_estimate. rewrite Hcol.
  cbn [Session_Start Session_End s_User VM_Identifier].
  unfold device_group. rewrite <- (elem_of_groupby_opt _ _ _ Hg).
  set (dates := map Date (first_event :: rest)) in *.
  assert (Hdates : forall d, d ∈ map Date g.2 <-> d ∈ dates).
  { intros d. unfold dates. by rewrite <- (fmap_Permutation Date _ _ Hperm). }
  assert (Hfirst : Date first_event ∈ dates) by (by left).
  assert (Hsub : forall d, d ∈ Date first_event :: dates -> d ∈ dates).
  { intros d [->|Hd]%elem_of_cons; done. }
  exists (list_max (Date first_event) dates). split_and!.
  - split.
    + apply Hdates, Hsub, list_max_elem_of.
    + intros y Hy%Hdates. by apply list_max_ge.
  - done.
  - apply Hdates, Hsub, list_min_elem_of.
  - intros d Hd%Hdates. by apply list_min_le.
Qed.

(** Every session of the Azure mapping carries the estimate. *)
Lemma build_sessions_estimate self df cache sessions :
  build_sessions self df = Ok (cache, sessions) ->
  forall s, s ∈ sessions -> session_estimate df s.
Proof.
  unfold build_sessions. intros Hb.
  pose (I := fun acc : Acc => forall s, s ∈ acc.2 -> session_estimate df s).
  change (I (cache, sessions)).
  eapply (foldlM_invariant _ I); [| |exact Hb].
  - intros acc user acc' _ Hacc. unfold user_sessions.
    destruct (device_column (columns df)) as [device_col|] eqn:Hcol; intros Hf.
    + eapply (foldlM_invariant _ I); [|exact Hacc|exact Hf].
      intros a g a' Hg Ha Hstep. unfold I. by eapply device_session_estimate.
    + eapply (foldlM_invariant _ I); [|exact Hacc|exact Hf].
      intros a ev a' Hev Ha Hstep. unfold I. by eapply event_session_estimate.
  - unfold I. simpl. by intros s ?%elem_of_nil.
Qed.

Lemma azure_generate_user_vm_mapping_sessions self df self' sessions :
  noninteractive_signin_df self = Some df ->
  generate_user_vm_mapping self = Ok (self', sessions) ->
  forall s, s ∈ sessions -> session_estimate df s.
Proof.
  intros Hdf. unfold generate_user_vm_mapping. rewrite Hdf.
  destruct (build_sessions self df) as [[cache built]|e] eqn:Hb; [|done].
  simpl. destruct built as [|b bs]; [done|]. intros [= _ <-] s Hs.
  rewrite sort_values_Permutation in Hs.
  by eapply build_sessions_estimate.
Qed.

(** The Azure builder returns a mapping, or finds no session to sort,
    whenever every window fits the range of [pd.Timestamp]. *)
Lemma build_sessions_total self df :
  Forall (fun e => Timestamp_min <= Date e + minutes 30 <= Timestamp_max) (events df) ->
  exists acc, build_sessions self df = Ok acc.
Proof.
  rewrite Forall_forall. intros Hb. unfold build_sessions.
  apply foldlM_total. intros acc user _. unfold user_sessions.
  destruct (device_column (columns df)) as [device_col|].
  - apply foldlM_total. intros a g Hg. unfold device_session.
    pose proof (sort_values_Permutation Date g.2) as Hperm.
    destruct (sort_values Date g.2) as [|first_event rest]; [by eexists|].
    destruct (generate_vm_name a.1 g.1) as [vm_name cache].
    set (dates := map Date (first_event :: rest)).
    assert (Hin : list_max (Date first_event) dates ∈ dates).
    { pose proof (list_max_elem_of (Date first_event) dates) as Hm.
      apply elem_of_cons in Hm as [->|Hm]; [by left|done]. }
    apply list_elem_of_fmap in Hin as (e & Heq & He).
    rewrite Hperm, (elem_of_groupby_opt _ _ _ Hg) in He.
    apply list_elem_of_filter in He as [_ [_ He]%list_elem_of_filter].
    unfold Timestamp_add. rewrite Heq, decide_True by (by apply Hb).
    simpl. by eexists.
  - apply foldlM_total. intros a event [_ He]%list_elem_of_filter.
    unfold event_session.
    destruct (generate_vm_name a.1 "Unknown") as [vm_name cache].
    unfold Timestamp_add. rewrite decide_True by (by apply Hb).
    simpl. by eexists.
Qed.

Lemma azure_generate_user_vm_mapping_total self df :
  noninteractive_signin_df self = Some df ->
  Forall (fun e => Timestamp_min <= Date e + minutes 30 <= Timestamp_max) (events df) ->
  (exists self' sessions, generate_user_vm_mapping self = Ok (self', sessions))
  \/ generate_user_vm_mapping self = Raise (KeyError "Session Start").
Proof.
  intros Hdf Hb. unfold generate_user_vm_mapping. rewrite Hdf.
  destruct (build_sessions_total self df Hb) as [[cache built] ->]. simpl.
  destruct built; [by right|left; by eauto].
Qed.

End AzureSessions.

(** ** The end-to-end scenarios *)

Example aws_scenario_mapping :
  exists self',
    AWSCorrelator.generate_user_vm_mapping (H := stable_PandasSort) Scenario.aws
    = Ok (self', [Scenario.aws_session]).
Proof. eexists. vm_compute. reflexivity. Qed.

Example azure_scenario_mapping :
  exists self',
    AzureCorrelator.generate_user_vm_mapping (H := stable_PandasSort) Scenario.azure
    = Ok (self', [Scenario.azure_session]).
Proof. eexists. vm_compute. reflexivity. Qed.

(** C4.  Every session the AWS builder returns ends exactly one hour after
    it starts.  Every session the Azure builder returns ends exactly 30
    minutes after the latest event of its (user, device) group, and
    starts at the earliest one; when the table has no device column, a
    session is one event and ends 30 minutes after it. *)
Theorem session_end_estimate `{PandasSort} :
  (forall self self' sessions s,
     AWSCorrelator.generate_user_vm_mapping self = Ok (self', sessions) ->
     s ∈ sessions ->
     AWSCorrelator.Session_End s = AWSCorrelator.Session_Start s + hours 1)
  /\ (forall self df self' sessions s,
     AzureCorrelator.noninteractive_signin_df self = Some df ->
     AzureCorrelator.generate_user_vm_mapping self = Ok (self', sessions) ->
     s ∈ sessions ->
     session_estimate df s).
Proof.
  split.
  - intros self self' sessions s Hg Hs.
    destruct (generate_user_vm_mapping_sessions _ _ _ _ Hg Hs)
      as (e & event & _ & _ & _ & _ & Hst & Hen).
    by rewrite Hst, Hen.
  - intros self df self' sessions s Hdf Hg Hs.
    by eapply azure_generate_user_vm_mapping_sessions.
Qed.

Lemma session_end_estimate_witness :
  AWSCorrelator.Session_End Scenario.aws_session
  = AWSCorrelator.Session_Start Scenario.aws_session + hours 1
  /\ session_estimate Scenario.azure_df Scenario.azure_session.
Proof.
  destruct (@session_end_estimate stable_PandasSort) as [Haws Hazure].
  split.
  - destruct aws_scenario_mapping as [self' Hg].
    apply (Haws _ _ _ _ Hg). by left.
  - destruct azure_scenario_mapping as [self' Hg].
    apply (Hazure Scenario.azure _ _ _ _ eq_refl Hg). by left.
Defined.

(** In the Azure scenario the estimate reads: the session ends at 09:50. *)
Example azure_scenario_window :
  AzureCorrelator.Session_Start Scenario.azure_session = new_year_2025 + hours 9
  /\ AzureCorrelator.Session_End Scenario.azure_session
     = (new_year_2025 + hours 9 + minutes 20) + minutes 30.
Proof. split; reflexivity. Qed.

(** ** The order of strings and [sorted] *)

Lemma ascii_compare_refl c : Ascii.compare c c = Eq.
Proof. unfold Ascii.compare. apply N.compare_refl. Qed.

Global Instance str_le_trans : Transitive str_le.
Proof.
  unfold str_le, String.leb. intros a.
  induction a as [|c1 a IH]; intros [|c2 b] [|c3 c]; simpl; try done.
  destruct (Ascii.compare c1 c2) eqn:H12; [| |done];
    destruct (Ascii.compare c2 c3) eqn:H23; try done.
  - apply Ascii.compare_eq_iff in H12, H23. subst.
    rewrite ascii_compare_refl. apply IH.
  - apply Ascii.compare_eq_iff in H12. subst. by rewrite H23.
  - apply Ascii.compare_eq_iff in H23. subst. by rewrite H12.
  - unfold Ascii.compare in *.
    rewrite N.compare_lt_iff in H12, H23.
    assert (Hlt : (Ascii.N_of_ascii c1 < Ascii.N_of_ascii c3)%N) by lia.
    rewrite <- N.compare_lt_iff in Hlt. by rewrite Hlt.
Qed.

Global Instance str_le_antisymm : AntiSymm (=) str_le.
Proof. intros a b. apply String.leb_antisym. Qed.

Global Instance str_le_total : Total str_le.
Proof. intros a b. apply String.leb_total. Qed.

(** [sorted] depends on the values only, not on the order they come in. *)
Lemma sorted_Permutation (l l' : list string) : l ≡ₚ l' -> sorted l = sorted l'.
Proof.
  intros Hp. unfold sorted.
  apply (Sorted_unique str_le); [apply (Sorted_merge_sort str_le)..|].
  by rewrite !merge_sort_Permutation.
Qed.

Lemma unique_Permutation {K} `{EqDecision K} (l l' : list K) :
  l ≡ₚ l' -> unique l ≡ₚ unique l'.
Proof.
  intros Hp. apply NoDup_Permutation; [apply NoDup_unique..|].
  intros x. by rewrite !elem_of_unique, Hp.
Qed.

Lemma sorted_unique_Permutation {A} (f : A -> string) (l l' : list A) :
  l ≡ₚ l' -> sorted (unique (map f l)) = sorted (unique (map f l')).
Proof.
  intros Hp. apply sorted_Permutation, unique_Permutation.
  by apply fmap_Permutation.
Qed.

Lemma NoDup_sorted_unique (l : list string) : NoDup (sorted (unique l)).
Proof.
  unfold sorted. rewrite merge_sort_Permutation. apply NoDup_unique.
Qed.

(** ** AWS: identity resolution *)

Section IdentityResolution.
Import AWSCorrelator.

Lemma foldl_link_instance_empty workspace_ids user_label iids m :
  foldl (link_instance workspace_ids user_label) m iids = ∅ <->
  m = ∅ /\ forall iid, iid ∈ iids -> List.find (linked iid) workspace_ids = None.
Proof.
  revert m. induction iids as [|iid iids IH]; intros m; simpl.
  - split; [intros ->; split; [done|by intros ? ?%elem_of_nil]|by intros [-> _]].
  - rewrite IH. unfold link_instance. fold (linked iid).
    destruct (List.find (linked iid) workspace_ids) as [ws_id|] eqn:Hfind.
    + split.
      * intros [Hins _]. by apply insert_non_empty in Hins.
      * intros [_ Hall]. specialize (Hall iid). rewrite Hfind in Hall.
        discriminate Hall. by left.
    + split.
      * intros [-> Hall]. split; [done|].
        intros i [->|Hi]%elem_of_cons; [done|by apply Hall].
      * intros [-> Hall]. split; [done|]. intros i Hi. apply Hall. by right.
Qed.

Lemma link_user_empty q workspace_ids m user_label :
  link_user q workspace_ids m user_label = ∅ <->
  m = ∅ /\ forall r iid, r ∈ q -> q_user_label r = user_label ->
                         instance_id r = Some iid ->
                         List.find (linked iid) workspace_ids = None.
Proof.
  unfold link_user. rewrite foldl_link_instance_empty.
  split; intros [-> Hall]; (split; [done|]).
  - intros r iid Hr Hu Hi. apply Hall, elem_of_unique, list_elem_of_omap.
    exists r. split; [|done]. by apply list_elem_of_filter.
  - intros iid (r & [Hu Hr]%list_elem_of_filter & Hi)%elem_of_unique%list_elem_of_omap.
    by eapply Hall.
Qed.

Lemma foldl_link_user_empty q workspace_ids user_labels m :
  foldl (link_user q workspace_ids) m user_labels = ∅ <->
  m = ∅ /\ no_linkage q user_labels workspace_ids.
Proof.
  unfold no_linkage.
  revert m. induction user_labels as [|u us IH]; intros m; simpl.
  - split; [intros ->; split; [done|]|by intros [-> _]].
    by intros r iid _ ?%elem_of_nil.
  - rewrite IH, link_user_empty. split.
    + intros [[-> Hu] Hus]. split; [done|].
      intros r iid Hr [Heq|Hin]%elem_of_cons Hi; [by eapply Hu|by eapply Hus].
    + intros [-> Hall]. split_and!; [done|..].
      * intros r iid Hr Hu Hi. eapply Hall; [done| |done]. rewrite Hu. by left.
      * intros r iid Hr Hu Hi. eapply Hall; [done| |done]. by right.
Qed.

Lemma link_by_instance_empty q user_labels workspace_ids :
  link_by_instance q user_labels workspace_ids = ∅ <->
  no_linkage q user_labels workspace_ids.
Proof.
  unfold link_by_instance. rewrite foldl_link_user_empty.
  split; [by intros [_ ?]|by intros ?].
Qed.

Lemma no_linkage_Permutation q q' user_labels workspace_ids :
  q' ≡ₚ q -> no_linkage q user_labels workspace_ids ->
  no_linkage q' user_labels workspace_ids.
Proof.
  intros Hp Hno r iid Hr. rewrite Hp in Hr. by apply Hno.
Qed.

Lemma map_by_order_not_elem_of k workspace_ids user_labels m ws_id :
  ws_id ∉ workspace_ids ->
  map_by_order k workspace_ids user_labels m !! ws_id = m !! ws_id.
Proof.
  revert k m. induction workspace_ids as [|w ws IH]; intros k m Hnotin; [done|].
  simpl. apply not_elem_of_cons in Hnotin as [Hne Hnotin].
  rewrite IH by done.
  destruct (user_labels !! k); [by rewrite lookup_insert_ne|done].
Qed.

Lemma map_by_order_lookup k workspace_ids user_labels m i ws_id user_label :
  NoDup workspace_ids ->
  workspace_ids !! i = Some ws_id ->
  user_labels !! (k + i)%nat = Some user_label ->
  map_by_order k workspace_ids user_labels m !! ws_id = Some user_label.
Proof.
  revert k i m. induction workspace_ids as [|w ws IH]; intros k i m Hnd Hw Hu;
    [done|].
  apply NoDup_cons in Hnd as [Hw_notin Hnd]. destruct i as [|i]; simpl in *.
  - injection Hw as ->. rewrite Nat.add_0_r in Hu. rewrite Hu.
    rewrite map_by_order_not_elem_of by done. apply lookup_insert_eq.
  - eapply IH; [done|exact Hw|].
    by replace (S k + i)%nat with (k + S i)%nat by lia.
Qed.

(** C6.  When method 1 links no workspace to a user, the identity map is
    the positional pairing of the sorted distinct workspace identifiers
    with the sorted distinct user labels, whatever the order of the rows
    of the query-log and login-event tables: the [i]-th workspace is
    mapped to the [i]-th label, two labels and two workspaces give the
    map [w0 -> u0, w1 -> u1], and the sessions of the mapping carry the
    label of their workspace. *)
Theorem positional_fallback_deterministic
    (e e' : list LoginEvent) (q q' : list QueryLog) :
  e' ≡ₚ e -> q' ≡ₚ q ->
  let user_labels := sorted (unique (map q_user_label q)) in
  let workspace_ids := sorted (unique (map workspaceId e)) in
  link_by_instance q user_labels workspace_ids = ∅ ->
  build_workspace_user_map e' q' = map_by_order 0 workspace_ids user_labels ∅
  /\ (forall i ws_id user_label,
        workspace_ids !! i = Some ws_id -> user_labels !! i = Some user_label ->
        build_workspace_user_map e' q' !! ws_id = Some user_label)
  /\ (forall u0 u1 w0 w1,
        user_labels = [u0; u1] -> workspace_ids = [w0; w1] ->
        build_workspace_user_map e' q' = <[w1 := u1]> (<[w0 := u0]> ∅))
  /\ (forall (S : PandasSort) self self' sessions s i user_label,
        eventbridge_df self = Some e' -> query_logs_df self = Some q' ->
        generate_user_vm_mapping self = Ok (self', sessions) -> s ∈ sessions ->
        workspace_ids !! i = Some (Workspace_ID s) ->
        user_labels !! i = Some user_label ->
        User s = user_label).
Proof.
  intros He Hq user_labels workspace_ids Hempty.
  assert (Hmap : build_workspace_user_map e' q'
                 = map_by_order 0 workspace_ids user_labels ∅).
  { unfold build_workspace_user_map.
    rewrite (sorted_unique_Permutation q_user_label q' q Hq).
    rewrite (sorted_unique_Permutation workspaceId e' e He).
    fold user_labels workspace_ids.
    rewrite decide_True; [done|].
    apply link_by_instance_empty, (no_linkage_Permutation q); [done|].
    by apply link_by_instance_empty. }
  assert (Hlookup : forall i ws_id user_label,
            workspace_ids !! i = Some ws_id -> user_labels !! i = Some user_label ->
            build_workspace_user_map e' q' !! ws_id = Some user_label).
  { intros i ws_id user_label Hw Hu. rewrite Hmap.
    eapply map_by_order_lookup; [apply NoDup_sorted_unique|exact Hw|exact Hu]. }
  split_and!; [done|done|..].
  - intros u0 u1 w0 w1 Hus Hws. rewrite Hmap, Hus, Hws. reflexivity.
  - intros S self self' sessions s i user_label He' Hq' Hg Hs Hw Hu.
    destruct (generate_user_vm_mapping_sessions _ _ _ _ Hg Hs)
      as (e0 & event & He0 & _ & Hwid & Huser & _).
    rewrite He' in He0. injection He0 as <-.
    unfold resolved_users in Huser. rewrite Hq' in Huser.
    rewrite Hwid in Hw. by rewrite Huser, (Hlookup _ _ _ Hw Hu).
Qed.

Lemma positional_fallback_deterministic_witness :
  build_workspace_user_map (reverse two_logins) (reverse two_users) !! "ws-a"
  = Some "USER_A"
  /\ build_workspace_user_map (reverse two_logins) (reverse two_users) !! "ws-b"
     = Some "USER_B"
  /\ build_workspace_user_map two_logins two_users
     = <["ws-b" := "USER_B"]> (<["ws-a" := "USER_A"]> ∅).
Proof.
  destruct (positional_fallback_deterministic two_logins (reverse two_logins)
              two_users (reverse two_users))
    as (_ & Hlookup & _); [apply reverse_Permutation..|reflexivity|].
  destruct (positional_fallback_deterministic two_logins two_logins
              two_users two_users)
    as (_ & _ & Htwo & _); [done..|reflexivity|].
  split_and!.
  - by apply (Hlookup 0%nat).
  - by apply (Hlookup 1%nat).
  - by apply Htwo.
Defined.

End IdentityResolution.

(** ** AWS: the exfiltration detector *)

Section Exfiltration.
Import AWSCorrelator.
Context `{PandasStats}.

Lemma flat_map_const_guard {A B} (b : bool) (f : A -> B) (l : list A) :
  flat_map (fun x => if b then [f x] else []) l = if b then map f l else [].
Proof.
  destruct b; induction l as [|x l IH]; simpl; [done| |done|done].
  by rewrite IH.
Qed.

Lemma exfil_query_guard vpc user_label query :
  exfil_query vpc user_label query
  = if bool_decide (100000 < https_total vpc user_label)
    then [exfil_activity user_label (https_total vpc user_label) query]
    else [].
Proof.
  unfold exfil_query, https_total. destruct vpc as [v|]; [|done].
  destruct (port_traffic 443 (user_flows user_label v)) as [|f fs] eqn:Hf.
  - rewrite decide_False by (simpl; lia).
    rewrite bool_decide_eq_false_2; [done|]. unfold sum_bytes. simpl. lia.
  - rewrite decide_True by (simpl; lia).
    case_decide; [by rewrite bool_decide_eq_true_2|by rewrite bool_decide_eq_false_2].
Qed.

Lemma exfil_domain_pair vpc q user_label domain :
  exfil_domain vpc user_label (filter (fun r => q_user_label r = user_label) q) domain
  = if bool_decide (100000 < https_total vpc user_label)
    then map (exfil_activity user_label (https_total vpc user_label))
             (matching_queries q user_label domain)
    else [].
Proof.
  unfold exfil_domain. fold (matching_queries q user_label domain).
  rewrite (flat_map_ext _ _ (exfil_query_guard vpc user_label)).
  rewrite flat_map_const_guard.
  destruct (matching_queries q user_label domain) as [|r rs].
  - rewrite decide_False by (simpl; lia). by destruct (bool_decide _).
  - by rewrite decide_True by (simpl; lia).
Qed.

Lemma detect_data_exfiltration_pairs self q :
  query_logs_df self = Some q ->
  detect_data_exfiltration self
  = flat_map (fun user_label =>
                flat_map (fun domain =>
                            if bool_decide (100000 < https_total (vpc_logs_df self) user_label)
                            then map (exfil_activity user_label
                                        (https_total (vpc_logs_df self) user_label))
                                     (matching_queries q user_label domain)
                            else [])
                         cloud_storage_domains)
             (sorted (unique (map q_user_label q))).
Proof.
  intros Hq. unfold detect_data_exfiltration, groupby. rewrite Hq.
  rewrite flat_map_concat_map, map_map, <- flat_map_concat_map.
  apply flat_map_ext. intros user_label. cbn [fst snd].
  apply flat_map_ext. intros domain. apply exfil_domain_pair.
Qed.

(** A filter that does not look at what [g] changes commutes with [g]. *)
Lemma filter_map_invariant {A} (P : A -> Prop) `{!forall x, Decision (P x)}
    (g : A -> A) (l : list A) :
  (forall x, P (g x) <-> P x) -> filter P (map g l) = map g (filter P l).
Proof.
  intros Hg. induction l as [|x l IH]; [done|].
  cbn [map]. rewrite !filter_cons.
  destruct (decide (P x)) as [Hx|Hx].
  - rewrite decide_True by (by apply Hg). cbn [map]. by rewrite IH.
  - by rewrite decide_False by (by rewrite Hg).
Qed.

(** The total does not look at the instants of the flows. *)
Lemma https_total_at_time (v : list Flow) (moved : Flow -> Z) user_label :
  https_total (Some (map (fun f => at_time f (moved f)) v)) user_label
  = https_total (Some v) user_label.
Proof.
  unfold https_total, port_traffic, user_flows, sum_bytes. f_equal.
  rewrite !filter_map_invariant by done.
  induction (filter _ (filter _ v)) as [|f fs IH]; [done|].
  rewrite map_cons. simpl. change (list_omap Flow Z) with (@omap list _ Flow Z).
  by rewrite IH.
Qed.

End Exfiltration.

(** ** Groups by key *)

Lemma elem_of_sorted (l : list string) x : x ∈ sorted l <-> x ∈ l.
Proof. unfold sorted. by rewrite merge_sort_Permutation. Qed.

Lemma elem_of_groupby_intro {A} (key : A -> string) (l : list A) x :
  x ∈ l -> (key x, filter (fun r => key r = key x) l) ∈ groupby key l.
Proof.
  intros Hx. unfold groupby. apply list_elem_of_fmap. exists (key x).
  split; [done|]. apply elem_of_sorted, elem_of_unique.
  apply list_elem_of_fmap. by exists x.
Qed.

Lemma elem_of_groupby_opt_intro {A} (key : A -> option string) (l : list A) x k :
  x ∈ l -> key x = Some k ->
  (k, filter (fun r => key r = Some k) l) ∈ groupby_opt key l.
Proof.
  intros Hx Hk. unfold groupby_opt. apply list_elem_of_fmap. exists k.
  split; [done|]. apply elem_of_sorted, elem_of_unique.
  apply list_elem_of_omap. by exists x.
Qed.

(** ** AWS: the beaconing detector *)

Section Beaconing.
Import AWSCorrelator.
Context `{PandasSort} `{PandasStats}.

Lemma length_diff (l : list Z) : length (diff l) = pred (length l).
Proof.
  induction l as [|x [|y l] IH]; [done..|].
  change (diff (x :: y :: l)) with ((y - x) :: diff (y :: l)).
  simpl in *. by rewrite IH.
Qed.

Lemma length_sorted_timestamps query_group :
  length (sorted_timestamps query_group) = length query_group.
Proof.
  unfold sorted_timestamps.
  by rewrite (Permutation_length (sort_values_Permutation id _)), length_map.
Qed.

(** A group of [n] queries has at most [n - 1] intervals. *)
Lemma length_intervals query_group :
  (length (intervals query_group) <= pred (length query_group))%nat.
Proof.
  unfold intervals. etrans; [apply length_filter|].
  by rewrite length_map, length_diff, length_sorted_timestamps.
Qed.

Lemma is_periodic_nan avg interval_threshold :
  is_periodic avg nan interval_threshold = false.
Proof. unfold is_periodic. apply andb_false_r. Qed.

(** What the loop body does for a domain that is neither excluded nor a
    suspicious literal, under the defaults: the test on the statistics
    decides. *)
Lemma beacon_group_default user_label query_name query_group :
  is_excluded query_name = false ->
  is_suspicious_pattern query_name = false ->
  intervals query_group <> [] ->
  beacon_group default_interval_threshold default_min_occurrences
               user_label query_name query_group
  = if is_periodic (mean (intervals query_group)) (std (intervals query_group))
                   default_interval_threshold
    then [beacon_activity user_label query_name (length query_group)
            (List.hd 0 (sorted_timestamps query_group))
            (List.last (sorted_timestamps query_group) 0)
            (Seconds (round2 (mean (intervals query_group))))
            (Seconds (round2 (std (intervals query_group))))]
    else [].
Proof.
  intros Hex Hsus Hints. unfold beacon_group. rewrite Hex, Hsus.
  pose proof (length_intervals query_group) as Hlen.
  destruct (intervals query_group) as [|x xs] eqn:Hi; [done|].
  simpl in Hlen. unfold default_min_occurrences.
  rewrite decide_False by lia. by rewrite decide_True by (simpl; lia).
Qed.

(** Fewer than three queries never make a periodic row. *)
Lemma beacon_group_fewer_than_three interval_threshold min_occurrences
    user_label query_name query_group :
  is_excluded query_name = false ->
  is_suspicious_pattern query_name = false ->
  (length query_group < 3)%nat ->
  beacon_group interval_threshold min_occurrences user_label query_name query_group
  = [].
Proof.
  intros Hex Hsus Hshort. unfold beacon_group. rewrite Hex, Hsus.
  case_decide; [done|]. case_decide; [|done].
  pose proof (length_intervals query_group) as Hlen.
  rewrite (std_ddof (intervals query_group)) by lia.
  by rewrite is_periodic_nan.
Qed.

(** Every row of the loop body is a row of its group. *)
Lemma beacon_group_elem_of interval_threshold min_occurrences
    user_label query_name query_group a :
  a ∈ beacon_group interval_threshold min_occurrences user_label query_name query_group ->
  activity_type a = Periodic_Domain_Query /\ a_user a = user_label /\
  domain a = Some query_name /\ is_excluded query_name = false.
Proof.
  unfold beacon_group.
  destruct (is_excluded query_name); [by intros ?%elem_of_nil|].
  destruct (is_suspicious_pattern query_name).
  - destruct (sorted_timestamps query_group); [by intros ?%elem_of_nil|].
    by intros ->%list_elem_of_singleton.
  - case_decide; [by intros ?%elem_of_nil|].
    case_decide; [|by intros ?%elem_of_nil].
    destruct (is_periodic _ _ _); [|by intros ?%elem_of_nil].
    by intros ->%list_elem_of_singleton.
Qed.

(** The rows of the detector are the rows of its groups. *)
Lemma detect_c2_beaconing_elem_of self q interval_threshold min_occurrences a :
  query_logs_df self = Some q ->
  a ∈ detect_c2_beaconing self interval_threshold min_occurrences ->
  exists user_label name,
    a ∈ beacon_group interval_threshold min_occurrences user_label name
          (filter (fun r => query_name r = Some name)
                  (filter (fun r => q_user_label r = user_label) q)).
Proof.
  intros Hq. unfold detect_c2_beaconing. rewrite Hq.
  intros (ug & Hug & Ha)%list_elem_of_In%in_flat_map.
  apply in_flat_map in Ha as (qg & Hqg & Ha).
  apply list_elem_of_In in Hug, Hqg, Ha.
  apply elem_of_groupby in Hug. apply elem_of_groupby_opt in Hqg.
  rewrite Hqg, Hug in Ha. by exists ug.1, qg.1.
Qed.

(** The rows of the detector for one user and one domain are the rows of
    the loop body on the queries of that user for that domain. *)
Lemma detect_c2_beaconing_group self q interval_threshold min_occurrences
    user_label name a :
  query_logs_df self = Some q ->
  a ∈ detect_c2_beaconing self interval_threshold min_occurrences /\
  a_user a = user_label /\ domain a = Some name
  <-> a ∈ beacon_group interval_threshold min_occurrences user_label name
            (filter (fun r => query_name r = Some name)
                    (filter (fun r => q_user_label r = user_label) q)).
Proof.
  intros Hq. split.
  - intros (Ha & Hu & Hd).
    destruct (detect_c2_beaconing_elem_of _ _ _ _ _ Hq Ha) as (u & n & Hin).
    destruct (beacon_group_elem_of _ _ _ _ _ _ Hin) as (_ & Hu' & Hd' & _).
    assert (u = user_label) as -> by congruence.
    assert (n = name) as -> by congruence. done.
  - intros Ha.
    destruct (beacon_group_elem_of _ _ _ _ _ _ Ha) as (_ & Hu & Hd & _).
    split; [|done].
    set (user_group := filter (fun r => q_user_label r = user_label) q) in *.
    assert (exists r, r ∈ filter (fun r => query_name r = Some name) user_group)
      as [r Hr].
    { destruct (filter (fun r => query_name r = Some name) user_group)
        as [|r rest] eqn:Hg; [|exists r; by left].
      exfalso. revert Ha. unfold beacon_group.
      destruct (is_excluded name); [by intros ?%elem_of_nil|].
      assert (sorted_timestamps [] = []) as Hnil.
      { apply length_zero_iff_nil. by rewrite length_sorted_timestamps. }
      destruct (is_suspicious_pattern name).
      - rewrite Hnil. by intros ?%elem_of_nil.
      - case_decide; [by intros ?%elem_of_nil|].
        pose proof (length_intervals []) as Hlen. simpl in Hlen.
        rewrite decide_False by lia. by intros ?%elem_of_nil. }
    apply list_elem_of_filter in Hr as [Hname Hr].
    assert (Hrq := Hr). apply list_elem_of_filter in Hrq as [Hul Hrq].
    unfold detect_c2_beaconing. rewrite Hq.
    apply list_elem_of_In, in_flat_map.
    exists (user_label, user_group). split.
    { apply list_elem_of_In. rewrite <- Hul.
      unfold user_group. rewrite <- Hul.
      by apply (elem_of_groupby_intro q_user_label q r). }
    apply in_flat_map.
    exists (name, filter (fun r => query_name r = Some name) user_group). split.
    { apply list_elem_of_In.
      by apply (elem_of_groupby_opt_intro query_name user_group r). }
    by apply list_elem_of_In.
Qed.

(** C5.  Under the default thresholds a group whose domain is neither on
    the allow-list nor a c2-server literal gets a 'Periodic Domain Query'
    row exactly when its mean interval is at most 100 seconds and the
    standard deviation of its intervals is below 10 seconds: it does at a
    mean of 100 with a deviation of 9.99, and does not at a mean of 100.01
    or at a deviation of 10.0.  This holds of the loop body and of the
    detector: when the group is the queries of a user for a domain in the
    query log, the rows of [detect_c2_beaconing] for that user and that
    domain are the rows of the loop body on the group, so the row is in
    the result of the detector in the first case and the result holds no
    row for that user and that domain in the other two. *)
Theorem beaconing_threshold_boundary user_label query_name query_group :
  is_excluded query_name = false ->
  is_suspicious_pattern query_name = false ->
  intervals query_group <> [] ->
  let avg_interval := mean (intervals query_group) in
  let std_interval := std (intervals query_group) in
  let found := beacon_group default_interval_threshold default_min_occurrences
                            user_label query_name query_group in
  (found <> [] <->
   ((avg_interval <=? 100)%float && (std_interval <? 10)%float = true))
  /\ (forall a, a ∈ found ->
        activity_type a = Periodic_Domain_Query /\ a_user a = user_label /\
        domain a = Some query_name)
  /\ (avg_interval = 100%float -> std_interval = 9.99%float ->
      found = [beacon_activity user_label query_name (length query_group)
                 (List.hd 0 (sorted_timestamps query_group))
                 (List.last (sorted_timestamps query_group) 0)
                 (Seconds (round2 100)) (Seconds (round2 9.99))])
  /\ (avg_interval = 100.01%float -> found = [])
  /\ (std_interval = 10%float -> found = [])
  /\ (forall self q,
        query_logs_df self = Some q ->
        query_group = queries_for q user_label query_name ->
        let detected :=
          detect_c2_beaconing self default_interval_threshold
                              default_min_occurrences in
        (forall a, a ∈ detected /\ a_user a = user_label /\
                   domain a = Some query_name <-> a ∈ found)
        /\ (avg_interval = 100%float -> std_interval = 9.99%float ->
            beacon_activity user_label query_name (length query_group)
              (List.hd 0 (sorted_timestamps query_group))
              (List.last (sorted_timestamps query_group) 0)
              (Seconds (round2 100)) (Seconds (round2 9.99)) ∈ detected)
        /\ (avg_interval = 100.01%float ->
            forall a, a ∈ detected ->
                      ~ (a_user a = user_label /\ domain a = Some query_name))
        /\ (std_interval = 10%float ->
            forall a, a ∈ detected ->
                      ~ (a_user a = user_label /\ domain a = Some query_name))).
Proof.
  intros Hex Hsus Hints avg_interval std_interval found.
  assert (Hfound : found = if is_periodic avg_interval std_interval 100
                           then [beacon_activity user_label query_name
                                   (length query_group)
                                   (List.hd 0 (sorted_timestamps query_group))
                                   (List.last (sorted_timestamps query_group) 0)
                                   (Seconds (round2 avg_interval))
                                   (Seconds (round2 std_interval))]
                           else [])
    by (by apply beacon_group_default).
  split_and!.
  - rewrite Hfound. unfold is_periodic.
    by destruct ((avg_interval <=? 100)%float && (std_interval <? 10)%float).
  - intros a. rewrite Hfound. destruct (is_periodic _ _ _).
    + by intros ->%list_elem_of_singleton.
    + by intros ?%elem_of_nil.
  - intros Havg Hstd. by rewrite Hfound, Havg, Hstd.
  - intros Havg. by rewrite Hfound, Havg.
  - intros Hstd. rewrite Hfound, Hstd. unfold is_periodic. by rewrite andb_false_r.
  - intros self q Hq Hgroup detected.
    assert (Hrows : forall a, a ∈ detected /\ a_user a = user_label /\
                              domain a = Some query_name <-> a ∈ found).
    { intros a. unfold detected, found. rewrite Hgroup.
      by apply detect_c2_beaconing_group. }
    split_and!.
    + exact Hrows.
    + intros Havg Hstd. apply Hrows. rewrite Hfound, Havg, Hstd. by left.
    + intros Havg a Ha Hrow. assert (a ∈ found) as Hin by (by apply Hrows).
      rewrite Hfound, Havg in Hin. by apply elem_of_nil in Hin.
    + intros Hstd a Ha Hrow. assert (a ∈ found) as Hin by (by apply Hrows).
      rewrite Hfound, Hstd in Hin. unfold is_periodic in Hin.
      rewrite andb_false_r in Hin. by apply elem_of_nil in Hin.
Qed.

(** C10.  A group of fewer than three queries, for a domain that is neither
    on the allow-list nor a c2-server literal, gets no 'Periodic Domain
    Query' row, whatever the interval threshold and the minimum number of
    occurrences: it has at most one interval, the sample standard
    deviation of at most one value is NaN, and [NaN < 10] is false.  So
    every row of the detector is for a c2-server literal or for a user and
    a domain with three queries or more. *)
Theorem beaconing_needs_three_queries :
  (forall interval_threshold min_occurrences user_label query_name query_group,
     is_excluded query_name = false ->
     is_suspicious_pattern query_name = false ->
     (length query_group < 3)%nat ->
     beacon_group interval_threshold min_occurrences
                  user_label query_name query_group = []
     /\ (length (intervals query_group) <= 1)%nat
     /\ std (intervals query_group) = nan
     /\ (std (intervals query_group) <? 10)%float = false)
  /\ (forall self q interval_threshold min_occurrences a,
        query_logs_df self = Some q ->
        a ∈ detect_c2_beaconing self interval_threshold min_occurrences ->
        exists name,
          domain a = Some name /\
          (is_suspicious_pattern name = true \/
           (3 <= length (filter (fun r => query_name r = Some name)
                           (filter (fun r => q_user_label r = a_user a) q)))%nat)).
Proof.
  split.
  - intros interval_threshold min_occurrences user_label query_name query_group
           Hex Hsus Hshort.
    pose proof (length_intervals query_group) as Hlen.
    assert (Hone : (length (intervals query_group) <= 1)%nat) by lia.
    split_and!; [by apply beacon_group_fewer_than_three|done|by apply std_ddof|].
    by rewrite (std_ddof _ Hone).
  - intros self q interval_threshold min_occurrences a Hq Ha.
    destruct (detect_c2_beaconing_elem_of _ _ _ _ _ Hq Ha)
      as (user_label & name & Hin).
    destruct (beacon_group_elem_of _ _ _ _ _ _ Hin) as (_ & Hu & Hd & Hex).
    exists name. split; [done|]. rewrite Hu.
    destruct (is_suspicious_pattern name) eqn:Hsus; [by left|right].
    destruct (decide (3 <= length (filter (fun r => query_name r = Some name)
                (filter (fun r => q_user_label r = user_label) q)))%nat)
      as [|Hshort]; [done|].
    rewrite beacon_group_fewer_than_three in Hin by (done || lia).
    by apply elem_of_nil in Hin.
Qed.

End Beaconing.

Lemma beaconing_threshold_boundary_witness :
  AWSCorrelator.detect_c2_beaconing (H := stable_PandasSort)
    (H0 := two_pass_PandasStats) (watched paced_queries)
    AWSCorrelator.default_interval_threshold AWSCorrelator.default_min_occurrences
  = [AWSCorrelator.beacon_activity "USER_A" "tracker.example.net" 4
       new_year_2025 (new_year_2025 + 300000000000)
       (AWSCorrelator.Seconds 100) (AWSCorrelator.Seconds 9.99)]
  /\ AWSCorrelator.beacon_activity "USER_A" "tracker.example.net" 4
       new_year_2025 (new_year_2025 + 300000000000)
       (AWSCorrelator.Seconds 100) (AWSCorrelator.Seconds 9.99)
     ∈ AWSCorrelator.detect_c2_beaconing (H := stable_PandasSort)
         (H0 := two_pass_PandasStats) (watched paced_queries)
         AWSCorrelator.default_interval_threshold
         AWSCorrelator.default_min_occurrences
  /\ (mean (PandasStats := two_pass_PandasStats)
        (AWSCorrelator.intervals (H := stable_PandasSort)
           (H0 := two_pass_PandasStats) loose_queries) <=? 100)%float = true
  /\ (forall a,
        a ∈ AWSCorrelator.detect_c2_beaconing (H := stable_PandasSort)
              (H0 := two_pass_PandasStats) (watched loose_queries)
              AWSCorrelator.default_interval_threshold
              AWSCorrelator.default_min_occurrences ->
        ~ (AWSCorrelator.a_user a = "USER_A" /\
           AWSCorrelator.domain a = Some "tracker.example.net"))
  /\ (length late_queries = 3%nat /\
      (std (PandasStats := two_pass_PandasStats)
         (AWSCorrelator.intervals (H := stable_PandasSort)
            (H0 := two_pass_PandasStats) late_queries) <? 10)%float = true)
  /\ (forall a,
        a ∈ AWSCorrelator.detect_c2_beaconing (H := stable_PandasSort)
              (H0 := two_pass_PandasStats) (watched late_queries)
              AWSCorrelator.default_interval_threshold
              AWSCorrelator.default_min_occurrences ->
        ~ (AWSCorrelator.a_user a = "USER_A" /\
           AWSCorrelator.domain a = Some "tracker.example.net"))
  /\ AWSCorrelator.detect_c2_beaconing (H := stable_PandasSort)
       (H0 := two_pass_PandasStats) (watched loose_queries)
       AWSCorrelator.default_interval_threshold
       AWSCorrelator.default_min_occurrences = []
  /\ AWSCorrelator.detect_c2_beaconing (H := stable_PandasSort)
       (H0 := two_pass_PandasStats) (watched late_queries)
       AWSCorrelator.default_interval_threshold
       AWSCorrelator.default_min_occurrences = [].
Proof.
  split_and!; [| | | | | | |by vm_compute..].
  - by vm_compute.
  - destruct (@beaconing_threshold_boundary stable_PandasSort two_pass_PandasStats
                "USER_A" "tracker.example.net" paced_queries)
      as (_ & _ & _ & _ & _ & Hrows); [reflexivity|reflexivity|by vm_compute|].
    destruct (Hrows (watched paced_queries) _ eq_refl) as (_ & Hflag & _);
      [by vm_compute|].
    assert (Hrow := Hflag ltac:(by vm_compute) ltac:(by vm_compute)).
    revert Hrow. by vm_compute.
  - by vm_compute.
  - destruct (@beaconing_threshold_boundary stable_PandasSort two_pass_PandasStats
                "USER_A" "tracker.example.net" loose_queries)
      as (_ & _ & _ & _ & _ & Hrows); [reflexivity|reflexivity|by vm_compute|].
    destruct (Hrows (watched loose_queries) _ eq_refl) as (_ & _ & _ & Hstd);
      [by vm_compute|].
    apply Hstd. by vm_compute.
  - reflexivity.
  - by vm_compute.
  - destruct (@beaconing_threshold_boundary stable_PandasSort two_pass_PandasStats
                "USER_A" "tracker.example.net" late_queries)
      as (_ & _ & _ & _ & _ & Hrows); [reflexivity|reflexivity|by vm_compute|].
    destruct (Hrows (watched late_queries) _ eq_refl) as (_ & _ & Hmean & _);
      [by vm_compute|].
    apply Hmean. by vm_compute.
Defined.

Lemma beaconing_needs_three_queries_witness :
  AWSCorrelator.beacon_group (H := stable_PandasSort) (H0 := two_pass_PandasStats)
    AWSCorrelator.default_interval_threshold AWSCorrelator.default_min_occurrences
    "USER_A" "tracker.example.net" slow_queries = []
  /\ AWSCorrelator.beacon_group (H := stable_PandasSort) (H0 := two_pass_PandasStats)
       1000 0 "USER_A" "tracker.example.net" slow_queries = [].
Proof.
  destruct (@beaconing_needs_three_queries stable_PandasSort two_pass_PandasStats)
    as [Hshort _].
  split.
  - apply Hshort; [reflexivity|reflexivity|simpl; lia].
  - apply Hshort; [reflexivity|reflexivity|simpl; lia].
Defined.

(** ** AWS: the exfiltration rows of a run *)

Section ExfiltrationRows.
Import AWSCorrelator.
Context `{PandasSort} `{PandasStats}.

Lemma scenario_beaconing :
  detect_c2_beaconing Scenario.aws default_interval_threshold default_min_occurrences
  = [].
Proof.
  unfold detect_c2_beaconing. cbn [query_logs_df Scenario.aws].
  change (groupby q_user_label [Scenario.aws_query])
    with [("USER_A", [Scenario.aws_query])].
  cbn [flat_map fst snd].
  change (groupby_opt query_name [Scenario.aws_query])
    with [("drive.google.com", [Scenario.aws_query])].
  cbn [flat_map fst snd]. rewrite !app_nil_r.
  apply beacon_group_fewer_than_three; [reflexivity|reflexivity|simpl; lia].
Qed.

Lemma scenario_exfiltration :
  detect_data_exfiltration Scenario.aws
  = [exfil_activity "USER_A" 500000 Scenario.aws_query].
Proof.
  rewrite (detect_data_exfiltration_pairs Scenario.aws [Scenario.aws_query] eq_refl).
  reflexivity.
Qed.

(** C2, amended.  The exfiltration detector works pair by pair: for a user
    and a cloud-storage domain it emits one 'Domain Access Timeline' row
    per query row of the user that matches the domain, when the bytes of
    the user's flows to destination port 443 in the loaded flow table,
    whatever their instants, add up to more than 100000, and no row
    otherwise; the detector's table is the concatenation of these rows
    over the users and the domains.  In the scenario (one login for
    [ws-1], one query of [USER_A] for [drive.google.com], one flow of
    [USER_A] to port 443 with 500000 bytes) all detectors together produce
    exactly one row, a 'Domain Access Timeline' row of [USER_A] for
    [drive.google.com]. *)
Theorem exfiltration_per_matching_query :
  (forall self q,
     query_logs_df self = Some q ->
     detect_data_exfiltration self
     = flat_map (fun user_label =>
                   flat_map (fun storage_domain =>
                               exfil_domain (vpc_logs_df self) user_label
                                 (filter (fun r => q_user_label r = user_label) q)
                                 storage_domain)
                            cloud_storage_domains)
                (sorted (unique (map q_user_label q))))
  /\ (forall vpc q user_label storage_domain,
        let matching := matching_queries q user_label storage_domain in
        let total := https_total vpc user_label in
        let found := exfil_domain vpc user_label
                       (filter (fun r => q_user_label r = user_label) q)
                       storage_domain in
        found = (if bool_decide (100000 < total)
                 then map (exfil_activity user_label total) matching else [])
        /\ length found = (if bool_decide (100000 < total)
                           then length matching else 0%nat)
        /\ (matching <> [] -> (length found = length matching <-> 100000 < total))
        /\ (forall a, a ∈ found ->
              activity_type a = Domain_Access_Timeline /\ a_user a = user_label /\
              exists r, r ∈ matching /\ domain a = query_name r))
  /\ (forall v (moved : Flow -> Z) user_label,
        https_total (Some (map (fun f => at_time f (moved f)) v)) user_label
        = https_total (Some v) user_label)
  /\ (detect_all_activities Scenario.aws).2
     = [exfil_activity "USER_A" 500000 Scenario.aws_query]
  /\ (activity_type (exfil_activity "USER_A" 500000 Scenario.aws_query)
      = Domain_Access_Timeline
      /\ a_user (exfil_activity "USER_A" 500000 Scenario.aws_query) = "USER_A"
      /\ domain (exfil_activity "USER_A" 500000 Scenario.aws_query)
         = Some "drive.google.com").
Proof.
  split_and!.
  - intros self q Hq. unfold detect_data_exfiltration, groupby. rewrite Hq.
    by rewrite flat_map_concat_map, map_map, <- flat_map_concat_map.
  - intros vpc q user_label storage_domain matching total found.
    assert (Hfound : found = if bool_decide (100000 < total)
                             then map (exfil_activity user_label total) matching
                             else []) by apply exfil_domain_pair.
    split_and!; [done|..].
    + rewrite Hfound. case_bool_decide; [by rewrite length_map|done].
    + intros Hm. rewrite Hfound. case_bool_decide.
      * by rewrite length_map.
      * simpl. destruct matching; [done|]. simpl. split; [done|lia].
    + intros a. rewrite Hfound. case_bool_decide; [|by intros ?%elem_of_nil].
      intros (r & -> & Hr)%list_elem_of_fmap. split_and!; [done..|by exists r].
  - apply https_total_at_time.
  - unfold detect_all_activities. cbn [snd].
    rewrite scenario_beaconing, scenario_exfiltration. reflexivity.
  - reflexivity.
  - reflexivity.
  - reflexivity.
Qed.

End ExfiltrationRows.

(** C2, as stated, fails: the detector does not ask the flows to be
    concurrent with the query.  In [late_flow_run] no flow of [USER_A] to
    port 443 lies within a day of the query, the only flow is thirty days
    later, and the row is emitted all the same. *)
Lemma exfiltration_ignores_flow_time :
  flows_within (hours 24) [at_time Scenario.aws_flow (new_year_2025 + hours 720)]
               "USER_A" (AWSCorrelator.query_timestamp Scenario.aws_query) = []
  /\ AWSCorrelator.detect_data_exfiltration (H := two_pass_PandasStats) late_flow_run
     = [AWSCorrelator.exfil_activity (H := two_pass_PandasStats)
          "USER_A" 500000 Scenario.aws_query].
Proof. split; by vm_compute. Qed.

Lemma exfiltration_per_matching_query_witness :
  AWSCorrelator.detect_data_exfiltration (H := two_pass_PandasStats) Scenario.aws
  = [AWSCorrelator.exfil_activity (H := two_pass_PandasStats)
       "USER_A" 500000 Scenario.aws_query]
  /\ length (AWSCorrelator.detect_data_exfiltration (H := two_pass_PandasStats)
               Scenario.aws) = 1%nat.
Proof.
  destruct (@exfiltration_per_matching_query stable_PandasSort two_pass_PandasStats)
    as (Hrows & Hpair & _).
  rewrite (Hrows Scenario.aws [Scenario.aws_query] eq_refl).
  split; by vm_compute.
Defined.

(** * Further properties of the code *)

(** ** Deduplication: what [remove_duplicates] keeps *)

Lemma sublist_reverse {A} (l1 l2 : list A) :
  l1 `sublist_of` l2 -> reverse l1 `sublist_of` reverse l2.
Proof.
  induction 1 as [|x l1 l2 _ IH|x l1 l2 _ IH]; [done|..]; rewrite ?reverse_cons.
  - by apply sublist_app.
  - by apply sublist_inserts_r.
Qed.

Section KeptRows.
Context {A K : Type} `{EqDecision K} (key : A -> K).

Lemma drop_first_sublist seen l : drop_first key seen l `sublist_of` l.
Proof.
  revert seen. induction l as [|x l IH]; intros seen; simpl; [done|].
  destruct (decide (key x ∈ seen)).
  - by apply sublist_cons.
  - by apply sublist_skip.
Qed.

Lemma drop_duplicates_sublist keep l : drop_duplicates keep key l `sublist_of` l.
Proof.
  destruct keep; simpl.
  - apply drop_first_sublist.
  - rewrite <- (reverse_involutive l) at 2. apply sublist_reverse, drop_first_sublist.
  - apply sublist_filter.
Qed.

Lemma filter_once_NoDup (P : A -> Prop) `{!forall x, Decision (P x)} l :
  (forall x, x ∈ l -> P x ->
             (length (filter (fun y => key y = key x) l) <= 1)%nat) ->
  NoDup (map key (filter P l)).
Proof.
  induction l as [|a l IH]; intros Hone; [constructor|].
  assert (NoDup (map key (filter P l))) as Hrest.
  { apply IH. intros x Hx HP. specialize (Hone x (proj2 (elem_of_cons _ _ _) (or_intror Hx)) HP).
    rewrite filter_cons in Hone. destruct (decide (key a = key x)); simpl in Hone; lia. }
  rewrite filter_cons. destruct (decide (P a)) as [HP|]; [|done].
  simpl. apply NoDup_cons. split; [|done].
  intros (y & Hk & Hy)%list_elem_of_fmap.
  apply list_elem_of_filter in Hy as [_ Hy].
  specialize (Hone a (proj2 (elem_of_cons _ _ _) (or_introl eq_refl)) HP).
  rewrite filter_cons, decide_True in Hone by done. simpl in Hone.
  assert (y ∈ filter (fun z => key z = key a) l) as Hin
    by (by apply list_elem_of_filter).
  destruct (filter (fun z => key z = key a) l); [by apply elem_of_nil in Hin|].
  simpl in Hone. lia.
Qed.

Lemma drop_duplicates_NoDup keep l : NoDup (map key (drop_duplicates keep key l)).
Proof.
  destruct keep; simpl.
  - apply drop_first_NoDup.
  - change (NoDup (key <$> reverse (drop_first key [] (reverse l)))).
    rewrite fmap_reverse, reverse_Permutation. apply drop_first_NoDup.
  - apply filter_once_NoDup. intros x _ Hx. by rewrite Hx.
Qed.

Lemma elem_of_drop_first seen l x :
  x ∈ drop_first key seen l <->
  exists pre post, l = pre ++ x :: post /\ (key x ∉ seen) /\ (key x ∉ map key pre).
Proof.
  revert seen. induction l as [|y l IH]; intros seen; simpl.
  - split; [by intros ?%elem_of_nil|]. intros (pre & post & Heq & _).
    by destruct pre.
  - destruct (decide (key y ∈ seen)) as [Hin|Hout].
    + rewrite IH. split.
      * intros (pre & post & -> & Hs & Hp). exists (y :: pre), post.
        split_and!; [done..|]. simpl. intros [Hk|?]%elem_of_cons; [|done].
        apply Hs. by rewrite Hk.
      * intros (pre & post & Heq & Hs & Hp). destruct pre as [|z pre].
        { simpl in Heq. injection Heq as -> ->. done. }
        simpl in Heq. injection Heq as -> ->. exists pre, post.
        split_and!; [done..|]. intros Hk. apply Hp. simpl. by right.
    + rewrite elem_of_cons, IH. split.
      * intros [->|(pre & post & -> & Hs & Hp)].
        { exists [], l. split_and!; [done..|]. simpl. by intros ?%elem_of_nil. }
        exists (y :: pre), post. split_and!; [done| |].
        { intros Hk. apply Hs. by right. }
        simpl. intros [Hk|?]%elem_of_cons; [|done]. apply Hs. rewrite Hk. by left.
      * intros (pre & post & Heq & Hs & Hp). destruct pre as [|z pre].
        { simpl in Heq. injection Heq as -> ->. by left. }
        simpl in Heq. injection Heq as -> ->. right. exists pre, post.
        split_and!; [done| |].
        { intros [Hk|?]%elem_of_cons; [|done]. apply Hp. simpl. rewrite Hk. by left. }
        intros Hk. apply Hp. simpl. by right.
Qed.

Lemma elem_of_drop_last l x :
  x ∈ reverse (drop_first key [] (reverse l)) <->
  exists pre post, l = pre ++ x :: post /\ key x ∉ map key post.
Proof.
  rewrite elem_of_reverse, elem_of_drop_first. split.
  - intros (pre & post & Heq & _ & Hp). exists (reverse post), (reverse pre).
    split.
    + rewrite <- (reverse_involutive l), Heq, reverse_app, reverse_cons.
      by rewrite <- app_assoc.
    + change (key x ∉ key <$> reverse pre). rewrite fmap_reverse.
      by rewrite elem_of_reverse.
  - intros (pre & post & -> & Hp). exists (reverse post), (reverse pre).
    split_and!.
    + rewrite reverse_app, reverse_cons. by rewrite <- app_assoc.
    + by intros ?%elem_of_nil.
    + change (key x ∉ key <$> reverse post). rewrite fmap_reverse.
      by rewrite elem_of_reverse.
Qed.

End KeptRows.

Section RemoveDuplicates.
Import Deduplicator.

Lemma column_position_Some cols c i :
  column_position cols c = Some i -> cols !! i = Some c.
Proof.
  revert i. induction cols as [|c' cols IH]; intros i; simpl; [done|].
  destruct (decide (c' = c)) as [->|]; [by intros [= <-]|].
  destruct (column_position cols c) as [j|]; [|done].
  intros [= <-]. simpl. by apply IH.
Qed.

Lemma column_position_None cols c : column_position cols c = None <-> c ∉ cols.
Proof.
  induction cols as [|c' cols IH]; simpl.
  - split; [by intros _ ?%elem_of_nil|done].
  - destruct (decide (c' = c)) as [->|Hne].
    + split; [done|]. intros Hn. exfalso. apply Hn. by left.
    + rewrite not_elem_of_cons. destruct (column_position cols c); simpl.
      * split; [done|]. intros [_ Hn]. by apply IH in Hn.
      * split; [|done]. intros _. split; [done|]. by apply IH.
Qed.

Lemma column_lookup_Ok cols c i :
  column_lookup cols c = Ok i -> column_position cols c = Some i.
Proof.
  unfold column_lookup. destruct (column_position cols c); [|done].
  by intros [= <-].
Qed.

Lemma column_lookup_Raise cols c e :
  column_lookup cols c = Raise e -> e = KeyError c /\ c ∉ cols.
Proof.
  unfold column_lookup. destruct (column_position cols c) eqn:Hc; [done|].
  intros [= <-]. split; [done|]. by apply column_position_None.
Qed.

Lemma mapM_column_lookup_Ok cols subset ixs :
  mapM_result (column_lookup cols) subset = Ok ixs ->
  ixs = omap (column_position cols) subset.
Proof.
  revert ixs. induction subset as [|c cs IH]; intros ixs; simpl.
  - by intros [= <-].
  - unfold mbind, result_bind.
    destruct (column_lookup cols c) as [i|] eqn:Hc; [|done].
    apply column_lookup_Ok in Hc. rewrite Hc.
    destruct (mapM_result (column_lookup cols) cs) as [js|]; [|done].
    intros [= <-]. by rewrite (IH js eq_refl).
Qed.

Lemma mapM_column_lookup_Raise cols subset e :
  mapM_result (column_lookup cols) subset = Raise e ->
  exists c, e = KeyError c /\ c ∈ subset /\ c ∉ cols.
Proof.
  induction subset as [|c cs IH]; simpl; [done|].
  unfold mbind, result_bind.
  destruct (column_lookup cols c) as [i|e'] eqn:Hc.
  - destruct (mapM_result (column_lookup cols) cs) as [js|e'']; [done|].
    intros [= <-]. destruct (IH eq_refl) as (c' & -> & Hin & Hout).
    exists c'. split_and!; [done|by right|done].
  - intros [= <-]. apply column_lookup_Raise in Hc as [-> Hout].
    exists c. split_and!; [done|by left|done].
Qed.

Lemma remove_duplicates_rows df subset keep df' :
  remove_duplicates df subset keep = Ok df' ->
  columns df' = columns df /\
  rows df' = drop_duplicates keep (duplicate_key df subset) (rows df).
Proof.
  unfold remove_duplicates, duplicate_key. destruct subset as [[|c cs]|].
  - by intros [= <-].
  - destruct (mapM_result (column_lookup (columns df)) (c :: cs)) as [ixs|] eqn:Hm;
      [|done].
    simpl. intros [= <-]. simpl. by rewrite (mapM_column_lookup_Ok _ _ _ Hm).
  - by intros [= <-].
Qed.

(** X1.  Whatever the key columns and the [keep] mode, the table
    [remove_duplicates] returns has the columns of its input, its rows are
    rows of the input in their order and with their index labels (nothing
    is reordered or invented), and no two of them agree on the key. *)
Theorem remove_duplicates_kept_rows (df : DataFrame)
    (subset : option (list string)) (keep : Keep) (df' : DataFrame) :
  remove_duplicates df subset keep = Ok df' ->
  columns df' = columns df
  /\ rows df' `sublist_of` rows df
  /\ NoDup (map (duplicate_key df subset) (rows df'))
  /\ (removed_count df df' + length (rows df') = length (rows df))%nat.
Proof.
  intros [Hc Hr]%remove_duplicates_rows. rewrite Hr.
  split_and!; [done|apply drop_duplicates_sublist|apply drop_duplicates_NoDup|].
  unfold removed_count. rewrite Hr.
  pose proof (sublist_length _ _ (drop_duplicates_sublist (duplicate_key df subset)
                                    keep (rows df))).
  lia.
Qed.

Lemma remove_duplicates_kept_rows_witness :
  remove_duplicates repeated_request (Some ["Request ID"]) KeepLast
  = Ok {| columns := ["Request ID"; "User"];
          rows := [ {| label := 1; cells := [CStr "r-2"; CStr "bob"] |};
                    {| label := 2; cells := [CStr "r-1"; CStr "carol"] |} ] |}
  /\ NoDup (map (duplicate_key repeated_request (Some ["Request ID"]))
                [ {| label := 1; cells := [CStr "r-2"; CStr "bob"] |};
                  {| label := 2; cells := [CStr "r-1"; CStr "carol"] |} ]).
Proof.
  split; [reflexivity|].
  exact (proj1 (proj2 (proj2
    (remove_duplicates_kept_rows repeated_request (Some ["Request ID"]) KeepLast
       _ eq_refl)))).
Defined.

(** X2.  Which row of a group of duplicates survives: with [keep='first']
    a row is kept exactly when no earlier row has its key, with
    [keep='last'] exactly when no later row has it, and with [keep=False]
    exactly when it is the only row with its key, so that every row of a
    group of duplicates is dropped. *)
Theorem remove_duplicates_keep (df : DataFrame) (subset : option (list string))
    (keep : Keep) (df' : DataFrame) (r : Row) :
  remove_duplicates df subset keep = Ok df' ->
  r ∈ rows df' <->
  match keep with
  | KeepFirst =>
      exists pre post, rows df = pre ++ r :: post /\
        duplicate_key df subset r ∉ map (duplicate_key df subset) pre
  | KeepLast =>
      exists pre post, rows df = pre ++ r :: post /\
        duplicate_key df subset r ∉ map (duplicate_key df subset) post
  | KeepFalse =>
      r ∈ rows df /\
      length (filter (fun o => duplicate_key df subset o = duplicate_key df subset r)
                     (rows df)) = 1%nat
  end.
Proof.
  intros [_ Hr]%remove_duplicates_rows. rewrite Hr. destruct keep; simpl.
  - rewrite elem_of_drop_first. split.
    + intros (pre & post & ? & _ & ?). by exists pre, post.
    + intros (pre & post & ? & ?). exists pre, post.
      split_and!; [done|by intros ?%elem_of_nil|done].
  - apply elem_of_drop_last.
  - rewrite list_elem_of_filter. tauto.
Qed.

Lemma remove_duplicates_keep_witness :
  remove_duplicates repeated_request (Some ["Request ID"]) KeepFalse
  = Ok {| columns := ["Request ID"; "User"];
          rows := [ {| label := 1; cells := [CStr "r-2"; CStr "bob"] |} ] |}
  /\ {| label := 0; cells := [CStr "r-1"; CStr "alice"] |}
     ∉ [ {| label := 1; cells := [CStr "r-2"; CStr "bob"] |} ].
Proof.
  split; [reflexivity|].
  intros Hin.
  apply (remove_duplicates_keep repeated_request (Some ["Request ID"]) KeepFalse
           _ _ eq_refl) in Hin as [_ Hone].
  vm_compute in Hone. discriminate.
Defined.

(** X3.  [remove_duplicates] returns a table exactly when every key column
    it is given is a column of the table; otherwise it raises [KeyError],
    and it raises nothing else.  Without key columns ([None] or the empty
    list) it always returns. *)
Theorem remove_duplicates_KeyError (df : DataFrame)
    (subset : option (list string)) (keep : Keep) :
  ((exists df', remove_duplicates df subset keep = Ok df') <->
   (forall c, c ∈ key_columns subset -> c ∈ columns df))
  /\ (forall e, remove_duplicates df subset keep = Raise e ->
        exists c, e = KeyError c /\ c ∈ key_columns subset /\ c ∉ columns df).
Proof.
  unfold remove_duplicates, key_columns.
  destruct subset as [[|c cs]|]; cbn [default].
  - split; [|done]. split; [by intros _ c ?%elem_of_nil|by eexists].
  - destruct (mapM_result (column_lookup (columns df)) (c :: cs)) as [ixs|e] eqn:Hm;
      simpl.
    + split; [|done]. split; [|by eexists]. intros _ c' Hc'.
      apply mapM_result_Ok_Forall2 in Hm.
      destruct (decide (c' ∈ columns df)) as [|Hout]; [done|]. exfalso.
      apply list_elem_of_lookup in Hc' as [n Hn].
      destruct (Forall2_lookup_l _ _ _ n c' Hm Hn) as (j & _ & Hj).
      unfold column_lookup in Hj. apply column_position_None in Hout.
      by rewrite Hout in Hj.
    + apply mapM_column_lookup_Raise in Hm as (c' & -> & Hin & Hout).
      split.
      * split; [by intros [? ?]|]. intros Hall. by apply Hall in Hin.
      * intros e' [= <-]. by exists c'.
  - split; [|done]. split; [by intros _ c ?%elem_of_nil|by eexists].
Qed.

End RemoveDuplicates.

(** ** Deduplication: stacking tables without merge keys *)

Section Stacking.
Import Deduplicator.

Lemma merge_all_stack pd_merge merge_on how acc dfs :
  key_columns merge_on = [] ->
  merge_all pd_merge merge_on how acc dfs = Ok (foldl concat acc dfs).
Proof.
  intros Hk. revert acc. induction dfs as [|df dfs IH]; intros acc; simpl; [done|].
  destruct merge_on as [[|k ks]|]; [|done|]; simpl; apply IH.
Qed.

Lemma columns_concat a b c :
  c ∈ columns (concat a b) <-> c ∈ columns a \/ c ∈ columns b.
Proof.
  unfold concat. simpl. rewrite elem_of_app, list_elem_of_filter.
  destruct (decide (c ∈ columns a)); tauto.
Qed.

Lemma length_rows_concat a b :
  length (rows (concat a b)) = (length (rows a) + length (rows b))%nat.
Proof.
  unfold concat, reset_index. simpl.
  by rewrite length_imap, length_app, !length_map.
Qed.

Lemma columns_foldl_concat acc dfs c :
  c ∈ columns (foldl concat acc dfs) <->
  c ∈ columns acc \/ exists df, df ∈ dfs /\ c ∈ columns df.
Proof.
  revert acc. induction dfs as [|df dfs IH]; intros acc; simpl.
  - split; [by left|]. intros [?|(df & Hin & _)]; [done|].
    by apply elem_of_nil in Hin.
  - rewrite IH, columns_concat. split.
    + intros [[?|?]|(d & Hd & Hc)]; [by left| |].
      * right. exists df. split; [by left|done].
      * right. exists d. split; [by right|done].
    + intros [?|(d & Hd & Hc)]; [by left; left|].
      apply elem_of_cons in Hd as [->|Hd]; [by left; right|].
      right. by exists d.
Qed.

Lemma length_rows_foldl_concat acc dfs :
  length (rows (foldl concat acc dfs))
  = (length (rows acc) + sum_list (map (fun df => length (rows df)) dfs))%nat.
Proof.
  revert acc. induction dfs as [|df dfs IH]; intros acc; simpl; [lia|].
  rewrite IH, length_rows_concat. lia.
Qed.

(** X4.  Without merge keys ([merge_on] is [None] or the empty list)
    [merge_and_deduplicate] stacks the tables: it never raises, it does not
    use [pd.merge] nor look at [how], every column of every table is a
    column of the result, the result has no more rows than the tables have
    together and, from two tables on, it holds no row twice. *)
Theorem merge_and_deduplicate_stacks
    (pd_merge : DataFrame -> DataFrame -> list string -> How -> result DataFrame)
    (dfs : list DataFrame) (merge_on : option (list string)) (how : How) :
  key_columns merge_on = [] ->
  exists out,
    merge_and_deduplicate pd_merge dfs merge_on how = Ok out
    /\ (forall pd_merge' how',
          merge_and_deduplicate pd_merge' dfs merge_on how' = Ok out)
    /\ (forall df c, df ∈ dfs -> c ∈ columns df -> c ∈ columns out)
    /\ (length (rows out) <= sum_list (map (fun df => length (rows df)) dfs))%nat
    /\ ((2 <= length dfs)%nat -> NoDup (map cells (rows out))).
Proof.
  intros Hk. destruct dfs as [|df0 [|df1 rest]].
  - exists empty. split_and!; [done|done| |simpl; lia|simpl; lia].
    by intros df c ?%elem_of_nil.
  - exists df0. split_and!; [done|done| |simpl; lia|simpl; lia].
    intros df c Hdf%list_elem_of_singleton. by subst.
  - set (merged := foldl concat df0 (df1 :: rest)).
    exists {| columns := columns merged;
              rows := drop_duplicates KeepFirst cells (rows merged) |}.
    assert (forall m h, merge_and_deduplicate m (df0 :: df1 :: rest) merge_on h
              = Ok {| columns := columns merged;
                      rows := drop_duplicates KeepFirst cells (rows merged) |})
      as Hrun.
    { intros m h. unfold merge_and_deduplicate.
      by rewrite (merge_all_stack m merge_on h df0 (df1 :: rest) Hk). }
    split_and!.
    + apply Hrun.
    + intros m h. apply Hrun.
    + intros df c Hdf Hc. simpl. apply columns_foldl_concat.
      apply elem_of_cons in Hdf as [->|Hdf]; [by left|]. right. by exists df.
    + cbn [rows].
      pose proof (sublist_length _ _ (drop_duplicates_sublist cells KeepFirst (rows merged)))
        as Hle.
      unfold merged in Hle at 2. rewrite length_rows_foldl_concat in Hle.
      simpl in *. lia.
    + intros _. simpl. apply drop_first_NoDup.
Qed.

End Stacking.

Lemma merge_and_deduplicate_stacks_witness :
  Deduplicator.merge_and_deduplicate (fun _ _ _ _ => Raise (ValueError "unused"))
    [repeated_request; repeated_request] (Some []) Deduplicator.HowInner
  = Ok {| Deduplicator.columns := ["Request ID"; "User"];
          Deduplicator.rows :=
            [ {| Deduplicator.label := 0;
                 Deduplicator.cells := [CStr "r-1"; CStr "alice"] |};
              {| Deduplicator.label := 1;
                 Deduplicator.cells := [CStr "r-2"; CStr "bob"] |};
              {| Deduplicator.label := 2;
                 Deduplicator.cells := [CStr "r-1"; CStr "carol"] |} ] |}.
Proof.
  destruct (merge_and_deduplicate_stacks (fun _ _ _ _ => Raise (ValueError "unused"))
              [repeated_request; repeated_request] (Some []) Deduplicator.HowInner
              eq_refl) as (out & Hout & _).
  rewrite Hout. vm_compute in Hout. by injection Hout as <-.
Defined.

(** ** Deduplication: the normal form of user identifiers *)

Section StringFacts.

Lemma is_space_lower_ascii c : is_space (lower_ascii c) = is_space c.
Proof. by destruct c as [[] [] [] [] [] [] [] []]. Qed.

Lemma lower_ascii_idempotent c : lower_ascii (lower_ascii c) = lower_ascii c.
Proof. by destruct c as [[] [] [] [] [] [] [] []]. Qed.

Lemma lower_idempotent s : lower (lower s) = lower s.
Proof. induction s as [|c s IH]; simpl; [done|]. by rewrite lower_ascii_idempotent, IH. Qed.

Lemma append_nil (s : string) : EmptyString +:+ s = s.
Proof. reflexivity. Qed.

Lemma append_cons c (s1 s2 : string) : String c s1 +:+ s2 = String c (s1 +:+ s2).
Proof. reflexivity. Qed.

Lemma lstrip_lower s : lstrip (lower s) = lower (lstrip s).
Proof.
  induction s as [|c s IH]; simpl; [done|].
  rewrite is_space_lower_ascii. by destruct (is_space c).
Qed.

Lemma rstrip_lower s : rstrip (lower s) = lower (rstrip s).
Proof.
  induction s as [|c s IH]; simpl; [done|].
  rewrite IH, is_space_lower_ascii.
  destruct (rstrip s); simpl; [by destruct (is_space c)|done].
Qed.

Lemma strip_lower s : strip (lower s) = lower (strip s).
Proof. unfold strip. by rewrite lstrip_lower, rstrip_lower. Qed.

Lemma lstrip_head s :
  match lstrip s with
  | EmptyString => True
  | String c _ => is_space c = false
  end.
Proof.
  induction s as [|c s IH]; simpl; [done|].
  destruct (is_space c) eqn:Hc; [done|]. by simpl.
Qed.

Lemma rstrip_idempotent s : rstrip (rstrip s) = rstrip s.
Proof.
  induction s as [|c s IH]; simpl; [done|].
  destruct (rstrip s) as [|d r] eqn:Hr.
  - destruct (is_space c) eqn:Hc; simpl; [done|]. by rewrite Hc.
  - change (rstrip (String c (String d r))) with
      (match rstrip (String d r) with
       | EmptyString => if is_space c then EmptyString else String c EmptyString
       | r' => String c r'
       end).
    by rewrite IH.
Qed.

Lemma lstrip_rstrip_head s :
  match s with
  | EmptyString => True
  | String c _ => is_space c = false
  end ->
  lstrip (rstrip s) = rstrip s.
Proof.
  destruct s as [|c s]; simpl; [done|]. intros Hc.
  destruct (rstrip s); rewrite ?Hc; simpl; by rewrite Hc.
Qed.

Lemma strip_idempotent s : strip (strip s) = strip s.
Proof.
  unfold strip. rewrite lstrip_rstrip_head by apply lstrip_head.
  apply rstrip_idempotent.
Qed.

Lemma lstrip_blank s : blank s = true -> lstrip s = EmptyString.
Proof.
  induction s as [|c s IH]; simpl; [done|].
  intros [Hc Hs]%andb_prop. rewrite Hc. by apply IH.
Qed.

Lemma rstrip_blank s : blank s = true -> rstrip s = EmptyString.
Proof.
  induction s as [|c s IH]; simpl; [done|].
  intros [Hc Hs]%andb_prop. by rewrite IH, Hc.
Qed.

Lemma lstrip_app_blank pre s : blank pre = true -> lstrip (pre +:+ s) = lstrip s.
Proof.
  induction pre as [|c pre IH]; [done|]. rewrite append_cons. simpl.
  intros [Hc Hs]%andb_prop. rewrite Hc. by apply IH.
Qed.

Lemma rstrip_app_blank s post : blank post = true -> rstrip (s +:+ post) = rstrip s.
Proof.
  intros Hp. induction s as [|c s IH]; [by apply rstrip_blank|].
  rewrite append_cons. simpl. by rewrite IH.
Qed.

Lemma lstrip_app s post :
  lstrip (s +:+ post)
  = match lstrip s with
    | EmptyString => lstrip post
    | String c r => String c r +:+ post
    end.
Proof.
  induction s as [|c s IH]; [by rewrite append_nil|].
  rewrite append_cons. simpl. by destruct (is_space c).
Qed.

Lemma strip_app_blank pre s post :
  blank pre = true -> blank post = true -> strip (pre +:+ s +:+ post) = strip s.
Proof.
  intros Hpre Hpost. unfold strip.
  rewrite lstrip_app_blank, lstrip_app by done.
  destruct (lstrip s) as [|c r].
  - by rewrite (lstrip_blank post).
  - by apply rstrip_app_blank.
Qed.

End StringFacts.

Section NormalizeUserIdentifiers.
Import Deduplicator.

Lemma normalize_cell_idempotent c : normalize_cell (normalize_cell c) = normalize_cell c.
Proof.
  destruct c as [z|s|]; simpl; [done| |done].
  by rewrite <- strip_lower, lower_idempotent, strip_lower, strip_idempotent.
Qed.

Lemma normalize_user_identifiers_rows df user_col df' :
  normalize_user_identifiers df user_col = Ok df' ->
  exists i,
    column_position (columns df) user_col = Some i /\
    columns df' = columns df /\
    rows df' = map (fun r => {| label := label r;
                                cells := alter normalize_cell i (cells r) |})
                   (rows df).
Proof.
  unfold normalize_user_identifiers.
  destruct (column_lookup (columns df) user_col) as [i|] eqn:Hi; [|done].
  simpl. intros [= <-]. exists i. by apply column_lookup_Ok in Hi.
Qed.

(** X5.  On a column of strings, [normalize_user_identifiers] returns a
    table that is its own normal form (normalising it again changes
    nothing), with the columns, the number of rows and the index labels of
    the input; every cell outside the user column is left as it was. *)
Theorem normalize_user_identifiers_idempotent (df : DataFrame)
    (user_col : string) (df' : DataFrame) :
  string_column df user_col ->
  normalize_user_identifiers df user_col = Ok df' ->
  normalize_user_identifiers df' user_col = Ok df'
  /\ string_column df' user_col
  /\ columns df' = columns df
  /\ map label (rows df') = map label (rows df)
  /\ (forall col k, col <> user_col -> cell_at df' col k = cell_at df col k).
Proof.
  intros (i0 & r0 & s0 & Hi0 & Hr0 & Hs0) Hrun.
  destruct (normalize_user_identifiers_rows _ _ _ Hrun) as (i & Hi & Hc & Hr).
  assert (i0 = i) as -> by congruence.
  split_and!.
  - unfold normalize_user_identifiers, column_lookup. rewrite Hc, Hi. simpl.
    destruct df' as [cols' rows']. simpl in Hc, Hr. simpl. subst cols'.
    f_equal. f_equal. rewrite Hr.
    change (map ?f (map ?g ?l)) with (f <$> (g <$> l)).
    rewrite <- list_fmap_compose.
    apply list_fmap_ext. intros _ r _. simpl. f_equal.
    rewrite list_alter_alter_eq. apply list_alter_ext; [|done].
    intros c _. simpl. apply normalize_cell_idempotent.
  - exists i, {| label := label r0; cells := alter normalize_cell i (cells r0) |},
           (lower (strip s0)).
    split_and!; [by rewrite Hc| |].
    + rewrite Hr. apply list_elem_of_fmap. by exists r0.
    + simpl. by rewrite list_lookup_alter_eq, Hs0.
  - done.
  - rewrite Hr. change (map ?f (map ?g ?l)) with (f <$> (g <$> l)).
    by rewrite <- list_fmap_compose.
  - intros col k Hne. unfold cell_at. rewrite Hc.
    destruct (column_position (columns df) col) as [j|] eqn:Hj; simpl; [|done].
    rewrite Hr, list_lookup_fmap. destruct (rows df !! k) as [r|]; simpl; [|done].
    apply list_lookup_alter_ne. intros ->.
    apply column_position_Some in Hi, Hj. congruence.
Qed.

Lemma normalize_user_identifiers_idempotent_witness :
  normalize_user_identifiers spellings "User"
  = Ok {| columns := ["User"; "Request ID"];
          rows := [ {| label := 0; cells := [CStr "alice@corp.com"; CStr "r-1"] |};
                    {| label := 1; cells := [CStr "alice@corp.com"; CStr "r-2"] |} ] |}
  /\ normalize_user_identifiers
       {| columns := ["User"; "Request ID"];
          rows := [ {| label := 0; cells := [CStr "alice@corp.com"; CStr "r-1"] |};
                    {| label := 1; cells := [CStr "alice@corp.com"; CStr "r-2"] |} ] |}
       "User"
     = Ok {| columns := ["User"; "Request ID"];
             rows := [ {| label := 0; cells := [CStr "alice@corp.com"; CStr "r-1"] |};
                       {| label := 1; cells := [CStr "alice@corp.com"; CStr "r-2"] |} ] |}.
Proof.
  split; [reflexivity|].
  refine (proj1 (normalize_user_identifiers_idempotent spellings "User" _ _ eq_refl)).
  exists 0%nat, {| label := 0; cells := [CStr "  Alice@Corp.com "; CStr "r-1"] |},
         "  Alice@Corp.com ".
  split_and!; [reflexivity| |reflexivity].
  by left.
Defined.

(** X6.  Identifiers that differ only in the case of their letters and in
    white space around them are normalised to the same value: after
    [normalize_user_identifiers] two such rows agree on the user column,
    so they join and deduplicate as one account. *)
Theorem normalize_user_identifiers_spellings (df : DataFrame) (user_col : string)
    (df' : DataFrame) (k1 k2 : nat) (pre s1 post s2 : string) :
  normalize_user_identifiers df user_col = Ok df' ->
  cell_at df user_col k1 = Some (CStr (pre +:+ s1 +:+ post)) ->
  cell_at df user_col k2 = Some (CStr s2) ->
  blank pre = true -> blank post = true -> lower s1 = lower s2 ->
  cell_at df' user_col k1 = cell_at df' user_col k2
  /\ cell_at df' user_col k1 = Some (CStr (strip (lower s1))).
Proof.
  intros Hrun H1 H2 Hpre Hpost Hlow.
  destruct (normalize_user_identifiers_rows _ _ _ Hrun) as (i & Hi & Hc & Hr).
  assert (forall k s, cell_at df user_col k = Some (CStr s) ->
            cell_at df' user_col k = Some (CStr (lower (strip s)))) as Hcell.
  { intros k s. unfold cell_at. rewrite Hc, Hi. simpl.
    rewrite Hr, list_lookup_fmap. destruct (rows df !! k) as [r|]; simpl; [|done].
    intros Hs. by rewrite list_lookup_alter_eq, Hs. }
  rewrite (Hcell _ _ H1), (Hcell _ _ H2).
  rewrite strip_app_blank by done.
  rewrite <- !strip_lower, Hlow. done.
Qed.

Lemma normalize_user_identifiers_spellings_witness :
  cell_at spellings "User" 0 = Some (CStr "  Alice@Corp.com ")
  /\ cell_at spellings "User" 1 = Some (CStr "alice@corp.COM")
  /\ cell_at {| columns := ["User"; "Request ID"];
                rows := [ {| label := 0; cells := [CStr "alice@corp.com"; CStr "r-1"] |};
                          {| label := 1; cells := [CStr "alice@corp.com"; CStr "r-2"] |} ] |}
             "User" 0
     = Some (CStr "alice@corp.com").
Proof.
  split_and!; [reflexivity..|].
  exact (proj2 (normalize_user_identifiers_spellings spellings "User" _ 0 1
                  "  " "Alice@Corp.com" " " "alice@corp.COM"
                  eq_refl eq_refl eq_refl eq_refl eq_refl eq_refl)).
Defined.

End NormalizeUserIdentifiers.

(** ** Timestamp validation: [detect_inconsistencies] *)

Section DetectInconsistencies.
Import TimestampValidator.
Context `{PandasStats}.

Lemma Timestamp_sub_Ok t1 t2 d : Timestamp_sub t1 t2 = Ok d -> d = t1 - t2.
Proof. unfold Timestamp_sub. case_decide; [|done]. by intros [= <-]. Qed.

Lemma matched_true tolerance_seconds ts1 timestamps2 :
  matched tolerance_seconds ts1 timestamps2 = Ok true ->
  exists ts2, ts2 ∈ timestamps2 /\ within_tolerance tolerance_seconds ts1 ts2 = true.
Proof.
  induction timestamps2 as [|ts2 rest IH]; simpl; [done|].
  unfold mbind, result_bind.
  destruct (Timestamp_sub ts1 ts2) as [d|] eqn:Hd; [|done].
  apply Timestamp_sub_Ok in Hd as ->.
  destruct (abs (total_seconds (ts1 - ts2)) <=? float_of_Z tolerance_seconds)%float
    eqn:Hw.
  - intros _. exists ts2. split; [by left|done].
  - intros (ts & Hin & Hts)%IH. exists ts. split; [by right|done].
Qed.

Lemma matched_false tolerance_seconds ts1 timestamps2 :
  matched tolerance_seconds ts1 timestamps2 = Ok false ->
  forall ts2, ts2 ∈ timestamps2 -> within_tolerance tolerance_seconds ts1 ts2 = false.
Proof.
  induction timestamps2 as [|ts2 rest IH]; simpl.
  - by intros _ ts ?%elem_of_nil.
  - unfold mbind, result_bind.
    destruct (Timestamp_sub ts1 ts2) as [d|] eqn:Hd; [|done].
    apply Timestamp_sub_Ok in Hd as ->.
    destruct (abs (total_seconds (ts1 - ts2)) <=? float_of_Z tolerance_seconds)%float
      eqn:Hw; [done|].
    intros Hrest ts [->|Hin]%elem_of_cons; [done|]. by apply IH.
Qed.

Lemma matched_app_true tolerance_seconds ts1 timestamps2 more :
  matched tolerance_seconds ts1 timestamps2 = Ok true ->
  matched tolerance_seconds ts1 (timestamps2 ++ more) = Ok true.
Proof.
  induction timestamps2 as [|ts2 rest IH]; simpl; [done|].
  unfold mbind, result_bind.
  destruct (Timestamp_sub ts1 ts2) as [d|]; [|done].
  by destruct (abs (total_seconds d) <=? float_of_Z tolerance_seconds)%float.
Qed.

Lemma inconsistencies_from_elem_of tolerance_seconds i timestamps1 timestamps2 found :
  inconsistencies_from tolerance_seconds i timestamps1 timestamps2 = Ok found ->
  forall inc, inc ∈ found <->
    exists k ts, inc = unmatched (i + k) ts /\ timestamps1 !! k = Some ts /\
      forall ts2, ts2 ∈ timestamps2 ->
                  within_tolerance tolerance_seconds ts ts2 = false.
Proof.
  revert i found. induction timestamps1 as [|ts1 rest IH]; intros i found; simpl.
  - intros [= <-] inc. split; [by intros ?%elem_of_nil|].
    by intros (k & ts & _ & Hk & _).
  - unfold mbind, result_bind.
    destruct (matched tolerance_seconds ts1 timestamps2) as [m|] eqn:Hm; [|done].
    destruct (inconsistencies_from tolerance_seconds (S i) rest timestamps2)
      as [tail|] eqn:Htail; [|done].
    specialize (IH _ _ Htail). intros [= <-] inc.
    assert (inc ∈ tail <->
            exists k ts, inc = unmatched (i + S k) ts /\ rest !! k = Some ts /\
              forall ts2, ts2 ∈ timestamps2 ->
                          within_tolerance tolerance_seconds ts ts2 = false) as Htl.
    { rewrite IH. split; intros (k & ts & Heq & ?); exists k, ts;
        (split; [|done]); rewrite Heq; f_equal; lia. }
    destruct m.
    + rewrite Htl. split.
      * intros (k & ts & ? & ? & ?). by exists (S k), ts.
      * intros ([|k] & ts & Heq & Hk & Hno); [|by exists k, ts].
        simpl in Hk. injection Hk as ->.
        apply matched_true in Hm as (ts2 & Hin & Hw).
        rewrite (Hno ts2 Hin) in Hw. done.
    + rewrite elem_of_cons, Htl. split.
      * intros [->|(k & ts & ? & ? & ?)]; [|by exists (S k), ts].
        exists 0%nat, ts1. split_and!; [by rewrite Nat.add_0_r|done|].
        by apply matched_false.
      * intros ([|k] & ts & Heq & Hk & Hno); [|right; by exists k, ts].
        simpl in Hk. injection Hk as ->. left. by rewrite Heq, Nat.add_0_r.
Qed.

Lemma inconsistencies_from_Sorted tolerance_seconds i timestamps1 timestamps2 found :
  inconsistencies_from tolerance_seconds i timestamps1 timestamps2 = Ok found ->
  StronglySorted (fun a b => (index a < index b)%nat) found.
Proof.
  revert i found. induction timestamps1 as [|ts1 rest IH]; intros i found; simpl.
  - intros [= <-]. constructor.
  - unfold mbind, result_bind.
    destruct (matched tolerance_seconds ts1 timestamps2) as [m|] eqn:Hm; [|done].
    destruct (inconsistencies_from tolerance_seconds (S i) rest timestamps2)
      as [tail|] eqn:Htail; [|done].
    intros [= <-]. destruct m; [by eapply IH|].
    constructor; [by eapply IH|].
    apply Forall_forall. intros inc Hinc.
    apply (inconsistencies_from_elem_of _ _ _ _ _ Htail) in Hinc
      as (k & ts & -> & _). simpl. lia.
Qed.

(** X7.  When [detect_inconsistencies] returns, an instant of the first
    list is reported exactly when no instant of the second list is within
    the tolerance of it; each report carries the position and the instant
    it is about, and the reports are in the order of the first list. *)
Theorem detect_inconsistencies_reports (timestamps1 timestamps2 : list Z)
    (tolerance_seconds : Z) (found : list Inconsistency) :
  detect_inconsistencies timestamps1 timestamps2 tolerance_seconds = Ok found ->
  (forall inc, inc ∈ found <->
     exists i ts, inc = unmatched i ts /\ timestamps1 !! i = Some ts /\
       forall ts2, ts2 ∈ timestamps2 ->
                   within_tolerance tolerance_seconds ts ts2 = false)
  /\ StronglySorted (fun a b => (index a < index b)%nat) found.
Proof.
  unfold detect_inconsistencies. intros Hrun. split.
  - intros inc. by rewrite (inconsistencies_from_elem_of _ _ _ _ _ Hrun).
  - by eapply inconsistencies_from_Sorted.
Qed.

Lemma inconsistencies_from_nil tolerance_seconds i timestamps1 :
  inconsistencies_from tolerance_seconds i timestamps1 []
  = Ok (imap (fun k ts => unmatched (i + k) ts) timestamps1).
Proof.
  revert i. induction timestamps1 as [|ts1 rest IH]; intros i; simpl; [done|].
  rewrite IH. simpl. unfold unmatched at 1. rewrite Nat.add_0_r.
  do 2 f_equal. apply imap_ext. intros k ts _. simpl. unfold unmatched.
  f_equal. lia.
Qed.

(** X8.  The edge cases of [detect_inconsistencies]: with an empty second
    list every instant of the first list is reported, in order and with
    its position, and nothing is raised; with an empty first list there
    is nothing to report, whatever the second list holds. *)
Theorem detect_inconsistencies_empty (timestamps : list Z) (tolerance_seconds : Z) :
  detect_inconsistencies timestamps [] tolerance_seconds
  = Ok (imap unmatched timestamps)
  /\ detect_inconsistencies [] timestamps tolerance_seconds = Ok [].
Proof.
  split; [|done]. unfold detect_inconsistencies.
  rewrite inconsistencies_from_nil. f_equal.
Qed.

Lemma inconsistencies_from_app tolerance_seconds i timestamps1 timestamps2 more
    found :
  inconsistencies_from tolerance_seconds i timestamps1 timestamps2 = Ok found ->
  (forall found',
     inconsistencies_from tolerance_seconds i timestamps1 (timestamps2 ++ more)
     = Ok found' -> found' `sublist_of` found)
  /\ (found = [] ->
      inconsistencies_from tolerance_seconds i timestamps1 (timestamps2 ++ more)
      = Ok []).
Proof.
  revert i found. induction timestamps1 as [|ts1 rest IH]; intros i found; simpl.
  - intros [= <-]. split; [by intros ? [= <-]|done].
  - unfold mbind, result_bind.
    destruct (matched tolerance_seconds ts1 timestamps2) as [m|] eqn:Hm; [|done].
    destruct (inconsistencies_from tolerance_seconds (S i) rest timestamps2)
      as [tail|] eqn:Htail; [|done].
    destruct (IH _ _ Htail) as [IHsub IHnil]. intros [= <-]. split.
    + intros found'.
      destruct (matched tolerance_seconds ts1 (timestamps2 ++ more))
        as [m'|] eqn:Hm'; [|done].
      destruct (inconsistencies_from tolerance_seconds (S i) rest
                  (timestamps2 ++ more)) as [tail'|] eqn:Htail'; [|done].
      intros [= <-]. specialize (IHsub _ eq_refl).
      destruct m.
      * rewrite (matched_app_true _ _ _ more Hm) in Hm'. by injection Hm' as <-.
      * destruct m'; [by apply sublist_cons|by apply sublist_skip].
    + destruct m; [|done]. intros ->.
      by rewrite (matched_app_true _ _ _ more Hm), (IHnil eq_refl).
Qed.

(** X9.  More reference instants never add a report: when
    [detect_inconsistencies] returns for a second list, then for that list
    followed by further instants it reports a sublist of the same
    reports; and when nothing was reported, nothing is reported (and
    nothing raised) however the second list is extended. *)
Theorem detect_inconsistencies_monotone (timestamps1 timestamps2 more : list Z)
    (tolerance_seconds : Z) (found : list Inconsistency) :
  detect_inconsistencies timestamps1 timestamps2 tolerance_seconds = Ok found ->
  (forall found',
     detect_inconsistencies timestamps1 (timestamps2 ++ more) tolerance_seconds
     = Ok found' -> found' `sublist_of` found)
  /\ (found = [] ->
      detect_inconsistencies timestamps1 (timestamps2 ++ more) tolerance_seconds
      = Ok []).
Proof. apply inconsistencies_from_app. Qed.

(** X10.  A list of instants compared with itself has no inconsistency,
    provided an instant is within the tolerance of itself (which is so for
    the default tolerance and fails for a negative one): when
    [detect_inconsistencies] returns, it returns the empty list. *)
Theorem detect_inconsistencies_self (timestamps : list Z) (tolerance_seconds : Z)
    (found : list Inconsistency) :
  within_tolerance tolerance_seconds 0 0 = true ->
  detect_inconsistencies timestamps timestamps tolerance_seconds = Ok found ->
  found = [].
Proof.
  intros Hself Hrun. destruct found as [|inc rest]; [done|]. exfalso.
  destruct (inconsistencies_from_elem_of _ _ _ _ _ Hrun inc) as [Hinc _].
  destruct Hinc as (k & ts & _ & Hk & Hno); [by left|].
  specialize (Hno ts (list_elem_of_lookup_2 _ _ _ Hk)).
  unfold within_tolerance in Hno, Hself. rewrite Z.sub_diag in Hno.
  change (0 - 0) with 0 in Hself. by rewrite Hself in Hno.
Qed.

End DetectInconsistencies.

Lemma detect_inconsistencies_reports_witness :
  TimestampValidator.detect_inconsistencies (H := two_pass_PandasStats)
    [new_year_2025; new_year_2025 + hours 1] [new_year_2025 + 3 * nanos_per_second]
    TimestampValidator.default_tolerance_seconds
  = Ok [unmatched 1 (new_year_2025 + hours 1)]
  /\ within_tolerance (H := two_pass_PandasStats)
       TimestampValidator.default_tolerance_seconds
       (new_year_2025 + hours 1) (new_year_2025 + 3 * nanos_per_second) = false.
Proof.
  assert (TimestampValidator.detect_inconsistencies (H := two_pass_PandasStats)
            [new_year_2025; new_year_2025 + hours 1]
            [new_year_2025 + 3 * nanos_per_second]
            TimestampValidator.default_tolerance_seconds
          = Ok [unmatched 1 (new_year_2025 + hours 1)]) as Hrun
    by (by vm_compute).
  split; [exact Hrun|].
  destruct (detect_inconsistencies_reports _ _ _ _ Hrun) as [Hin _].
  destruct (proj1 (Hin (unmatched 1 (new_year_2025 + hours 1))))
    as (i & ts & Heq & _ & Hno); [by left|].
  injection Heq as _ <-. apply Hno. by left.
Defined.

Lemma detect_inconsistencies_monotone_witness :
  TimestampValidator.detect_inconsistencies (H := two_pass_PandasStats)
    [new_year_2025] [new_year_2025 + 3 * nanos_per_second]
    TimestampValidator.default_tolerance_seconds = Ok []
  /\ TimestampValidator.detect_inconsistencies (H := two_pass_PandasStats)
       [new_year_2025]
       ([new_year_2025 + 3 * nanos_per_second] ++ [new_year_2025 + hours 1])
       TimestampValidator.default_tolerance_seconds = Ok [].
Proof.
  assert (TimestampValidator.detect_inconsistencies (H := two_pass_PandasStats)
            [new_year_2025] [new_year_2025 + 3 * nanos_per_second]
            TimestampValidator.default_tolerance_seconds = Ok []) as Hrun
    by (by vm_compute).
  split; [exact Hrun|].
  exact (proj2 (detect_inconsistencies_monotone _ _ [new_year_2025 + hours 1] _ _ Hrun)
               eq_refl).
Defined.

Lemma detect_inconsistencies_self_witness :
  within_tolerance (H := two_pass_PandasStats)
    TimestampValidator.default_tolerance_seconds 0 0 = true
  /\ TimestampValidator.detect_inconsistencies (H := two_pass_PandasStats)
       [new_year_2025; new_year_2025 + hours 1]
       [new_year_2025; new_year_2025 + hours 1]
       TimestampValidator.default_tolerance_seconds = Ok [].
Proof.
  assert (within_tolerance (H := two_pass_PandasStats)
            TimestampValidator.default_tolerance_seconds 0 0 = true) as Hself
    by (by vm_compute).
  split; [exact Hself|].
  destruct (TimestampValidator.detect_inconsistencies (H := two_pass_PandasStats)
              [new_year_2025; new_year_2025 + hours 1]
              [new_year_2025; new_year_2025 + hours 1]
              TimestampValidator.default_tolerance_seconds) as [found|e] eqn:Hrun.
  - by rewrite (detect_inconsistencies_self _ _ found Hself Hrun).
  - vm_compute in Hrun. discriminate.
Defined.

(** ** Timestamp validation: [validate_temporal_boundaries] *)

Section ValidateTemporalBoundaries.
Import Deduplicator TimestampValidator.

Lemma mask_rows_spec i test l :
  mask_rows i test l
  = if forallb (fun r => negb (string_in i r)) l
    then Ok (filter (fun r => from_option test false (instant_in i r) = true) l)
    else Raise (TypeError "comparison of a str with a Timestamp").
Proof.
  induction l as [|r l IH]; [done|].
  cbn [mask_rows forallb]. rewrite IH, filter_cons. clear IH.
  assert (string_in i r = match cells r !! i with
                          | Some (CStr _) => true
                          | _ => false
                          end) as -> by done.
  assert (instant_in i r = match cells r !! i with
                           | Some (CInt t) => Some t
                           | _ => None
                           end) as -> by done.
  destruct (cells r !! i) as [[t|s|]|]; simpl; try done;
    destruct (forallb _ l); simpl; try done.
  by destruct (test t).
Qed.

Lemma keep_rows_spec df col test :
  keep_rows df col test
  = match column_position (columns df) col with
    | None => Raise (KeyError col)
    | Some i =>
        if forallb (fun r => negb (string_in i r)) (rows df)
        then Ok {| columns := columns df;
                   rows := filter (fun r => from_option test false (instant_in i r) = true)
                                  (rows df) |}
        else Raise (TypeError "comparison of a str with a Timestamp")
    end.
Proof.
  unfold keep_rows, column_lookup.
  destruct (column_position (columns df) col) as [i|]; [|done].
  simpl. rewrite mask_rows_spec. by destruct (forallb _ (rows df)).
Qed.

Lemma forallb_filter {A} (p : A -> bool) (P : A -> Prop)
    `{!forall x, Decision (P x)} (l : list A) :
  forallb p l = true -> forallb p (filter P l) = true.
Proof.
  induction l as [|x l IH]; [done|]. simpl.
  intros [Hx Hl]%andb_prop. rewrite filter_cons.
  destruct (decide (P x)); simpl; [rewrite Hx|]; by apply IH.
Qed.

Lemma filter_all {A} (P : A -> Prop) `{!forall x, Decision (P x)} (l : list A) :
  (forall x, P x) -> filter P l = l.
Proof.
  intros HP. induction l as [|x l IH]; [done|].
  by rewrite filter_cons_True, IH.
Qed.

Lemma validate_temporal_boundaries_spec df col start_time end_time :
  validate_temporal_boundaries df col start_time end_time
  = match start_time, end_time with
    | None, None => Ok df
    | _, _ =>
        match column_position (columns df) col with
        | None => Raise (KeyError col)
        | Some i =>
            if forallb (fun r => negb (string_in i r)) (rows df)
            then Ok {| columns := columns df;
                       rows := filter (fun r => in_window start_time end_time
                                                          (instant_in i r) = true)
                                      (rows df) |}
            else Raise (TypeError "comparison of a str with a Timestamp")
        end
    end.
Proof.
  unfold validate_temporal_boundaries.
  destruct start_time as [s|], end_time as [e|]; cbn [mbind result_bind];
    rewrite ?keep_rows_spec; try done.
  - destruct (column_position (columns df) col) as [i|] eqn:Hi; [|done].
    destruct (forallb _ (rows df)) eqn:Hall; [|done].
    cbn [mbind result_bind]. rewrite keep_rows_spec. cbn [columns rows].
    rewrite Hi, forallb_filter by done. do 2 f_equal.
    rewrite list_filter_filter. apply list_filter_iff. intros r.
    unfold in_window. destruct (instant_in i r) as [n|]; simpl.
    + rewrite andb_true_iff. tauto.
    + split; [by intros [? _]|done].
  - destruct (column_position (columns df) col) as [i|]; [|done].
    destruct (forallb _ (rows df)); [|done]. cbn [mbind result_bind].
    do 2 f_equal. apply list_filter_iff. intros r. unfold in_window.
    destruct (instant_in i r); simpl; [by rewrite andb_true_r|done].
Qed.

(** X11.  [validate_temporal_boundaries] looks at the timestamp column
    only when a bound is given: without bounds it returns the table as it
    is, rows without an instant included, even when the table has no such
    column; with a bound, a table without the column raises [KeyError]. *)
Theorem validate_temporal_boundaries_unbounded (df : DataFrame) (col : string) :
  validate_temporal_boundaries df col None None = Ok df
  /\ (col ∉ columns df ->
      forall start_time end_time,
        is_Some start_time \/ is_Some end_time ->
        validate_temporal_boundaries df col start_time end_time
        = Raise (KeyError col)).
Proof.
  split; [done|]. intros Hcol%column_position_None start_time end_time Hb.
  rewrite validate_temporal_boundaries_spec, Hcol.
  destruct start_time, end_time; try done.
  destruct Hb as [[? ?]|[? ?]]; done.
Qed.

(** X12.  With a bound given, the table [validate_temporal_boundaries]
    returns has the columns of its input and exactly the rows of the input
    whose instant lies within the bounds, the bounds included, in their
    order and with their index labels; a row without an instant ([NaT]) is
    dropped. *)
Theorem validate_temporal_boundaries_window (df : DataFrame) (col : string)
    (start_time end_time : option Z) (df' : DataFrame) :
  validate_temporal_boundaries df col start_time end_time = Ok df' ->
  columns df' = columns df
  /\ rows df'
     = filter (fun r => in_window start_time end_time (instant_at df col r) = true)
              (rows df)
  /\ (forall s e r, start_time = Some s -> end_time = Some e ->
        r ∈ rows df' <->
        r ∈ rows df /\ exists n, instant_at df col r = Some n /\ s <= n <= e).
Proof.
  rewrite validate_temporal_boundaries_spec. intros Hrun.
  assert (columns df' = columns df /\
          rows df' = filter (fun r => in_window start_time end_time
                                                (instant_at df col r) = true)
                            (rows df)) as [Hc Hr].
  { unfold instant_at.
    destruct (column_position (columns df) col) as [i|] eqn:Hi.
    - destruct start_time as [s|], end_time as [e|];
        try (destruct (forallb _ (rows df)); [|done]);
        injection Hrun as <-; simpl; (split; [done|]); try done.
      symmetry. by apply filter_all.
    - destruct start_time as [s|], end_time as [e|]; try done.
      injection Hrun as <-. split; [done|].
      symmetry. by apply filter_all. }
  split_and!; [done..|].
  intros s e r -> ->. rewrite Hr, list_elem_of_filter. unfold in_window.
  split.
  - intros [Hw Hin]. split; [done|].
    destruct (instant_at df col r) as [n|]; [|done]. exists n. split; [done|].
    apply andb_prop in Hw as [?%bool_decide_eq_true ?%bool_decide_eq_true]. done.
  - intros [Hin (n & -> & Hs & He)]. split; [|done]. simpl.
    by rewrite !bool_decide_eq_true_2.
Qed.

Lemma validate_temporal_boundaries_window_witness :
  validate_temporal_boundaries three_events "Date"
    (Some new_year_2025) (Some (new_year_2025 + hours 1))
  = Ok {| columns := ["Date"; "User"];
          rows := [ {| label := 0; cells := [CInt new_year_2025; CStr "alice"] |} ] |}
  /\ filter (fun r => in_window (Some new_year_2025) (Some (new_year_2025 + hours 1))
                                (instant_at three_events "Date" r) = true)
            (rows three_events)
     = [ {| label := 0; cells := [CInt new_year_2025; CStr "alice"] |} ].
Proof.
  split; [by vm_compute|].
  symmetry.
  exact (proj1 (proj2 (validate_temporal_boundaries_window three_events "Date"
                         (Some new_year_2025) (Some (new_year_2025 + hours 1)) _
                         eq_refl))).
Defined.

Lemma in_window_compose s1 e1 s2 e2 t :
  is_Some s1 \/ is_Some e1 -> is_Some s2 \/ is_Some e2 ->
  in_window s2 e2 t = true /\ in_window s1 e1 t = true <->
  in_window (later s1 s2) (earlier e1 e2) t = true.
Proof.
  intros H1 H2. unfold in_window, later, earlier.
  destruct s1 as [a1|], e1 as [b1|], s2 as [a2|], e2 as [b2|];
    try (destruct H1 as [[? ?]|[? ?]]; done);
    try (destruct H2 as [[? ?]|[? ?]]; done);
    destruct t as [n|]; simpl; try tauto;
    rewrite ?andb_true_iff, ?bool_decide_eq_true; lia.
Qed.

(** X13.  Two windows applied in turn are the window they have in common:
    filtering the table [validate_temporal_boundaries] returned for one
    pair of bounds by a second pair gives what one call on the input gives
    for the later of the start times and the earlier of the end times.
    In particular the same bounds a second time change nothing. *)
Theorem validate_temporal_boundaries_compose (df : DataFrame) (col : string)
    (start1 end1 start2 end2 : option Z) (df1 : DataFrame) :
  validate_temporal_boundaries df col start1 end1 = Ok df1 ->
  validate_temporal_boundaries df1 col start2 end2
  = validate_temporal_boundaries df col (later start1 start2) (earlier end1 end2)
  /\ validate_temporal_boundaries df1 col start1 end1 = Ok df1.
Proof.
  intros Hrun.
  assert (forall start2 end2,
            validate_temporal_boundaries df1 col start2 end2
            = validate_temporal_boundaries df col (later start1 start2)
                                           (earlier end1 end2)) as Hcomp.
  { clear start2 end2. intros start2 end2.
    destruct (decide (is_Some start1 \/ is_Some end1)) as [H1|H1]; cycle 1.
    { destruct start1, end1; try (exfalso; apply H1; eauto; fail).
      simpl in Hrun. by injection Hrun as <-. }
    destruct (decide (is_Some start2 \/ is_Some end2)) as [H2|H2]; cycle 1.
    { destruct start2, end2; try (exfalso; apply H2; eauto; fail).
      change (validate_temporal_boundaries df1 col None None) with (Ok df1).
      rewrite <- Hrun. by destruct start1, end1. }
    rewrite !validate_temporal_boundaries_spec.
    rewrite validate_temporal_boundaries_spec in Hrun.
    assert (match start1, end1 with None, None => False | _, _ => True end) as N1
      by (destruct start1, end1; try done; destruct H1 as [[? ?]|[? ?]]; done).
    assert (match start2, end2 with None, None => False | _, _ => True end) as N2
      by (destruct start2, end2; try done; destruct H2 as [[? ?]|[? ?]]; done).
    assert (match later start1 start2, earlier end1 end2 with
            | None, None => False | _, _ => True end) as N3
      by (destruct start1, end1, start2, end2; done).
    destruct (column_position (columns df) col) as [i|] eqn:Hi; cycle 1.
    { destruct start1, end1; done. }
    destruct (forallb (fun r => negb (string_in i r)) (rows df)) eqn:Hall; cycle 1.
    { destruct start1, end1; done. }
    assert (df1 = {| columns := columns df;
                     rows := filter (fun r => in_window start1 end1 (instant_in i r) = true)
                                    (rows df) |}) as ->.
    { destruct start1, end1; try done; by injection Hrun as <-. }
    cbn [columns rows]. rewrite Hi, forallb_filter by done.
    assert (filter (fun r => in_window start2 end2 (instant_in i r) = true)
              (filter (fun r => in_window start1 end1 (instant_in i r) = true) (rows df))
            = filter (fun r => in_window (later start1 start2) (earlier end1 end2)
                                         (instant_in i r) = true) (rows df)) as ->.
    { rewrite list_filter_filter. apply list_filter_iff. intros r.
      by apply in_window_compose. }
    destruct start2, end2; try done;
      destruct (later start1 _), (earlier end1 _); done. }
  split; [apply Hcomp|].
  rewrite Hcomp, <- Hrun. f_equal.
  - destruct start1; simpl; [by rewrite Z.max_id|done].
  - destruct end1; simpl; [by rewrite Z.min_id|done].
Qed.

Lemma validate_temporal_boundaries_compose_witness :
  validate_temporal_boundaries three_events "Date" (Some new_year_2025) None
  = Ok {| columns := ["Date"; "User"];
          rows := [ {| label := 0; cells := [CInt new_year_2025; CStr "alice"] |};
                    {| label := 2;
                       cells := [CInt (new_year_2025 + hours 2); CStr "carol"] |} ] |}
  /\ validate_temporal_boundaries
       {| columns := ["Date"; "User"];
          rows := [ {| label := 0; cells := [CInt new_year_2025; CStr "alice"] |};
                    {| label := 2;
                       cells := [CInt (new_year_2025 + hours 2); CStr "carol"] |} ] |}
       "Date" None (Some (new_year_2025 + hours 1))
     = validate_temporal_boundaries three_events "Date"
         (Some new_year_2025) (Some (new_year_2025 + hours 1)).
Proof.
  split; [by vm_compute|].
  refine (proj1 (validate_temporal_boundaries_compose three_events "Date"
                   (Some new_year_2025) None None (Some (new_year_2025 + hours 1))
                   _ _)).
  by vm_compute.
Defined.

End ValidateTemporalBoundaries.

(** ** AWS: one session per login event *)

Section GroupFacts.
Context {A K : Type} `{EqDecision K}.

Lemma filter_keys_Permutation (key : A -> K) (ks : list K) (l : list A) :
  NoDup ks -> (forall x, x ∈ l -> key x ∈ ks) ->
  List.concat (map (fun k => filter (fun x => key x = k) l) ks) ≡ₚ l.
Proof.
  revert l. induction ks as [|k ks IH]; intros l Hnd Hall.
  - destruct l as [|x l]; [done|].
    assert (key x ∈ []) as Hx by (apply Hall; by left). by apply elem_of_nil in Hx.
  - apply NoDup_cons in Hnd as [Hk Hnd]. simpl.
    etrans; [|apply (filter_app_complement (fun x => key x = k) l)].
    apply Permutation_app; [done|].
    etrans; [|apply (IH (filter (fun x => key x <> k) l) Hnd)].
    + apply reflexive_eq. f_equal. apply map_ext_in. intros k' Hk'%list_elem_of_In.
      rewrite list_filter_filter. apply list_filter_iff. intros x.
      split; [|by intros [? _]]. intros Hx. split; [done|]. congruence.
    + intros x [Hx Hin]%list_elem_of_filter.
      specialize (Hall x Hin). apply elem_of_cons in Hall as [?|?]; done.
Qed.

End GroupFacts.

Lemma groupby_Permutation {A} (key : A -> string) (l : list A) :
  List.concat (map snd (groupby key l)) ≡ₚ l.
Proof.
  unfold groupby. rewrite map_map. simpl.
  apply filter_keys_Permutation; [apply NoDup_sorted_unique|].
  intros x Hx. apply elem_of_sorted, elem_of_unique.
  apply list_elem_of_fmap. by exists x.
Qed.

Lemma groupby_not_nil {A} (key : A -> string) (l : list A) g :
  g ∈ groupby key l -> g.2 <> [].
Proof.
  unfold groupby. intros (k & -> & Hk)%list_elem_of_fmap. simpl.
  apply elem_of_sorted, elem_of_unique, list_elem_of_fmap in Hk as (x & -> & Hx).
  intros Hnil.
  assert (x ∈ filter (fun r => key r = key x) l) as Hin
    by (by apply list_elem_of_filter).
  rewrite Hnil in Hin. by apply elem_of_nil in Hin.
Qed.

Lemma map_fst_groupby {A} (key : A -> string) (l : list A) :
  map fst (groupby key l) = sorted (unique (map key l)).
Proof. unfold groupby. rewrite map_map. simpl. apply map_id. Qed.

Section OneSessionPerLogin.
Import AWSCorrelator.
Context `{PandasSort}.

Lemma session_of_names user_label username display_name workspace_id event s :
  session_of user_label username display_name workspace_id event = Ok s ->
  Username s = username /\ Display_Name s = display_name.
Proof.
  unfold session_of.
  destruct (Timestamp_add (time event) (hours 1)) as [r|e]; [|done].
  simpl. by intros [= <-].
Qed.

Lemma group_sessions_keys self workspace_user_map g ys :
  (forall event, event ∈ g.2 -> workspaceId event = g.1) ->
  group_sessions self workspace_user_map g = Ok ys ->
  map session_key ys ≡ₚ map login_key g.2.
Proof.
  intros Hws Hrun. unfold group_sessions in Hrun.
  apply mapM_result_Ok_Forall2 in Hrun.
  etrans; [|apply (Permutation_map login_key), (sort_values_Permutation time g.2)].
  apply reflexive_eq.
  assert (forall event, event ∈ sort_values time g.2 -> workspaceId event = g.1)
    as Hws'.
  { intros event. rewrite sort_values_Permutation. apply Hws. }
  revert Hws'. induction Hrun as [|event s evs ss Hs _ IH]; intros Hws'; [done|].
  simpl. apply session_of_fields in Hs as (_ & Hw & Hst & _).
  f_equal.
  - unfold session_key, login_key. rewrite Hw, Hst.
    f_equal. symmetry. apply Hws'. by left.
  - apply IH. intros ev Hev. apply Hws'. by right.
Qed.

Lemma concat_groups_Permutation {A B C} (R : A -> list B -> Prop)
    (f : B -> C) (g : A -> list C) (l : list A) (ys : list (list B)) :
  Forall2 R l ys ->
  (forall x y, x ∈ l -> R x y -> map f y ≡ₚ g x) ->
  map f (List.concat ys) ≡ₚ List.concat (map g l).
Proof.
  induction 1 as [|x y l ys HR _ IH]; intros Hall; [done|].
  simpl. rewrite map_app. apply Permutation_app.
  - apply Hall; [by left|done].
  - apply IH. intros x' y' Hx'. apply Hall. by right.
Qed.

(** X14.  [generate_user_vm_mapping] makes exactly one session of every
    login event: the sessions, taken by workspace and start, are the login
    events taken by workspace and time, each as often as it occurs.  The
    mapping it returns is the one it stores, and the summary statistics
    then count as many sessions as login events. *)
Theorem generate_user_vm_mapping_one_per_login (self : t) (e : list LoginEvent)
    (self' : t) (sessions : list Session) :
  eventbridge_df self = Some e ->
  generate_user_vm_mapping self = Ok (self', sessions) ->
  map session_key sessions ≡ₚ map login_key e
  /\ length sessions = length e
  /\ user_vm_mapping self' = Some sessions
  /\ total_sessions (get_summary_statistics self')
     = total_login_events (get_summary_statistics self')
  /\ total_sessions (get_summary_statistics self') = Some (length e).
Proof.
  intros He. unfold generate_user_vm_mapping. rewrite He.
  destruct (mapM_result _ (groupby workspaceId e)) as [per_group|err] eqn:Hg; [|done].
  simpl. intros [= <- <-].
  assert (map session_key (List.concat per_group) ≡ₚ map login_key e) as Hperm.
  { apply mapM_result_Ok_Forall2 in Hg.
    etrans.
    - apply (concat_groups_Permutation _ session_key (fun g => map login_key g.2)
               _ _ Hg).
      intros g ys Hgin Hrun. refine (group_sessions_keys _ _ _ _ _ Hrun).
      intros event Hev. rewrite (elem_of_groupby _ _ _ Hgin) in Hev.
      by apply list_elem_of_filter in Hev as [? _].
    - rewrite <- (map_map snd (map login_key)), <- concat_map.
      apply Permutation_map, groupby_Permutation. }
  assert (length (List.concat per_group) = length e) as Hlen.
  { apply Permutation_length in Hperm. by rewrite !length_map in Hperm. }
  split_and!; [done|done|done| |].
  - unfold get_summary_statistics. simpl. by rewrite He, Hlen.
  - unfold get_summary_statistics. simpl. by rewrite Hlen.
Qed.

Lemma generate_user_vm_mapping_names_aux self self' sessions s :
  generate_user_vm_mapping self = Ok (self', sessions) -> s ∈ sessions ->
  Username s = enriched self username s
  /\ Display_Name s = enriched self display_name s.
Proof.
  unfold generate_user_vm_mapping.
  destruct (eventbridge_df self) as [e|] eqn:He; [|done].
  destruct (mapM_result _ (groupby workspaceId e)) as [per_group|err] eqn:Hg; [|done].
  simpl. intros [= _ <-] Hs.
  apply list_elem_of_In, in_concat in Hs as (l & Hl & Hs).
  apply list_elem_of_In in Hl, Hs.
  destruct (mapM_result_elem_of _ _ _ _ Hg Hl) as (g & Hgin & Hgs).
  unfold group_sessions in Hgs.
  destruct (mapM_result_elem_of _ _ _ _ Hgs Hs) as (event & Hev & Hso).
  destruct (session_of_fields _ _ _ _ _ _ Hso) as (Hu & Hw & _).
  destruct (session_of_names _ _ _ _ _ _ Hso) as (Hn & Hd).
  unfold enriched. rewrite Hn, Hd, Hw, Hu. done.
Qed.

(** X15.  The names of a session: its [Username] and its [Display Name]
    are the values the workspace mapping holds for the workspace of the
    session when it has an entry for it and the value is not empty, and
    the user label of the session in every other case. *)
Theorem generate_user_vm_mapping_names (self self' : t) (sessions : list Session)
    (s : Session) :
  generate_user_vm_mapping self = Ok (self', sessions) -> s ∈ sessions ->
  Username s = enriched self username s
  /\ Display_Name s = enriched self display_name s
  /\ (workspace_user_mapping self !! Workspace_ID s = None ->
      Username s = User s /\ Display_Name s = User s).
Proof.
  intros Hrun Hs.
  destruct (generate_user_vm_mapping_names_aux _ _ _ _ Hrun Hs) as [Hn Hd].
  split_and!; [done..|].
  intros Hnone. rewrite Hn, Hd. unfold enriched. by rewrite Hnone.
Qed.

End OneSessionPerLogin.

Lemma generate_user_vm_mapping_one_per_login_witness :
  (exists self',
     AWSCorrelator.generate_user_vm_mapping (H := stable_PandasSort) Scenario.aws
     = Ok (self', [Scenario.aws_session]))
  /\ map session_key [Scenario.aws_session] ≡ₚ map login_key [Scenario.aws_login].
Proof.
  destruct aws_scenario_mapping as [self' Hrun].
  split; [by exists self'|].
  exact (proj1 (generate_user_vm_mapping_one_per_login (H := stable_PandasSort)
                  Scenario.aws [Scenario.aws_login] self' _ eq_refl Hrun)).
Defined.

Lemma generate_user_vm_mapping_names_witness :
  (exists self',
     AWSCorrelator.generate_user_vm_mapping (H := stable_PandasSort) Scenario.aws
     = Ok (self', [Scenario.aws_session]))
  /\ AWSCorrelator.Username Scenario.aws_session
     = enriched Scenario.aws AWSCorrelator.username Scenario.aws_session.
Proof.
  destruct aws_scenario_mapping as [self' Hrun].
  split; [by exists self'|].
  refine (proj1 (generate_user_vm_mapping_names (H := stable_PandasSort)
                   Scenario.aws self' _ Scenario.aws_session Hrun _)).
  by left.
Defined.

(** ** AWS: the workspace mapping file *)

Section WorkspaceMappingFile.
Import AWSCorrelator.

Lemma foldl_add_entry_lookup (entries : list MappingEntry)
    (m0 : gmap string MappingInfo) (ws_id : string) :
  foldl add_entry m0 entries !! ws_id
  = if decide (ws_id = "") then m0 !! ws_id
    else match last (entries_for ws_id entries) with
         | Some entry => Some (info_of_entry entry)
         | None => m0 !! ws_id
         end.
Proof.
  induction entries as [|entry entries IH] using rev_ind.
  - simpl. by destruct (decide (ws_id = "")).
  - rewrite foldl_app. simpl. unfold entries_for. rewrite filter_app.
    fold (entries_for ws_id entries). rewrite filter_cons, filter_nil.
    set (m := foldl add_entry m0 entries) in *.
    destruct (decide (e_workspace_id entry = Some ws_id)) as [Heq|Hneq].
    + rewrite last_snoc. unfold add_entry. rewrite Heq.
      destruct (decide (ws_id = "")) as [->|Hws].
      * by rewrite IH.
      * by rewrite lookup_insert_eq.
    + rewrite app_nil_r, <- IH. unfold add_entry.
      destruct (e_workspace_id entry) as [w|]; [|done].
      destruct (decide (w = "")); [done|]. apply lookup_insert_ne. congruence.
Qed.

(** X16.  [load_workspace_user_mapping] on a readable file returns and
    stores one entry per workspace identifier of the file: the last entry
    of the file for that identifier, with the empty string for a field the
    entry lacks; entries without an identifier, or with the empty one, are
    skipped, and what an earlier load had stored is replaced.  Without a
    path, or when the file cannot be read or parsed, it returns the empty
    mapping and leaves the stored mapping as it was. *)
Theorem load_workspace_user_mapping_last_wins (fs : string -> MappingFile)
    (self : t) :
  (forall path data,
     path <> "" -> fs path = Parsed data ->
     exists mapping,
       load_workspace_user_mapping fs self (Some path)
       = (set_workspace_user_mapping self mapping, mapping)
       /\ mapping !! "" = None
       /\ forall ws_id, ws_id <> "" ->
            mapping !! ws_id
            = info_of_entry <$> last (entries_for ws_id (default [] data)))
  /\ (forall mapping_file,
        mapping_file = None \/ mapping_file = Some "" \/
        (exists path, mapping_file = Some path /\ fs path = Unreadable) ->
        load_workspace_user_mapping fs self mapping_file = (self, ∅)).
Proof.
  split.
  - intros path data Hpath Hfs. eexists. unfold load_workspace_user_mapping.
    rewrite decide_False, Hfs by done. split_and!; [done| |].
    + by rewrite foldl_add_entry_lookup.
    + intros ws_id Hws. rewrite foldl_add_entry_lookup, decide_False by done.
      by destruct (last _).
  - intros mapping_file [->|[->|(path & -> & Hfs)]]; [done..|].
    unfold load_workspace_user_mapping. rewrite Hfs. by case_decide.
Qed.

Lemma load_workspace_user_mapping_last_wins_witness :
  (load_workspace_user_mapping mapping_fs init (Some "workspace_user_mapping.json")).2
    !! "ws-1"
  = Some {| username := "alice"; display_name := ""; info_user_label := "USER_A" |}
  /\ load_workspace_user_mapping mapping_fs init (Some "missing.json") = (init, ∅).
Proof.
  destruct (load_workspace_user_mapping_last_wins mapping_fs init) as [Hload Hfail].
  split.
  - destruct (Hload "workspace_user_mapping.json" (Some mapping_entries))
      as (mapping & -> & _ & Hlook); [done..|].
    simpl. by rewrite Hlook.
  - apply Hfail. right. right. by exists "missing.json".
Defined.

End WorkspaceMappingFile.

(** ** AWS: port access patterns *)

Lemma flat_map_singleton {A B} (f : A -> list B) (h : A -> B) (l : list A) :
  (forall x, x ∈ l -> f x = [h x]) -> flat_map f l = map h l.
Proof.
  induction l as [|x l IH]; intros Hf; [done|].
  simpl. rewrite (Hf x) by (by left). simpl. f_equal.
  apply IH. intros y Hy. apply Hf. by right.
Qed.

Lemma map_flat_map_singleton {A B C} (f : A -> list B) (p : B -> C) (k : A -> C)
    (l : list A) :
  (forall x, x ∈ l -> exists b, f x = [b] /\ p b = k x) ->
  map p (flat_map f l) = map k l.
Proof.
  induction l as [|x l IH]; intros Hf; [done|].
  destruct (Hf x) as (b & Hb & Hp); [by left|].
  simpl. rewrite Hb. simpl. rewrite Hp. f_equal.
  apply IH. intros y Hy. apply Hf. by right.
Qed.

Lemma singleton_sublist {A} (x : A) (l : list A) : x ∈ l -> [x] `sublist_of` l.
Proof.
  intros (l1 & l2 & ->)%list_elem_of_split.
  apply sublist_inserts_l. apply sublist_skip, sublist_nil_l.
Qed.

Section PortAccess.
Import AWSCorrelator.

Lemma rdp_activity_row user_label group :
  group <> [] ->
  exists a,
    rdp_activity user_label group = [a] /\
    activity_type a = Port_Access_Pattern /\
    a_user a = user_label /\
    attempts a = Some (length group) /\
    is_minimum (start_time a) (map timestamp group) /\
    is_maximum (end_time a) (map timestamp group).
Proof.
  intros Hne. unfold rdp_activity.
  destruct group as [|f fs]; [done|]. cbn [map].
  rewrite decide_True by (simpl; lia).
  eexists. split; [done|]. cbn [activity_type a_user attempts start_time end_time].
  split_and!; [done..| |].
  - split; [apply list_min_elem_of|].
    intros y [->|Hy]%elem_of_cons;
      [apply (proj1 (list_min_le _ _))|by apply (proj2 (list_min_le _ _))].
  - split; [apply list_max_elem_of|].
    intros y [->|Hy]%elem_of_cons;
      [apply (proj1 (list_max_ge _ _))|by apply (proj2 (list_max_ge _ _))].
Qed.

(** X17.  [detect_rdp_bruteforce] reports one row for every user that has
    a flow to port 3389 (as a number or as the string ['3389']), a single
    flow being enough, and no other row; the rows come in ascending order
    of the user label.  The row of a user counts the user's flows to that
    port and spans from the earliest to the latest of them. *)
Theorem detect_rdp_bruteforce_rows (self : t) (v : list Flow) :
  vpc_logs_df self = Some v ->
  map a_user (detect_rdp_bruteforce self)
  = sorted (unique (map v_user_label (rdp_flows v)))
  /\ (forall a, a ∈ detect_rdp_bruteforce self ->
        activity_type a = Port_Access_Pattern
        /\ attempts a = Some (length (user_flows (a_user a) (rdp_flows v)))
        /\ (1 <= length (user_flows (a_user a) (rdp_flows v)))%nat
        /\ is_minimum (start_time a)
                      (map timestamp (user_flows (a_user a) (rdp_flows v)))
        /\ is_maximum (end_time a)
                      (map timestamp (user_flows (a_user a) (rdp_flows v)))
        /\ start_time a <= end_time a).
Proof.
  intros Hv. unfold detect_rdp_bruteforce. rewrite Hv. fold (rdp_flows v).
  split.
  - rewrite <- map_fst_groupby. apply map_flat_map_singleton. intros g Hg.
    destruct (rdp_activity_row g.1 g.2 (groupby_not_nil _ _ _ Hg))
      as (a & Hrow & _ & Hu & _). by exists a.
  - intros a (g & Hg & Ha)%list_elem_of_In%in_flat_map.
    apply list_elem_of_In in Hg, Ha.
    destruct (rdp_activity_row g.1 g.2 (groupby_not_nil _ _ _ Hg))
      as (a' & Hrow & Hty & Hu & Hat & Hmin & Hmax).
    rewrite Hrow in Ha. apply list_elem_of_singleton in Ha as ->.
    rewrite Hu. unfold user_flows. rewrite <- (elem_of_groupby _ _ _ Hg).
    split_and!; [done..| |done|done|].
    + pose proof (groupby_not_nil _ _ _ Hg). destruct g.2; [done|simpl; lia].
    + destruct Hmin as [Hin _], Hmax as [_ Hle]. by apply Hle.
Qed.

Lemma detect_rdp_bruteforce_rows_witness :
  map a_user (detect_rdp_bruteforce rdp_run) = ["USER_A"]
  /\ map attempts (detect_rdp_bruteforce rdp_run) = [Some 2%nat]
  /\ map start_time (detect_rdp_bruteforce rdp_run) = [new_year_2025].
Proof.
  destruct (detect_rdp_bruteforce_rows rdp_run _ eq_refl) as [Husers _].
  split_and!; [|by vm_compute..].
  rewrite Husers. by vm_compute.
Defined.

End PortAccess.

(** ** AWS: c2-server names and the allow-list *)

Section SuspiciousNames.
Import AWSCorrelator.
Context `{PandasSort} `{PandasStats}.

(** X18.  A query name that holds [c2-server] or [c2server], in any case
    of its letters, and holds none of the allow-listed domains is always
    reported: the user gets one 'Periodic Domain Query' row for it with
    the number of the queries and ['N/A'] for both interval statistics,
    whatever the interval threshold and the minimum number of occurrences.
    The allow-list is tested first: no row is ever for a name that holds
    an allow-listed domain, a c2-server name included. *)
Theorem suspicious_names_reported (self : t) (q : list QueryLog)
    (interval_threshold : float) (min_occurrences : Z) :
  query_logs_df self = Some q ->
  (forall r name,
     r ∈ q -> query_name r = Some name ->
     is_suspicious_pattern name = true -> is_excluded name = false ->
     exists a,
       a ∈ detect_c2_beaconing self interval_threshold min_occurrences
       /\ a_user a = q_user_label r /\ domain a = Some name
       /\ query_count a = Some (length (queries_for q (q_user_label r) name))
       /\ avg_interval a = Some NA /\ std_interval a = Some NA)
  /\ (forall a name,
        a ∈ detect_c2_beaconing self interval_threshold min_occurrences ->
        domain a = Some name -> is_excluded name = false).
Proof.
  intros Hq. split.
  - intros r name Hr Hname Hsus Hex.
    set (user_label := q_user_label r).
    set (user_group := filter (fun x => q_user_label x = user_label) q).
    assert (r ∈ user_group) as Hru by (by apply list_elem_of_filter).
    assert (r ∈ queries_for q user_label name) as Hrq
      by (by apply list_elem_of_filter).
    destruct (sorted_timestamps (queries_for q user_label name))
      as [|first_ts rest] eqn:Hts.
    { apply (f_equal length) in Hts. rewrite length_sorted_timestamps in Hts.
      destruct (queries_for q user_label name); [|done].
      by apply elem_of_nil in Hrq. }
    exists (beacon_activity user_label name
              (length (queries_for q user_label name)) first_ts
              (List.last (first_ts :: rest) first_ts) NA NA).
    split; [|done].
    unfold detect_c2_beaconing. rewrite Hq.
    apply list_elem_of_In, in_flat_map.
    exists (user_label, user_group). split.
    { apply list_elem_of_In. by apply (elem_of_groupby_intro q_user_label q r). }
    apply in_flat_map. exists (name, queries_for q user_label name). split.
    { apply list_elem_of_In.
      by apply (elem_of_groupby_opt_intro query_name user_group r). }
    cbn [fst snd]. unfold beacon_group. rewrite Hex, Hsus, Hts. by left.
  - intros a name Ha Hdom.
    destruct (detect_c2_beaconing_elem_of _ _ _ _ _ Hq Ha) as (u & n & Hin).
    destruct (beacon_group_elem_of _ _ _ _ _ _ Hin) as (_ & _ & Hd & Hex).
    congruence.
Qed.

End SuspiciousNames.

Lemma suspicious_names_reported_witness :
  (exists a,
     a ∈ AWSCorrelator.detect_c2_beaconing (H := stable_PandasSort)
           (H0 := two_pass_PandasStats) c2_run
           AWSCorrelator.default_interval_threshold 5
     /\ AWSCorrelator.domain a = Some "C2-Server-7.example.com"
     /\ AWSCorrelator.avg_interval a = Some AWSCorrelator.NA)
  /\ map AWSCorrelator.domain
         (AWSCorrelator.detect_c2_beaconing (H := stable_PandasSort)
            (H0 := two_pass_PandasStats) c2_run
            AWSCorrelator.default_interval_threshold 5)
     = [Some "C2-Server-7.example.com"].
Proof.
  destruct (suspicious_names_reported (H := stable_PandasSort)
              (H0 := two_pass_PandasStats) c2_run _
              AWSCorrelator.default_interval_threshold 5 eq_refl) as [Halways _].
  split; [|by vm_compute].
  destruct (Halways {| AWSCorrelator.q_user_label := "USER_A";
                       AWSCorrelator.query_name := Some "C2-Server-7.example.com";
                       AWSCorrelator.query_timestamp := new_year_2025;
                       AWSCorrelator.instance_id := None |}
                    "C2-Server-7.example.com")
    as (a & Ha & _ & Hdom & _ & Havg & _);
    [by left|done|by vm_compute|by vm_compute|].
  by exists a.
Defined.

(** ** AWS: Dropbox queries are reported twice *)

Section DropboxTwice.
Import AWSCorrelator.
Context `{PandasStats}.

Lemma re_search_cons pat c s :
  re_search pat s = true -> re_search pat (String c s) = true.
Proof. intros Hs. simpl. rewrite Hs. apply orb_true_r. Qed.

Lemma re_match_here_dropbox s :
  re_match_here "dropbox.com" s = true -> re_search "box.com" s = true.
Proof.
  destruct s as [|c1 [|c2 [|c3 [|c4 rest]]]];
    cbn [re_match_here]; rewrite ?andb_false_r; try done.
  intros (_ & (_ & (_ & (_ & Hbox)%andb_prop)%andb_prop)%andb_prop)%andb_prop.
  do 4 apply re_search_cons.
  destruct rest; simpl in *; rewrite ?Hbox; done.
Qed.

Lemma re_search_dropbox s :
  re_search "dropbox.com" s = true -> re_search "box.com" s = true.
Proof.
  induction s as [|c s IH].
  - by simpl.
  - intros [Hhere|Hrest]%orb_prop.
    + by apply re_match_here_dropbox.
    + apply re_search_cons. by apply IH.
Qed.

(** X19.  The pattern [box.com] matches every name the pattern
    [dropbox.com] matches, and the detector goes through both: a query for
    a Dropbox name is reported twice by [detect_data_exfiltration], with
    the same row, whenever the user's traffic to port 443 exceeds the
    threshold. *)
Theorem dropbox_reported_twice (self : t) (q : list QueryLog) (r : QueryLog) :
  query_logs_df self = Some q -> r ∈ q ->
  str_contains "dropbox.com" (query_name r) = true ->
  100000 < https_total (vpc_logs_df self) (q_user_label r) ->
  str_contains "box.com" (query_name r) = true
  /\ [exfil_activity (q_user_label r)
                     (https_total (vpc_logs_df self) (q_user_label r)) r;
      exfil_activity (q_user_label r)
                     (https_total (vpc_logs_df self) (q_user_label r)) r]
     `sublist_of` detect_data_exfiltration self.
Proof.
  intros Hq Hr Hdrop Hbytes.
  assert (str_contains "box.com" (query_name r) = true) as Hbox.
  { unfold str_contains in *. destruct (query_name r); [|done].
    by apply re_search_dropbox. }
  split; [done|].
  rewrite (detect_data_exfiltration_pairs _ _ Hq).
  set (u := q_user_label r). set (total := https_total (vpc_logs_df self) u).
  assert (u ∈ sorted (unique (map q_user_label q))) as Hu.
  { apply elem_of_sorted, elem_of_unique, list_elem_of_fmap. by exists r. }
  apply list_elem_of_split in Hu as (l1 & l2 & ->).
  rewrite flat_map_app. apply sublist_inserts_l. simpl.
  apply sublist_inserts_r. fold total.
  rewrite bool_decide_eq_true_2 by done.
  assert (forall d, str_contains d (query_name r) = true ->
            [exfil_activity u total r]
              `sublist_of` map (exfil_activity u total) (matching_queries q u d))
    as Hone.
  { intros d Hd. apply singleton_sublist, list_elem_of_fmap. exists r.
    split; [done|]. apply list_elem_of_filter. split; [by rewrite Hd|].
    by apply list_elem_of_filter. }
  apply sublist_inserts_l.
  change [exfil_activity u total r; exfil_activity u total r]
    with ([exfil_activity u total r] ++ [exfil_activity u total r]).
  apply sublist_app; [by apply Hone|].
  apply sublist_inserts_l, sublist_inserts_r. by apply Hone.
Qed.

End DropboxTwice.

Lemma dropbox_reported_twice_witness :
  length (AWSCorrelator.detect_data_exfiltration (H := two_pass_PandasStats)
            dropbox_run) = 2%nat
  /\ str_contains "box.com" (Some "www.dropbox.com") = true.
Proof.
  split; [by vm_compute|].
  refine (proj1 (dropbox_reported_twice (H := two_pass_PandasStats) dropbox_run _
                   {| AWSCorrelator.q_user_label := "USER_A";
                      AWSCorrelator.query_name := Some "www.dropbox.com";
                      AWSCorrelator.query_timestamp := new_year_2025;
                      AWSCorrelator.instance_id := None |}
                   eq_refl _ eq_refl _)).
  - by left.
  - by vm_compute.
Defined.

(** ** AWS: detection and the timeline *)

Section DetectionAndTimeline.
Import AWSCorrelator.
Context `{PandasSort} `{PandasStats}.

Lemma generate_timeline_Permutation self :
  generate_timeline self ≡ₚ timeline_rows self.
Proof.
  unfold generate_timeline. case_decide; [apply sort_values_Permutation|done].
Qed.

Lemma length_filter_map_const {A B} (P : B -> Prop) `{!forall x, Decision (P x)}
    (f : A -> B) (l : list A) (b : bool) :
  (forall x, if b then P (f x) else ~ P (f x)) ->
  length (filter P (map f l)) = if b then length l else 0%nat.
Proof.
  intros Hf. induction l as [|x l IH]; simpl; [by destruct b|].
  rewrite filter_cons. specialize (Hf x). destruct b.
  - rewrite decide_True by done. simpl. by rewrite IH.
  - by rewrite decide_False.
Qed.

(** X20.  [detect_all_activities] stores what it returns, and what it
    returns depends on the loaded logs only: a second run returns and
    stores the same activities again, nothing accumulates.  The timeline
    generated afterwards has one 'Login' entry for every login event and
    one 'Threat Detected' entry for every activity, and the summary
    statistics count the activities returned. *)
Theorem detect_all_activities_timeline (self : t) :
  activity_timeline (detect_all_activities self).1
  = Some (detect_all_activities self).2
  /\ detect_all_activities (detect_all_activities self).1
     = detect_all_activities self
  /\ length (generate_timeline (detect_all_activities self).1)
     = (length (login_events self) + length (detect_all_activities self).2)%nat
  /\ length (filter (fun entry => Event_Type entry = "Threat Detected")
                    (generate_timeline (detect_all_activities self).1))
     = length (detect_all_activities self).2
  /\ length (filter (fun entry => Event_Type entry = "Login")
                    (generate_timeline (detect_all_activities self).1))
     = length (login_events self)
  /\ activities_detected (get_summary_statistics (detect_all_activities self).1)
     = length (detect_all_activities self).2.
Proof.
  set (run := detect_all_activities self).
  assert (timeline_rows run.1
          = map (login_entry (match query_logs_df self, eventbridge_df self with
                              | Some q, Some e => build_workspace_user_map e q
                              | _, _ => ∅
                              end)) (login_events self)
            ++ map (threat_entry (existsb (fun a => bool_decide (is_Some (details a)))
                                          run.2)) run.2) as Hrows.
  { unfold timeline_rows, login_events. cbn [run detect_all_activities fst snd
      set_activity_timeline eventbridge_df query_logs_df activity_timeline].
    by destruct (eventbridge_df self). }
  split_and!.
  - done.
  - done.
  - rewrite generate_timeline_Permutation, Hrows.
    by rewrite length_app, !length_map.
  - rewrite generate_timeline_Permutation, Hrows, filter_app, length_app.
    rewrite (length_filter_map_const _ _ _ false) by done.
    by rewrite (length_filter_map_const _ _ _ true).
  - rewrite generate_timeline_Permutation, Hrows, filter_app, length_app.
    rewrite (length_filter_map_const _ _ _ true) by done.
    rewrite (length_filter_map_const _ _ _ false) by done. lia.
  - unfold get_summary_statistics.
    cbn [run detect_all_activities fst snd set_activity_timeline activity_timeline
         activities_detected].
    match goal with |- _ = length ?l => by destruct l end.
Qed.

End DetectionAndTimeline.

(** ** Azure: the names of the VMs *)

Section VMNames.
Import AzureCorrelator.

Lemma split_on_not_nil c s : split_on c s <> [].
Proof.
  destruct s as [|a s]; simpl; [done|].
  destruct (decide (a = c)); [done|]. by destruct (split_on c s).
Qed.

Lemma split_on_absent c s : occurs c s = false -> split_on c s = [s].
Proof.
  induction s as [|a s IH]; simpl; [done|].
  intros [Ha Hs]%orb_false_elim. apply bool_decide_eq_false in Ha.
  rewrite decide_False by done. by rewrite IH.
Qed.

Lemma split_on_last c pre suf :
  occurs c suf = false ->
  (1 < length (split_on c (pre +:+ String c suf)))%nat
  /\ List.last (split_on c (pre +:+ String c suf)) EmptyString = suf.
Proof.
  intros Hsuf. induction pre as [|a pre [IHlen IHlast]].
  - rewrite append_nil. simpl. rewrite decide_True by done.
    rewrite (split_on_absent _ _ Hsuf). simpl. split; [lia|done].
  - rewrite append_cons. simpl. destruct (decide (a = c)) as [->|Hne].
    + split; [simpl; lia|].
      destruct (split_on c (pre +:+ String c suf)); [simpl in IHlen; lia|done].
    + destruct (split_on c (pre +:+ String c suf)) as [|p [|p' ps]];
        [simpl in IHlen; lia..|].
      split; [simpl; lia|done].
Qed.

(** X21.  [_generate_vm_name] is memoised and never renames: calling it
    again with the same identifier returns the same name and leaves the
    cache as it is, and an entry of the cache is never overwritten.  The
    empty identifier and ['Unknown'] give ['Unknown'] and are not cached;
    any other identifier is in the cache afterwards, under the name
    returned.  A name made for an identifier that was not cached is
    ['VM-'] followed by the text after the last dash of the identifier,
    or by its first twelve characters when it has no dash. *)
Theorem generate_vm_name_memoised (cache : gmap string string) (device_id : string) :
  generate_vm_name (generate_vm_name cache device_id).2 device_id
  = generate_vm_name cache device_id
  /\ (forall k v, cache !! k = Some v ->
        (generate_vm_name cache device_id).2 !! k = Some v)
  /\ (device_id = "" \/ device_id = "Unknown" ->
      generate_vm_name cache device_id = ("Unknown", cache))
  /\ (device_id <> "" -> device_id <> "Unknown" ->
      (generate_vm_name cache device_id).2 !! device_id
      = Some (generate_vm_name cache device_id).1)
  /\ (device_id <> "" -> device_id <> "Unknown" -> cache !! device_id = None ->
      (occurs "-" device_id = false ->
       (generate_vm_name cache device_id).1
       = "VM-" +:+ String.substring 0 12 device_id)
      /\ (forall pre suf,
            device_id = pre +:+ String "-" suf -> occurs "-" suf = false ->
            (generate_vm_name cache device_id).1 = "VM-" +:+ suf)).
Proof.
  unfold generate_vm_name.
  destruct (decide (device_id = "" \/ device_id = "Unknown")) as [Hunk|Hknown].
  { split_and!; try done; intros H1 H2; destruct Hunk; done. }
  destruct (cache !! device_id) as [vm_name|] eqn:Hc.
  { split_and!; try done. simpl. by rewrite Hc. }
  split_and!.
  - simpl. by rewrite lookup_insert_eq.
  - intros k v Hk. simpl. rewrite lookup_insert_ne; [done|]. congruence.
  - intros Hunk. by destruct Hknown.
  - intros _ _. simpl. by rewrite lookup_insert_eq.
  - intros _ _ _. simpl. split.
    + intros Hno. by rewrite (split_on_absent _ _ Hno).
    + intros pre suf -> Hsuf. destruct (split_on_last "-" pre suf Hsuf) as [Hlen Hlast].
      by rewrite decide_True, Hlast.
Qed.

End VMNames.

(** ** Azure: every sign-in with a device is in one session *)

Lemma foldlM_measure {A S} (f : S -> A -> result S) (m : S -> nat) (w : A -> nat)
    (l : list A) :
  (forall s x s', x ∈ l -> f s x = Ok s' -> m s' = (m s + w x)%nat) ->
  forall s s', foldlM f s l = Ok s' -> m s' = (m s + sum_list (map w l))%nat.
Proof.
  induction l as [|x l IH]; intros Hstep s s'; simpl.
  - intros [= <-]. lia.
  - unfold mbind, result_bind. destruct (f s x) as [s1|] eqn:Hx; [|done].
    intros Hrest. apply IH in Hrest; [|intros s0 y s0' Hy; apply Hstep; by right].
    rewrite Hrest, (Hstep s x s1); [lia|by left|done].
Qed.

Lemma sum_list_const_one {A} (l : list A) :
  sum_list (map (fun _ => 1%nat) l) = length l.
Proof. induction l as [|x l IH]; simpl; [done|]. by rewrite IH. Qed.

Lemma groupby_opt_lengths {A} (key : A -> option string) (l : list A) :
  sum_list (map (fun g => length g.2) (groupby_opt key l))
  = length (filter (fun x => is_Some (key x)) l).
Proof.
  unfold groupby_opt. rewrite map_map. simpl.
  set (ks := sorted (unique (omap key l))).
  set (l' := filter (fun x => is_Some (key x)) l).
  rewrite <- (length_groups key (map Some ks) l').
  - rewrite map_map. f_equal. apply map_ext. intros k. f_equal.
    unfold l'. rewrite list_filter_filter. apply list_filter_iff. intros x.
    split; [|by intros [? _]]. intros Hx. split; [done|]. by rewrite Hx.
  - apply (NoDup_fmap_2 Some), NoDup_sorted_unique.
  - intros x [[k Hk] Hx]%list_elem_of_filter. rewrite Hk.
    apply list_elem_of_fmap. exists k. split; [done|].
    apply elem_of_sorted, elem_of_unique, list_elem_of_omap. by exists x.
Qed.

Section AzureCoverage.
Import AzureCorrelator.
Context `{PandasSort}.

Lemma event_session_covers cols user acc event acc' :
  event_session cols user acc event = Ok acc' ->
  events_covered acc'.2 = (events_covered acc.2 + 1)%nat
  /\ length acc'.2 = (length acc.2 + 1)%nat.
Proof.
  unfold event_session.
  destruct (generate_vm_name acc.1 "Unknown") as [vm_name cache].
  destruct (Timestamp_add (Date event) (minutes 30)) as [r|e]; [|done].
  simpl. intros [= <-]. simpl. unfold events_covered.
  rewrite map_app, sum_list_with_app, length_app. simpl. split; lia.
Qed.

Lemma device_session_covers cols user acc g acc' :
  device_session cols user acc g = Ok acc' ->
  events_covered acc'.2 = (events_covered acc.2 + length g.2)%nat
  /\ (length acc.2 <= events_covered acc.2 ->
      length acc'.2 <= events_covered acc'.2)%nat.
Proof.
  unfold device_session.
  pose proof (Permutation_length (sort_values_Permutation Date g.2)) as Hlen.
  destruct (sort_values Date g.2) as [|first_event rest] eqn:Hsorted.
  { intros [= <-]. simpl in Hlen. rewrite <- Hlen. split; lia. }
  destruct (generate_vm_name acc.1 g.1) as [vm_name cache].
  destruct (Timestamp_add _ (minutes 30)) as [r|e]; [|done].
  simpl. intros [= <-]. simpl. unfold events_covered.
  rewrite map_app, sum_list_with_app, length_app.
  set (n := sum_list (map events_of acc.2)).
  unfold events_of. simpl in *. split; lia.
Qed.

Lemma user_sessions_covers df acc user acc' :
  user_sessions df acc user = Ok acc' ->
  events_covered acc'.2
  = (events_covered acc.2
     + length (filter (has_device df) (filter (fun e => User e = user) (events df))))%nat
  /\ (length acc.2 <= events_covered acc.2 ->
      length acc'.2 <= events_covered acc'.2)%nat
  /\ (device_column (columns df) = None ->
      length acc'.2
      = (length acc.2 + length (filter (fun e => User e = user) (events df)))%nat).
Proof.
  unfold user_sessions.
  set (user_events := filter (fun e => User e = user) (events df)).
  destruct (device_column (columns df)) as [device_col|] eqn:Hcol; intros Hrun.
  - assert (filter (has_device df) user_events
            = filter (fun e => is_Some (attrs e !! device_col)) user_events) as ->.
    { apply list_filter_iff. intros e. unfold has_device. by rewrite Hcol. }
    split_and!; [| |done].
    + rewrite (foldlM_measure _ (fun a : Acc => events_covered a.2)
                 (fun g => length g.2) _ (fun a g a' _ Hs =>
                    proj1 (device_session_covers _ _ _ _ _ Hs)) _ _ Hrun).
      by rewrite groupby_opt_lengths.
    + intros Hle.
      apply (foldlM_invariant _ (fun a : Acc => (length a.2 <= events_covered a.2)%nat)
               _ (fun a g a' _ Ha Hs =>
                    proj2 (device_session_covers _ _ _ _ _ Hs) Ha) _ _ Hle Hrun).
  - assert (filter (has_device df) user_events = user_events) as ->.
    { apply filter_all. intros e. unfold has_device. by rewrite Hcol. }
    split_and!.
    + rewrite (foldlM_measure _ (fun a : Acc => events_covered a.2)
                 (fun _ => 1%nat) _ (fun a ev a' _ Hs =>
                    proj1 (event_session_covers _ _ _ _ _ Hs)) _ _ Hrun).
      by rewrite sum_list_const_one.
    + intros Hle.
      refine (foldlM_invariant _ (fun a : Acc => (length a.2 <= events_covered a.2)%nat)
                _ _ _ _ Hle Hrun).
      intros a ev a' _ Ha Hs.
      destruct (event_session_covers _ _ _ _ _ Hs) as [-> ->]. lia.
    + intros _.
      rewrite (foldlM_measure _ (fun a : Acc => length a.2)
                 (fun _ => 1%nat) _ (fun a ev a' _ Hs =>
                    proj2 (event_session_covers _ _ _ _ _ Hs)) _ _ Hrun).
      by rewrite sum_list_const_one.
Qed.

Lemma build_sessions_covers self df cache sessions :
  build_sessions self df = Ok (cache, sessions) ->
  events_covered sessions = length (filter (has_device df) (events df))
  /\ (length sessions <= events_covered sessions)%nat
  /\ (device_column (columns df) = None -> length sessions = length (events df)).
Proof.
  unfold build_sessions. intros Hrun.
  assert (forall P : SignIn -> Prop, forall Hdec : (forall e, Decision (P e)),
            sum_list (map (fun u => length (filter P
                                      (filter (fun e => User e = u) (events df))))
                          (unique (map User (events df))))
            = length (filter P (events df))) as Hsum.
  { intros P Hdec.
    rewrite <- (length_groups User (unique (map User (events df)))
                  (filter P (events df))).
    - f_equal. apply map_ext. intros u. f_equal.
      rewrite !list_filter_filter. apply list_filter_iff. tauto.
    - apply NoDup_unique.
    - intros e [_ He]%list_elem_of_filter.
      apply elem_of_unique, list_elem_of_fmap. by exists e. }
  split_and!.
  - pose proof (foldlM_measure _ (fun a : Acc => events_covered a.2)
               (fun u => length (filter (has_device df)
                                   (filter (fun e => User e = u) (events df))))
               _ (fun a u a' _ Hs => proj1 (user_sessions_covers _ _ _ _ Hs))
               _ _ Hrun) as Hm.
    simpl in Hm. rewrite Hm. apply Hsum.
  - change (length (cache, sessions).2 <= events_covered (cache, sessions).2)%nat.
    refine (foldlM_invariant _ (fun a : Acc => (length a.2 <= events_covered a.2)%nat)
              _ _ _ _ _ Hrun); [|simpl; lia].
    intros a u a' _ Ha Hs.
    by apply (proj1 (proj2 (user_sessions_covers _ _ _ _ Hs))).
  - intros Hcol.
    pose proof (foldlM_measure _ (fun a : Acc => length a.2)
               (fun u => length (filter (fun e => User e = u) (events df)))
               _ (fun a u a' _ Hs =>
                    proj2 (proj2 (user_sessions_covers _ _ _ _ Hs)) Hcol)
               _ _ Hrun) as Hm.
    simpl in Hm. rewrite Hm.
    rewrite <- (filter_all (fun _ => True) (events df)) at 2 by done.
    rewrite <- (Hsum (fun _ => True) _).
    f_equal. apply map_ext. intros u. by rewrite (filter_all (fun _ => True)).
Qed.

(** X22.  The Azure session mapping covers every sign-in that has a value
    in the device column exactly once: the event counts of the sessions
    (one for a session of the fallback path) add up to the number of those
    sign-ins, and a sign-in without a device value is in no session.
    A table without a device column gets one session per sign-in.  There
    are never more sessions than sign-ins, also in the summary
    statistics. *)
Theorem generate_user_vm_mapping_coverage (self : t) (df : SignInTable)
    (self' : t) (sessions : list Session) :
  noninteractive_signin_df self = Some df ->
  generate_user_vm_mapping self = Ok (self', sessions) ->
  events_covered sessions = length (filter (has_device df) (events df))
  /\ (length sessions <= events_covered sessions)%nat
  /\ (device_column (columns df) = None -> length sessions = length (events df))
  /\ total_sessions (get_summary_statistics self') = Some (length sessions)
  /\ total_noninteractive_signins (get_summary_statistics self')
     = Some (length (events df))
  /\ (length sessions <= length (events df))%nat.
Proof.
  intros Hdf. unfold generate_user_vm_mapping. rewrite Hdf.
  destruct (build_sessions self df) as [[cache built]|e] eqn:Hb; [|done].
  simpl. destruct built as [|s0 built]; [done|].
  intros [= <- <-].
  destruct (build_sessions_covers _ _ _ _ Hb) as (Hcov & Hle & Hfb).
  set (sorted_sessions := sort_values Session_Start (s0 :: built)).
  assert (sorted_sessions ≡ₚ s0 :: built) as Hperm
    by apply sort_values_Permutation.
  assert (events_covered sorted_sessions = events_covered (s0 :: built)) as Hcov'.
  { unfold events_covered. by rewrite Hperm. }
  assert (length sorted_sessions = length (s0 :: built)) as Hlen
    by (by rewrite Hperm).
  pose proof (length_filter (has_device df) (events df)) as Hfilter.
  split_and!.
  - by rewrite Hcov'.
  - rewrite Hcov', Hlen. exact Hle.
  - intros Hcol. rewrite Hlen. by apply Hfb.
  - done.
  - unfold get_summary_statistics. simpl. by rewrite Hdf.
  - rewrite Hlen. lia.
Qed.

End AzureCoverage.

Lemma generate_user_vm_mapping_coverage_witness :
  (exists self' sessions,
     AzureCorrelator.generate_user_vm_mapping (H := stable_PandasSort) partly_known_run
     = Ok (self', sessions)
     /\ events_covered sessions = 2%nat
     /\ length sessions = 1%nat)
  /\ length (AzureCorrelator.events partly_known) = 3%nat.
Proof.
  split; [|done].
  destruct (AzureCorrelator.generate_user_vm_mapping (H := stable_PandasSort)
              partly_known_run) as [[self' sessions]|e] eqn:Hrun;
    [|by vm_compute in Hrun].
  destruct (generate_user_vm_mapping_coverage (H := stable_PandasSort)
              partly_known_run partly_known self' sessions eq_refl Hrun)
    as (Hcov & _).
  exists self', sessions. split; [done|]. split.
  - rewrite Hcov. by vm_compute.
  - vm_compute in Hrun. by injection Hrun as _ <-.
Defined.

(** ** Azure: the fragmentation report *)

Lemma length_unique_le {K} `{EqDecision K} (l : list K) :
  (length (unique l) <= length l)%nat.
Proof. apply sublist_length, drop_first_sublist. Qed.

Lemma unique_not_nil {K} `{EqDecision K} (l : list K) : l <> [] -> unique l <> [].
Proof. destruct l as [|x l]; [done|]. intros _. unfold unique. simpl. done. Qed.

Lemma filter_user_not_nil {A} (key : A -> string) (l : list A) u :
  u ∈ unique (map key l) -> filter (fun x => key x = u) l <> [].
Proof.
  intros (x & -> & Hx)%elem_of_unique%list_elem_of_fmap Hnil.
  assert (x ∈ filter (fun y => key y = key x) l) as Hin
    by (by apply list_elem_of_filter).
  rewrite Hnil in Hin. by apply elem_of_nil in Hin.
Qed.

Section Fragmentation.
Import AzureCorrelator.

Lemma fragmentation_row_singleton m user :
  user ∈ unique (map s_User m) ->
  exists row,
    fragmentation_row m user = [row]
    /\ f_User row = user
    /\ Total_Sessions row = length (sessions_of m user)
    /\ Unique_VMs row = length (vms_of m user)
    /\ Total_Duration row = Last_Session row - First_Session row.
Proof.
  intros Hu%filter_user_not_nil. unfold fragmentation_row.
  fold (sessions_of m user). fold (sessions_of m user) in Hu.
  unfold vms_of. destruct (sessions_of m user) as [|s ss] eqn:Hs; [done|].
  by eexists.
Qed.

(** X23.  [detect_evidence_fragmentation] reports every user of the
    session mapping once, in the order of their first session in the
    mapping.  The session counts of the rows add up to the size of the
    mapping; a row counts the sessions of its user, holds at least one VM
    and no more VMs than sessions, and its duration is the time between
    its first and its last session. *)
Theorem detect_evidence_fragmentation_rows (self : t) (m : list Session) :
  user_vm_mapping self = Some m ->
  exists rows,
    detect_evidence_fragmentation self = Ok rows
    /\ map f_User rows = unique (map s_User m)
    /\ sum_list (map Total_Sessions rows) = length m
    /\ (forall row, row ∈ rows ->
          Total_Sessions row = length (sessions_of m (f_User row))
          /\ Unique_VMs row = length (vms_of m (f_User row))
          /\ (1 <= Unique_VMs row <= Total_Sessions row)%nat
          /\ Total_Duration row = Last_Session row - First_Session row).
Proof.
  intros Hm. unfold detect_evidence_fragmentation. rewrite Hm.
  eexists. split; [done|]. split_and!.
  - rewrite <- (map_id (unique (map s_User m))) at 2.
    apply map_flat_map_singleton. intros u Hu.
    destruct (fragmentation_row_singleton m u Hu) as (row & Hrow & Hf & _).
    by exists row.
  - rewrite (map_flat_map_singleton _ Total_Sessions
               (fun u => length (sessions_of m u))).
    + apply (length_groups s_User); [apply NoDup_unique|].
      intros s Hs. apply elem_of_unique, list_elem_of_fmap. by exists s.
    + intros u Hu.
      destruct (fragmentation_row_singleton m u Hu) as (row & Hrow & _ & Ht & _).
      by exists row.
  - intros row (u & Hu & Hrow)%list_elem_of_In%in_flat_map.
    apply list_elem_of_In in Hu, Hrow.
    destruct (fragmentation_row_singleton m u Hu)
      as (row' & Hrow' & Hf & Ht & Hv & Hd).
    rewrite Hrow' in Hrow. apply list_elem_of_singleton in Hrow as ->.
    rewrite Hf.
    assert (1 <= Unique_VMs row' <= Total_Sessions row')%nat as Hbounds; [|done].
    rewrite Hv, Ht. unfold vms_of.
    pose proof (length_unique_le (map VM_Identifier (sessions_of m u))) as Hle.
    rewrite length_map in Hle. split; [|done].
    pose proof (filter_user_not_nil s_User m u Hu) as Hne.
    fold (sessions_of m u) in Hne.
    assert (unique (map VM_Identifier (sessions_of m u)) <> []) as Hvm.
    { apply unique_not_nil. by destruct (sessions_of m u). }
    destruct (unique (map VM_Identifier (sessions_of m u))); [done|simpl; lia].
Qed.

Lemma detect_evidence_fragmentation_rows_witness :
  (exists rows, detect_evidence_fragmentation roaming = Ok rows
                /\ map f_User rows = ["alice"; "bob"]
                /\ map Total_Sessions rows = [2%nat; 1%nat]).
Proof.
  destruct (detect_evidence_fragmentation_rows roaming _ eq_refl)
    as (rows & Hrun & Husers & _).
  exists rows. split; [done|]. split; [by rewrite Husers|].
  vm_compute in Hrun. by injection Hrun as <-.
Defined.

End Fragmentation.

(** ** Azure: detection and the timeline *)

Section AzureDetectionAndTimeline.
Import AzureCorrelator.
Context `{PandasSort} `{PandasStats}.

Lemma azure_generate_timeline_Permutation self :
  generate_timeline self ≡ₚ timeline_rows self.
Proof.
  unfold generate_timeline. case_decide; [apply sort_values_Permutation|done].
Qed.

(** X24.  [detect_all_activities] of the Azure correlator stores what it
    returns, and a second run returns and stores the same activities
    again.  The Azure timeline does not show them: before and after the
    detection it is the same, one 'Sign-in' entry for every non-interactive
    sign-in and nothing else.  The summary statistics count the activities
    returned. *)
Theorem azure_detect_all_activities_timeline (self self' : t)
    (combined : list Activity) :
  detect_all_activities self = Ok (self', combined) ->
  activity_timeline self' = Some combined
  /\ detect_all_activities self' = Ok (self', combined)
  /\ generate_timeline self' = generate_timeline self
  /\ (forall entry, entry ∈ generate_timeline self' -> Event_Type entry = "Sign-in")
  /\ length (generate_timeline self') = length (signin_events self)
  /\ activities_detected (get_summary_statistics self') = length combined.
Proof.
  unfold detect_all_activities.
  destruct (detect_failed_logins self) as [failed|] eqn:Hfailed; [|done].
  destruct (detect_multiple_ip_access self) as [ip|] eqn:Hip; [|done].
  cbn [mbind result_bind]. intros [= <- <-].
  split_and!.
  - done.
  - assert (detect_failed_logins
              (set_activity_timeline self
                 (failed ++ detect_rapid_vm_switching self ++ ip)) = Ok failed)
      as -> by exact Hfailed.
    assert (detect_multiple_ip_access
              (set_activity_timeline self
                 (failed ++ detect_rapid_vm_switching self ++ ip)) = Ok ip)
      as -> by exact Hip.
    done.
  - done.
  - intros entry. rewrite azure_generate_timeline_Permutation.
    unfold timeline_rows.
    destruct (noninteractive_signin_df _); [|by intros ?%elem_of_nil].
    by intros (ev & -> & _)%list_elem_of_fmap.
  - rewrite azure_generate_timeline_Permutation.
    unfold timeline_rows, signin_events. simpl.
    destruct (noninteractive_signin_df self); [by rewrite length_map|done].
  - unfold get_summary_statistics.
    cbn [set_activity_timeline activity_timeline activities_detected].
    match goal with |- _ = length ?l => by destruct l end.
Qed.

End AzureDetectionAndTimeline.

Lemma azure_detect_all_activities_timeline_witness :
  (exists self' combined,
     AzureCorrelator.detect_all_activities (H := stable_PandasSort)
       (H0 := two_pass_PandasStats) Scenario.azure = Ok (self', combined)
     /\ AzureCorrelator.generate_timeline (H := stable_PandasSort) self'
        = AzureCorrelator.generate_timeline (H := stable_PandasSort) Scenario.azure).
Proof.
  destruct (AzureCorrelator.detect_all_activities (H := stable_PandasSort)
              (H0 := two_pass_PandasStats) Scenario.azure)
    as [[self' combined]|e] eqn:Hrun; [|by vm_compute in Hrun].
  exists self', combined. split; [done|].
  exact (proj1 (proj2 (proj2 (azure_detect_all_activities_timeline
                                (H := stable_PandasSort) (H0 := two_pass_PandasStats)
                                Scenario.azure self' combined Hrun)))).
Defined.

(** ** Azure: several addresses, several VMs *)

Lemma mapM_result_lookup {A B} (f : A -> result B) l ys x :
  mapM_result f l = Ok ys -> x ∈ l -> exists y, y ∈ ys /\ f x = Ok y.
Proof.
  intros Hm%mapM_result_Ok_Forall2 Hx.
  induction Hm as [|x' y l ys Hf _ IH]; [by apply elem_of_nil in Hx|].
  apply elem_of_cons in Hx as [->|Hx].
  - exists y. split; [by left|done].
  - destruct (IH Hx) as (y' & Hy' & Hfy). exists y'. split; [by right|done].
Qed.

Lemma map_concat_sublist {A B C} (R : A -> list B -> Prop) (p : B -> C)
    (l : list A) (yss : list (list B)) (k : A -> C) :
  Forall2 R l yss ->
  (forall x ys, R x ys -> ys = [] \/ exists b, ys = [b] /\ p b = k x) ->
  map p (List.concat yss) `sublist_of` map k l.
Proof.
  intros HF HR. induction HF as [|x ys l yss Hx _ IH]; [done|].
  simpl. destruct (HR _ _ Hx) as [->|(b & -> & Hb)].
  - simpl. by apply sublist_cons.
  - simpl. rewrite Hb. by apply sublist_skip.
Qed.

Section MultipleAddresses.
Import AzureCorrelator.

Lemma join_cells_total vs :
  Forall (fun v : option string => is_Some v) vs -> exists s, join_cells vs = Ok s.
Proof.
  intros Hall. unfold join_cells.
  destruct (mapM_result_total
              (fun v : option string =>
                 match v with
                 | Some s => Ok s
                 | None => Raise (TypeError "sequence item: expected str instance")
                 end) vs) as [strs ->]; [|by eexists].
  eapply Forall_impl; [exact Hall|]. intros v [s ->]. by eexists.
Qed.

Lemma multiple_ip_activity_rows m user ys :
  multiple_ip_activity m user = Ok ys ->
  (ys = [] /\ ((length (ips_of m user) <= 1)%nat \/ sessions_of m user = []))
  \/ (exists a, ys = [a]
        /\ a_user a = user /\ activity_type a = Multiple_IP_Access
        /\ ip_count a = Some (length (ips_of m user))
        /\ (1 < length (ips_of m user))%nat).
Proof.
  unfold multiple_ip_activity. fold (sessions_of m user).
  fold (ips_of m user).
  destruct (sessions_of m user) as [|s ss] eqn:Hs.
  { intros [= <-]. left. split; [done|by right]. }
  rewrite <- Hs. destruct (decide (1 < length (ips_of m user))%nat) as [Hmany|Hfew].
  - destruct (join_cells (take 5 (ips_of m user))) as [ips|]; [|done].
    simpl. intros [= <-]. right. by eexists.
  - intros [= <-]. left. split; [done|left; lia].
Qed.

(** X25.  When [detect_multiple_ip_access] returns, it reports a user of
    the session mapping exactly when the sessions of the user carry more
    than one distinct address, a missing address counting as one; there
    is at most one row per user, in the order of the users in the
    mapping, and the row counts the distinct addresses.  When every
    session has an address the detector does return. *)
Theorem detect_multiple_ip_access_rows (self : t) (m : list Session) :
  user_vm_mapping self = Some m ->
  (Forall (fun s => is_Some (IP_Address s)) m ->
   exists rows, detect_multiple_ip_access self = Ok rows)
  /\ (forall rows,
        detect_multiple_ip_access self = Ok rows ->
        map a_user rows `sublist_of` unique (map s_User m)
        /\ (forall user,
              user ∈ map a_user rows <->
              user ∈ map s_User m /\ (1 < length (ips_of m user))%nat)
        /\ (forall a, a ∈ rows ->
              activity_type a = Multiple_IP_Access
              /\ ip_count a = Some (length (ips_of m (a_user a))))).
Proof.
  intros Hm. unfold detect_multiple_ip_access. rewrite Hm. split.
  - intros Hall.
    destruct (mapM_result_total (multiple_ip_activity m) (unique (map s_User m)))
      as [per_user ->]; [|by eexists].
    apply Forall_forall. intros user _. unfold multiple_ip_activity.
    destruct (filter _ m) as [|s ss] eqn:Hs; [by eexists|].
    case_decide; [|by eexists].
    destruct (join_cells_total
                (take 5 (unique (map IP_Address (s :: ss))))) as [ips ->];
      [|by eexists].
    apply Forall_forall. intros v Hv.
    apply (sublist_subseteq _ _ (sublist_take _ 5)) in Hv.
    apply (proj1 (elem_of_unique _ _)) in Hv.
    apply list_elem_of_fmap in Hv as (s' & -> & Hs').
    rewrite <- Hs in Hs'. apply list_elem_of_filter in Hs' as [_ Hs'].
    rewrite Forall_forall in Hall. by apply Hall.
  - intros rows.
    destruct (mapM_result (multiple_ip_activity m) (unique (map s_User m)))
      as [per_user|] eqn:Hrun; [|done].
    simpl. intros [= <-]. split_and!.
    + rewrite <- (map_id (unique (map s_User m))).
      apply (map_concat_sublist _ _ _ _ _ (mapM_result_Ok_Forall2 _ _ _ Hrun)).
      intros u ys Hys. simpl in Hys.
      destruct (multiple_ip_activity_rows _ _ _ Hys) as [[-> _]|(a & -> & Hu & _)];
        [by left|right; by exists a].
    + intros user. split.
      * intros (a & -> & Ha)%list_elem_of_fmap.
        apply list_elem_of_In, in_concat in Ha as (ys & Hys & Ha).
        apply list_elem_of_In in Hys, Ha.
        destruct (mapM_result_elem_of _ _ _ _ Hrun Hys) as (u & Hu & Hact).
        destruct (multiple_ip_activity_rows _ _ _ Hact)
          as [[-> _]|(a' & -> & Hau & _ & _ & Hmany)];
          [by apply elem_of_nil in Ha|].
        apply list_elem_of_singleton in Ha as ->. rewrite Hau.
        split; [by apply (proj1 (elem_of_unique _ _)) in Hu|done].
      * intros [Hu Hmany]. apply (proj2 (elem_of_unique _ _)) in Hu.
        destruct (mapM_result_lookup _ _ _ _ Hrun Hu) as (ys & Hys & Hact).
        destruct (multiple_ip_activity_rows _ _ _ Hact)
          as [[_ [Hfew|Hnone]]|(a & -> & Hau & _)].
        -- lia.
        -- unfold ips_of in Hmany. rewrite Hnone in Hmany. simpl in Hmany. lia.
        -- apply list_elem_of_fmap. exists a. split; [done|].
           apply list_elem_of_In, in_concat. exists [a].
           split; apply list_elem_of_In; [done|by left].
    + intros a Ha.
      apply list_elem_of_In, in_concat in Ha as (ys & Hys & Ha).
      apply list_elem_of_In in Hys, Ha.
      destruct (mapM_result_elem_of _ _ _ _ Hrun Hys) as (u & Hu & Hact).
      destruct (multiple_ip_activity_rows _ _ _ Hact)
        as [[-> _]|(a' & -> & Hau & Hty & Hcount & _)];
        [by apply elem_of_nil in Ha|].
      apply list_elem_of_singleton in Ha as ->. by rewrite Hau.
Qed.

Lemma detect_multiple_ip_access_rows_witness :
  (exists rows, detect_multiple_ip_access roaming = Ok rows
                /\ map a_user rows = ["alice"]
                /\ map ip_count rows = [Some 2%nat]).
Proof.
  destruct (detect_multiple_ip_access_rows roaming _ eq_refl) as [Htotal _].
  destruct Htotal as [rows Hrun].
  { apply Forall_forall. intros s Hs. vm_compute in Hs.
    repeat (apply elem_of_cons in Hs as [->|Hs]; [by eexists|]).
    by apply elem_of_nil in Hs. }
  exists rows. split; [done|].
  vm_compute in Hrun. by injection Hrun as <-.
Defined.

End MultipleAddresses.

Section RapidSwitching.
Import AzureCorrelator.
Context `{PandasSort} `{PandasStats}.

Lemma length_unique_Permutation {K} `{EqDecision K} (l l' : list K) :
  l ≡ₚ l' -> length (unique l) = length (unique l').
Proof. intros Hp. by rewrite (unique_Permutation _ _ Hp). Qed.

Lemma rapid_switching_activity_rows m user :
  rapid_switching_activity m user = []
  \/ (exists a, rapid_switching_activity m user = [a]
        /\ a_user a = user /\ activity_type a = Rapid_VM_Switching
        /\ vm_count a = Some (length (vms_of m user))
        /\ (1 < length (vms_of m user))%nat
        /\ exists switches, switch_count a = Some switches /\ (1 <= switches)%nat).
Proof.
  unfold rapid_switching_activity.
  assert (length (unique (map VM_Identifier
                            (sort_values Session_Start
                               (filter (fun s => s_User s = user) m))))
          = length (vms_of m user)) as Hvms.
  { apply length_unique_Permutation, Permutation_map, sort_values_Permutation. }
  rewrite Hvms.
  destruct (decide (1 < length (vms_of m user))%nat) as [Hmany|]; [|by left].
  destruct (vm_switches _) as [|sw sws]; [by left|].
  destruct (sort_values Session_Start _) as [|s ss]; [by left|].
  destruct (float_min sw sws <? 3600)%float; [|by left].
  right. eexists. split; [done|]. split_and!; [done..|].
  eexists. split; [done|]. simpl. lia.
Qed.

(** X26.  [detect_rapid_vm_switching] reports a user at most once, in the
    order of the users in the session mapping, and only a user whose
    sessions are on two VMs or more: a user with a single VM is never
    reported.  A row carries the number of the user's VMs and counts at
    least one switch. *)
Theorem detect_rapid_vm_switching_rows (self : t) (m : list Session) :
  user_vm_mapping self = Some m ->
  map a_user (detect_rapid_vm_switching self) `sublist_of` unique (map s_User m)
  /\ (forall a, a ∈ detect_rapid_vm_switching self ->
        activity_type a = Rapid_VM_Switching
        /\ vm_count a = Some (length (vms_of m (a_user a)))
        /\ (2 <= length (vms_of m (a_user a)))%nat
        /\ exists switches, switch_count a = Some switches /\ (1 <= switches)%nat)
  /\ (forall user, (length (vms_of m user) <= 1)%nat ->
        user ∉ map a_user (detect_rapid_vm_switching self)).
Proof.
  intros Hm. unfold detect_rapid_vm_switching. rewrite Hm.
  assert (forall a, a ∈ flat_map (rapid_switching_activity m) (unique (map s_User m)) ->
            activity_type a = Rapid_VM_Switching
            /\ vm_count a = Some (length (vms_of m (a_user a)))
            /\ (2 <= length (vms_of m (a_user a)))%nat
            /\ exists switches, switch_count a = Some switches /\ (1 <= switches)%nat)
    as Hrows.
  { intros a (u & Hu & Ha)%list_elem_of_In%in_flat_map.
    apply list_elem_of_In in Ha.
    destruct (rapid_switching_activity_rows m u)
      as [Hnil|(a' & Hrow & Hau & Hty & Hvm & Hmany & Hsw)].
    - rewrite Hnil in Ha. by apply elem_of_nil in Ha.
    - rewrite Hrow in Ha. apply list_elem_of_singleton in Ha as ->.
      rewrite Hau. split_and!; [done|done|lia|done]. }
  split_and!.
  - rewrite flat_map_concat_map.
    rewrite <- (map_id (unique (map s_User m))) at 2.
    apply (map_concat_sublist (fun u ys => ys = rapid_switching_activity m u)).
    + apply Forall2_fmap_r, Forall_Forall2_diag, Forall_forall. done.
    + intros u ys ->.
      destruct (rapid_switching_activity_rows m u) as [->|(a & -> & Hau & _)];
        [by left|right; by exists a].
  - exact Hrows.
  - intros user Hfew (a & -> & Ha)%list_elem_of_fmap.
    destruct (Hrows a Ha) as (_ & _ & Hmany & _). lia.
Qed.

End RapidSwitching.

Lemma detect_rapid_vm_switching_rows_witness :
  map AzureCorrelator.a_user
      (AzureCorrelator.detect_rapid_vm_switching (H := stable_PandasSort)
         (H0 := two_pass_PandasStats) roaming)
  = ["alice"]
  /\ "bob" ∉ map AzureCorrelator.a_user
               (AzureCorrelator.detect_rapid_vm_switching (H := stable_PandasSort)
                  (H0 := two_pass_PandasStats) roaming).
Proof.
  split; [by vm_compute|].
  apply (proj2 (proj2 (detect_rapid_vm_switching_rows (H := stable_PandasSort)
                         (H0 := two_pass_PandasStats) roaming _ eq_refl))).
  by vm_compute.
Defined.

(** ** Azure: failed sign-ins *)

Lemma map_concat_singleton {A B C} (R : A -> list B -> Prop) (p : B -> C)
    (k : A -> C) (l : list A) (yss : list (list B)) :
  Forall2 R l yss ->
  (forall x ys, x ∈ l -> R x ys -> exists b, ys = [b] /\ p b = k x) ->
  map p (List.concat yss) = map k l.
Proof.
  intros HF. induction HF as [|x ys l yss Hx _ IH]; intros HR; [done|].
  destruct (HR x ys) as (b & -> & Hb); [by left|done|].
  simpl. rewrite Hb. f_equal. apply IH. intros x' ys' Hx'. apply HR. by right.
Qed.

Lemma groupby_lengths {A} (key : A -> string) (l : list A) :
  sum_list (map (fun g => length g.2) (groupby key l)) = length l.
Proof.
  unfold groupby. rewrite map_map. simpl.
  apply length_groups; [apply NoDup_sorted_unique|].
  intros x Hx. apply elem_of_sorted, elem_of_unique, list_elem_of_fmap. by exists x.
Qed.

Lemma re_match_here_head p p' pat s :
  (forall c, re_char p c = re_char p' c) ->
  re_match_here (String p pat) s = re_match_here (String p' pat) s.
Proof. intros Hp. destruct s as [|c s]; simpl; [done|]. by rewrite Hp. Qed.

Lemma re_search_head p p' pat s :
  (forall c, re_char p c = re_char p' c) ->
  re_search (String p pat) s = re_search (String p' pat) s.
Proof.
  intros Hp. induction s as [|c s IH].
  - reflexivity.
  - cbn [re_search]. by rewrite (re_match_here_head _ _ _ _ Hp), IH.
Qed.

Section FailedLogins.
Import AzureCorrelator.

Lemma is_failure_spec (status : option string) :
  is_failure status
  = match status with
    | Some s => re_search "failure" s || re_search "failed" s
    | None => false
    end.
Proof.
  unfold is_failure. destruct status as [s|]; [|done].
  cbn [existsb str_contains].
  rewrite (re_search_head "F" "f" "ailure" s) by done.
  rewrite (re_search_head "F" "f" "ailed" s) by done.
  destruct (re_search "failure" s), (re_search "failed" s); done.
Qed.

Lemma failed_login_activity_row cols g ys :
  g.2 <> [] ->
  failed_login_activity cols g = Ok ys ->
  exists a,
    ys = [a]
    /\ a_user a = g.1 /\ activity_type a = Failed_Login_Attempt
    /\ attempts a = Some (length g.2)
    /\ is_minimum (start_time a) (map Date g.2)
    /\ is_maximum (end_time a) (map Date g.2).
Proof.
  intros Hne. unfold failed_login_activity.
  destruct g.2 as [|e es] eqn:Hg; [done|]. cbn [map].
  rewrite decide_True by (simpl; lia).
  match goal with
  | |- (?m ≫= _) = _ -> _ => destruct m as [ips|]; [|done]
  end.
  simpl. intros [= <-]. eexists. split; [done|].
  cbn [a_user activity_type attempts start_time end_time].
  split_and!; [done..| |].
  - split; [apply list_min_elem_of|].
    intros y [->|Hy]%elem_of_cons;
      [apply (proj1 (list_min_le _ _))|by apply (proj2 (list_min_le _ _))].
  - split; [apply list_max_elem_of|].
    intros y [->|Hy]%elem_of_cons;
      [apply (proj1 (list_max_ge _ _))|by apply (proj2 (list_max_ge _ _))].
Qed.

(** X27.  [detect_failed_logins] takes a sign-in for failed when its
    status holds [failure] or [failed] in any case of the letters; a
    sign-in without a status is not failed, and a table without a
    [Status] column gives no row at all.  When the detector returns, it
    has one row for every user with a failed sign-in, in ascending order
    of the users; the attempts of the rows add up to the number of failed
    sign-ins, and the row of a user spans from the first to the last of
    the user's failed sign-ins. *)
Theorem detect_failed_logins_rows (self : t) (df : SignInTable) :
  interactive_signin_df self = Some df ->
  (forall status, is_failure (Some status)
                  = re_search "failure" status || re_search "failed" status)
  /\ is_failure None = false
  /\ ("Status" ∉ columns df -> detect_failed_logins self = Ok [])
  /\ (forall rows,
        "Status" ∈ columns df -> detect_failed_logins self = Ok rows ->
        map a_user rows = sorted (unique (map User (failed_signins df)))
        /\ sum_list (map (fun a => default 0%nat (attempts a)) rows)
           = length (failed_signins df)
        /\ (forall a, a ∈ rows ->
              activity_type a = Failed_Login_Attempt
              /\ attempts a
                 = Some (length (filter (fun e => User e = a_user a)
                                        (failed_signins df)))
              /\ is_minimum (start_time a)
                   (map Date (filter (fun e => User e = a_user a) (failed_signins df)))
              /\ is_maximum (end_time a)
                   (map Date (filter (fun e => User e = a_user a)
                                     (failed_signins df))))).
Proof.
  intros Hdf. split_and!.
  - intros status. apply (is_failure_spec (Some status)).
  - done.
  - intros Hno. unfold detect_failed_logins. rewrite Hdf. by rewrite decide_False.
  - intros rows Hcol. unfold detect_failed_logins. rewrite Hdf, decide_True by done.
    fold (failed_signins df).
    destruct (mapM_result _ (groupby User (failed_signins df)))
      as [per_user|] eqn:Hrun; [|done].
    simpl. intros [= <-].
    pose proof (mapM_result_Ok_Forall2 _ _ _ Hrun) as HF.
    split_and!.
    + rewrite <- map_fst_groupby.
      apply (map_concat_singleton _ _ _ _ _ HF). intros g ys Hg Hys. simpl in Hys.
      destruct (failed_login_activity_row _ _ _ (groupby_not_nil _ _ _ Hg) Hys)
        as (a & -> & Hu & _). by exists a.
    + rewrite <- (groupby_lengths User (failed_signins df)). f_equal.
      apply (map_concat_singleton _ _ _ _ _ HF). intros g ys Hg Hys. simpl in Hys.
      destruct (failed_login_activity_row _ _ _ (groupby_not_nil _ _ _ Hg) Hys)
        as (a & -> & _ & _ & Hat & _). exists a. by rewrite Hat.
    + intros a Ha.
      apply list_elem_of_In, in_concat in Ha as (ys & Hys & Ha).
      apply list_elem_of_In in Hys, Ha.
      destruct (mapM_result_elem_of _ _ _ _ Hrun Hys) as (g & Hg & Hact).
      destruct (failed_login_activity_row _ _ _ (groupby_not_nil _ _ _ Hg) Hact)
        as (a' & -> & Hu & Hty & Hat & Hmin & Hmax).
      apply list_elem_of_singleton in Ha as ->.
      rewrite Hu, <- (elem_of_groupby _ _ _ Hg). done.
Qed.

Lemma detect_failed_logins_rows_witness :
  (exists rows, detect_failed_logins failures = Ok rows
                /\ map a_user rows = ["alice"]
                /\ map attempts rows = [Some 2%nat]).
Proof.
  destruct (detect_failed_logins failures) as [rows|e] eqn:Hrun;
    [|by vm_compute in Hrun].
  destruct (detect_failed_logins_rows failures _ eq_refl) as (_ & _ & _ & Hrows).
  destruct (Hrows rows) as (Husers & _); [|done|].
  { apply (bool_decide_unpack _). by vm_compute. }
  exists rows. split; [done|]. split.
  - rewrite Husers. by vm_compute.
  - vm_compute in Hrun. by injection Hrun as <-.
Defined.

End FailedLogins.

(** ** AWS: the timeline and the session mapping name the same users *)

Section TimelineUsers.
Import AWSCorrelator.
Context `{PandasSort}.

(** X28.  The timeline resolves users as the session mapping does: after
    [generate_user_vm_mapping], every session has its login in the
    timeline, a 'Login' entry from 'Event Bridge' at the start of the
    session that names the user of the session and its workspace. *)
Theorem timeline_names_session_users (self self' : t) (sessions : list Session)
    (s : Session) :
  generate_user_vm_mapping self = Ok (self', sessions) -> s ∈ sessions ->
  exists entry event,
    entry ∈ generate_timeline self'
    /\ event ∈ login_events self
    /\ entry = login_entry (resolved_users self (login_events self)) event
    /\ Event_Type entry = "Login" /\ Source entry = "Event Bridge"
    /\ Timestamp entry = Session_Start s
    /\ t_User entry = User s
    /\ workspaceId event = Workspace_ID s.
Proof.
  intros Hrun Hs.
  destruct (generate_user_vm_mapping_sessions _ _ _ _ Hrun Hs)
    as (e & event & He & Hev & Hw & Hu & Hst & _).
  assert (timeline_rows self'
          = map (login_entry (resolved_users self e)) e
            ++ match activity_timeline self with
               | Some acts =>
                   map (threat_entry
                          (existsb (fun a => bool_decide (is_Some (details a))) acts))
                       acts
               | None => []
               end) as Hrows.
  { unfold generate_user_vm_mapping in Hrun. rewrite He in Hrun.
    destruct (mapM_result _ _) as [per_group|]; [|done].
    simpl in Hrun. injection Hrun as <- _.
    unfold timeline_rows, resolved_users.
    cbn [set_user_vm_mapping eventbridge_df query_logs_df activity_timeline].
    rewrite He. by destruct (query_logs_df self). }
  exists (login_entry (resolved_users self e) event), event.
  unfold login_events. rewrite He. simpl.
  split_and!; try done.
  rewrite generate_timeline_Permutation, Hrows. apply elem_of_app. left.
  apply list_elem_of_fmap. by exists event.
Qed.

End TimelineUsers.

Lemma timeline_names_session_users_witness :
  (exists self',
     AWSCorrelator.generate_user_vm_mapping (H := stable_PandasSort) Scenario.aws
     = Ok (self', [Scenario.aws_session])
     /\ exists entry,
          entry ∈ AWSCorrelator.generate_timeline (H := stable_PandasSort) self'
          /\ AWSCorrelator.t_User entry = "USER_A").
Proof.
  destruct aws_scenario_mapping as [self' Hrun].
  exists self'. split; [done|].
  destruct (timeline_names_session_users (H := stable_PandasSort) Scenario.aws self'
              _ Scenario.aws_session Hrun)
    as (entry & event & Hin & _ & _ & _ & _ & _ & Huser & _); [by left|].
  by exists entry.
Defined.

(** ** Azure: the dictionaries of the allocation analysis *)

Section AllocationDictionaries.
Import AzureCorrelator.
Context `{PandasStats}.

Lemma nunique_per_lookup (by_col col : Session -> string) (m : list Session) k :
  nunique_per by_col col m !! k
  = if decide (k ∈ map by_col m)
    then Some (length (unique (map col (filter (fun s => by_col s = k) m))))
    else None.
Proof.
  unfold nunique_per.
  set (entries := map (fun g : string * list Session =>
                         (g.1, length (unique (map col g.2)))) (groupby by_col m)).
  assert (map fst entries = sorted (unique (map by_col m))) as Hkeys.
  { unfold entries. rewrite map_map. simpl. apply map_fst_groupby. }
  destruct (decide (k ∈ map by_col m)) as [Hin|Hout].
  - apply elem_of_list_to_map.
    + change (NoDup (map fst entries)). rewrite Hkeys. apply NoDup_sorted_unique.
    + unfold entries. apply list_elem_of_fmap.
      exists (k, filter (fun s => by_col s = k) m). split; [done|].
      apply list_elem_of_fmap in Hin as (s & -> & Hs).
      by apply (elem_of_groupby_intro by_col m s).
  - apply not_elem_of_list_to_map.
    change (k ∉ map fst entries). rewrite Hkeys.
    intros Hk. apply (proj1 (elem_of_sorted _ _)) in Hk.
    by apply (proj1 (elem_of_unique _ _)) in Hk.
Qed.

(** X29.  The dictionaries of [analyze_vm_allocation_pattern]:
    [vm_per_user] binds every user of the session mapping, and no other
    key, to the number of distinct VMs of the user's sessions, and
    [users_per_vm] binds every VM of the mapping, and no other key, to the
    number of distinct users with a session on it; the count of concurrent
    accesses is the length of the list reported. *)
Theorem analyze_vm_allocation_pattern_dictionaries (self : t) (m : list Session) :
  user_vm_mapping self = Some m ->
  exists analysis,
    analyze_vm_allocation_pattern self = Ok analysis
    /\ (forall user,
          vm_per_user analysis !! user
          = if decide (user ∈ map s_User m)
            then Some (length (vms_of m user)) else None)
    /\ (forall vm,
          users_per_vm analysis !! vm
          = if decide (vm ∈ map VM_Identifier m)
            then Some (length (unique (map s_User
                                 (filter (fun s => VM_Identifier s = vm) m))))
            else None)
    /\ (forall user n, vm_per_user analysis !! user = Some n -> (1 <= n)%nat)
    /\ concurrent_access_count analysis = length (concurrent_sessions analysis).
Proof.
  intros Hm. unfold analyze_vm_allocation_pattern. rewrite Hm.
  eexists. split; [done|]. cbn [vm_per_user users_per_vm concurrent_access_count
                                concurrent_sessions].
  split_and!.
  - intros user. apply nunique_per_lookup.
  - intros vm. apply nunique_per_lookup.
  - intros user n. rewrite nunique_per_lookup.
    destruct (decide (user ∈ map s_User m)) as [Hin|]; [|done].
    intros [= <-].
    assert (unique (map VM_Identifier (filter (fun s => s_User s = user) m)) <> [])
      as Hne.
    { apply unique_not_nil.
      pose proof (filter_user_not_nil s_User m user) as Hf.
      destruct (filter (fun s => s_User s = user) m); [|done].
      exfalso. apply Hf; [|done]. by apply elem_of_unique. }
    destruct (unique _); [done|simpl; lia].
  - done.
Qed.

End AllocationDictionaries.

Lemma analyze_vm_allocation_pattern_dictionaries_witness :
  (exists analysis,
     AzureCorrelator.analyze_vm_allocation_pattern (H := two_pass_PandasStats) roaming
     = Ok analysis
     /\ AzureCorrelator.vm_per_user analysis !! "alice" = Some 2%nat
     /\ AzureCorrelator.users_per_vm analysis !! "dev-1" = Some 2%nat
     /\ AzureCorrelator.vm_per_user analysis !! "carol" = None).
Proof.
  destruct (analyze_vm_allocation_pattern_dictionaries (H := two_pass_PandasStats)
              roaming _ eq_refl) as (analysis & Hrun & Hvm & Husers & _).
  exists analysis. split; [done|].
  rewrite !Hvm, Husers. split_and!; by vm_compute.
Defined.

(** ** Azure: one name per VM *)

Section OneNamePerVM.
Import AzureCorrelator.
Context `{PandasSort}.

Lemma generate_vm_name_grows cache device_id vm_name cache' :
  generate_vm_name cache device_id = (vm_name, cache') ->
  (forall k v, cache !! k = Some v -> cache' !! k = Some v)
  /\ (if decide (device_id = "" \/ device_id = "Unknown")
      then vm_name = "Unknown"
      else cache' !! device_id = Some vm_name).
Proof.
  unfold generate_vm_name.
  destruct (decide (device_id = "" \/ device_id = "Unknown")) as [Hunk|Hknown].
  { by intros [= <- <-]. }
  destruct (cache !! device_id) as [cached|] eqn:Hc.
  { by intros [= <- <-]. }
  intros [= <- <-]. split.
  - intros k v Hk. rewrite lookup_insert_ne; [done|]. congruence.
  - by rewrite lookup_insert_eq.
Qed.

Lemma named_by_grows cache cache' s :
  (forall k v, cache !! k = Some v -> cache' !! k = Some v) ->
  named_by cache s -> named_by cache' s.
Proof.
  intros Hgrow. unfold named_by. case_decide; [done|]. apply Hgrow.
Qed.

Lemma names_kept_step cache0 acc device_id vm_name cache s :
  names_kept cache0 acc ->
  generate_vm_name acc.1 device_id = (vm_name, cache) ->
  VM_Identifier s = device_id -> VM_Name s = vm_name ->
  names_kept cache0 (cache, acc.2 ++ [s]).
Proof.
  intros [Hgrow Hnames] Hgen Hid Hname.
  destruct (generate_vm_name_grows _ _ _ _ Hgen) as [Hmore Hnew].
  split; simpl.
  - intros k v Hk. by apply Hmore, Hgrow.
  - intros s' [Hs'|Hs']%elem_of_app.
    + by apply (named_by_grows acc.1), Hnames.
    + apply list_elem_of_singleton in Hs' as ->.
      unfold named_by. rewrite Hid, Hname. exact Hnew.
Qed.

Lemma event_session_names cache0 cols user acc event acc' :
  names_kept cache0 acc ->
  event_session cols user acc event = Ok acc' -> names_kept cache0 acc'.
Proof.
  intros Hkept. unfold event_session.
  destruct (generate_vm_name acc.1 "Unknown") as [vm_name cache] eqn:Hgen.
  destruct (Timestamp_add (Date event) (minutes 30)) as [r|e]; [|done].
  simpl. intros [= <-]. by eapply names_kept_step.
Qed.

Lemma device_session_names cache0 cols user acc g acc' :
  names_kept cache0 acc ->
  device_session cols user acc g = Ok acc' -> names_kept cache0 acc'.
Proof.
  intros Hkept. unfold device_session.
  destruct (sort_values Date g.2) as [|first_event rest]; [by intros [= <-]|].
  destruct (generate_vm_name acc.1 g.1) as [vm_name cache] eqn:Hgen.
  destruct (Timestamp_add _ (minutes 30)) as [r|e]; [|done].
  simpl. intros [= <-]. by eapply names_kept_step.
Qed.

Lemma build_sessions_names self df cache sessions :
  build_sessions self df = Ok (cache, sessions) ->
  names_kept (vm_name_mapping self) (cache, sessions).
Proof.
  unfold build_sessions. intros Hrun.
  eapply (foldlM_invariant _ (names_kept (vm_name_mapping self))); [| |exact Hrun].
  - intros acc user acc' _ Hacc. unfold user_sessions.
    destruct (device_column (columns df)) as [device_col|]; intros Hf.
    + eapply (foldlM_invariant _ (names_kept (vm_name_mapping self)));
        [|exact Hacc|exact Hf].
      intros a g a' _ Ha Hstep. by eapply device_session_names.
    + eapply (foldlM_invariant _ (names_kept (vm_name_mapping self)));
        [|exact Hacc|exact Hf].
      intros a ev a' _ Ha Hstep. by eapply event_session_names.
  - split; [done|]. simpl. by intros s ?%elem_of_nil.
Qed.

(** X30.  The Azure session mapping names a VM once: two sessions on the
    same VM identifier carry the same VM name, whichever users they belong
    to.  The names are those of the cache the correlator keeps: after
    [generate_user_vm_mapping] the cache holds every entry it held before,
    unchanged, and binds the identifier of every session to the name of
    the session (the sessions of the fallback path are named
    ['Unknown']). *)
Theorem generate_user_vm_mapping_vm_names (self self' : t)
    (sessions : list Session) :
  generate_user_vm_mapping self = Ok (self', sessions) ->
  (forall k v, vm_name_mapping self !! k = Some v ->
               vm_name_mapping self' !! k = Some v)
  /\ (forall s, s ∈ sessions -> named_by (vm_name_mapping self') s)
  /\ (forall s1 s2, s1 ∈ sessions -> s2 ∈ sessions ->
        VM_Identifier s1 = VM_Identifier s2 -> VM_Name s1 = VM_Name s2).
Proof.
  unfold generate_user_vm_mapping.
  destruct (noninteractive_signin_df self) as [df|]; [|done].
  destruct (build_sessions self df) as [[cache built]|e] eqn:Hb; [|done].
  simpl. destruct built as [|s0 built]; [done|].
  intros [= <- <-]. simpl.
  destruct (build_sessions_names _ _ _ _ Hb) as [Hgrow Hnames]. simpl in *.
  assert (forall s, s ∈ sort_values Session_Start (s0 :: built) ->
                    named_by cache s) as Hsorted.
  { intros s. rewrite sort_values_Permutation. apply Hnames. }
  split_and!; [done|done|].
  intros s1 s2 H1%Hsorted H2%Hsorted Hid. unfold named_by in H1, H2.
  rewrite <- Hid in H2. destruct (decide _); congruence.
Qed.

End OneNamePerVM.

Lemma generate_user_vm_mapping_vm_names_witness :
  (exists self',
     AzureCorrelator.generate_user_vm_mapping (H := stable_PandasSort) Scenario.azure
     = Ok (self', [Scenario.azure_session])
     /\ AzureCorrelator.vm_name_mapping self'
          !! AzureCorrelator.VM_Identifier Scenario.azure_session
        = Some (AzureCorrelator.VM_Name Scenario.azure_session)).
Proof.
  destruct azure_scenario_mapping as [self' Hrun].
  exists self'. split; [done|].
  destruct (generate_user_vm_mapping_vm_names (H := stable_PandasSort)
              Scenario.azure self' _ Hrun) as (_ & Hnames & _).
  exact (Hnames Scenario.azure_session (proj2 (elem_of_cons _ _ _) (or_introl eq_refl))).
Defined.
